(** * Position lifecycle of the Gate.io / MEXC spread bot

    A shallow embedding of the signal evaluator ([spread_detector.py]), the
    position ledger and exit policy ([gateio_trading_manager.py]), the MEXC
    ledger ([trading_manager.py]), the trade recorder and its statistics
    ([trade_analytics.py]), the tick dispatcher
    ([gateio_futures_spread_bot.py]) and the backtester ([backtest.py]).

    Modelling conventions.
    - Python [float] quantities (prices, spreads, clock readings, P&L) are
      exact rationals [Q]; Python [int] quantities (contract counts,
      leverage, order ids) are [Z].  Comparisons are the boolean tests the
      code performs.  Rounding is outside this model; the arithmetic of
      the specification's two worked scenarios is repeated in IEEE binary64
      in [Binary64].
    - A Python [dict] keyed by symbol is a [gmap string _].
    - Every call that leaves the process (the exchange SDK, the clock) takes
      its answer from an explicit environment record, one field per call
      site; [None] stands for a raised exception. *)

From Corelib Require Import PrimFloat.
From Stdlib Require Import ZArith QArith Qround Qabs Lqa Lia Bool Sorted.
From stdpp Require Import gmap strings.

Local Open Scope Z_scope.

(** ** Numbers *)

(** Python [a < b] on floats. *)
Definition Qlt_bool (a b : Q) : bool := negb (Qle_bool b a).

(** Python [int(x)] on a float: truncation towards zero. *)
Definition py_int (x : Q) : Z :=
  if Qlt_bool x 0 then Qceiling x else Qfloor x.

(** Python [int(round(x, 0))]: the nearest integer, ties going to the even
    neighbour. *)
Definition py_round (x : Q) : Z :=
  let f := Qfloor x in
  let r := (x - inject_Z f)%Q in
  if Qlt_bool r (1 # 2) then f
  else if Qlt_bool (1 # 2) r then f + 1
  else if Z.even f then f else f + 1.

(** ** Signal evaluator ([spread_detector.py]) *)

Inductive SignalType := LONG | SHORT.

Record SpreadOpportunity := {
  symbol : string;
  mark_price : Q;
  last_price : Q;
  spread_percent : Q;
  signal_type : SignalType;
  timestamp : Q
}.

Record SpreadDetector := {
  min_threshold : Q;
  last_alert : gmap string Q;
  alert_cooldown : Q
}.

(** [SpreadDetector.__init__] *)
Definition new_SpreadDetector (threshold : Q) : SpreadDetector :=
  {| min_threshold := threshold; last_alert := ∅; alert_cooldown := 60 |}.

Definition set_last_alert (d : SpreadDetector) (sym : string) (t : Q)
  : SpreadDetector :=
  {| min_threshold := min_threshold d;
     last_alert := <[sym := t]> (last_alert d);
     alert_cooldown := alert_cooldown d |}.

(** The cooldown test of [detect_spread]: the symbol has an entry in
    [last_alert] and less than [alert_cooldown] seconds passed since. *)
Definition in_cooldown (d : SpreadDetector) (sym : string) (current_time : Q)
  : bool :=
  match last_alert d !! sym with
  | Some t => Qlt_bool (current_time - t) (alert_cooldown d)
  | None => false
  end.

(** [SpreadDetector.detect_spread].  [current_time] is the clock reading of
    the cooldown check, [stamp] the one taken by the constructor of
    [SpreadOpportunity]. *)
Definition detect_spread (d : SpreadDetector) (current_time stamp : Q)
    (sym : string) (mark last : Q) : SpreadDetector * option SpreadOpportunity :=
  if Qle_bool mark 0 || Qle_bool last 0 then (d, None)
  else if in_cooldown d sym current_time then (d, None)
  else if Qlt_bool last mark then
    let spread := ((mark - last) / last * 100)%Q in
    if Qle_bool (min_threshold d) spread then
      (set_last_alert d sym current_time,
       Some {| symbol := sym; mark_price := mark; last_price := last;
               spread_percent := spread; signal_type := LONG;
               timestamp := stamp |})
    else (d, None)
  else if Qlt_bool mark last then
    let spread := ((last - mark) / mark * 100)%Q in
    if Qle_bool (min_threshold d) spread then
      (set_last_alert d sym current_time,
       Some {| symbol := sym; mark_price := mark; last_price := last;
               spread_percent := spread; signal_type := SHORT;
               timestamp := stamp |})
    else (d, None)
  else (d, None).

(** ** Double precision

    The arithmetic of [detect_spread] and of the manual P&L computation as
    Python evaluates it, on IEEE binary64 values. *)

Module Binary64.

(** The double nearest to 0.0001, Python's [0.0001]. *)
Definition one_ten_thousandth : float := 0x1.a36e2eb1c432dp-14%float.

(** [((mark_price - last_price) / last_price) * 100] *)
Definition long_spread (mark last : float) : float :=
  ((mark - last) / last * 100)%float.

(** [size * price_diff * quanto] of a long position. *)
Definition long_pnl (sz entry exit_ quanto : float) : float :=
  (sz * (exit_ - entry) * quanto)%float.

(** [(pnl / margin_used * 100) if margin_used > 0 else 0] *)
Definition roi (pnl sz entry quanto lev : float) : float :=
  let margin := (sz * entry * quanto / lev)%float in
  if (0 <? margin)%float then (pnl / margin * 100)%float else 0%float.

End Binary64.

(** ** Trade recorder ([trade_analytics.py]) *)

Inductive Side := long | short.

(** The [trade_data] dictionary handed to [log_trade]. *)
Record TradeData := {
  td_symbol : string;
  td_side : Side;
  td_entry_price : Q;
  td_exit_price : Q;
  td_size : Z;
  td_leverage : Z;
  td_entry_spread : Q;
  td_exit_spread : Q;
  td_entry_time : Q;
  td_exit_time : Q;
  td_quanto_multiplier : Q;
  td_order_id : Z;
  td_real_pnl_usd : option Q
}.

(** The dictionary [_calculate_pnl] returns; [t_timestamp] is the exit time
    the source formats as a date string. *)
Record PnlData := {
  t_timestamp : Q;
  t_symbol : string;
  t_side : Side;
  t_entry_price : Q;
  t_exit_price : Q;
  t_size : Z;
  t_leverage : Z;
  t_entry_spread : Q;
  t_exit_spread : Q;
  pnl_usd : Q;
  pnl_percent : Q;
  hold_time_seconds : Q;
  hold_time_minutes : Q;
  margin_used : Q
}.

Record TradeAnalytics := {
  trades : list PnlData;
  daily_pnl : Q
}.

(** [TradeAnalytics._calculate_pnl]; [None] is the [ZeroDivisionError] of
    [position_value / leverage]. *)
Definition _calculate_pnl (td : TradeData) : option PnlData :=
  let entry_price := td_entry_price td in
  let exit_price := td_exit_price td in
  let size := Z.abs (td_size td) in
  let leverage := td_leverage td in
  let quanto := td_quanto_multiplier td in
  let pnl :=
    match td_real_pnl_usd td with
    | Some real => real
    | None =>
        let price_diff :=
          match td_side td with
          | long => (exit_price - entry_price)%Q
          | short => (entry_price - exit_price)%Q
          end in
        (inject_Z size * price_diff * quanto)%Q
    end in
  let position_value := (inject_Z size * entry_price * quanto)%Q in
  if leverage =? 0 then None
  else
    let margin := (position_value / inject_Z leverage)%Q in
    let percent := if Qlt_bool 0 margin then (pnl / margin * 100)%Q else 0%Q in
    let hold := (td_exit_time td - td_entry_time td)%Q in
    Some {| t_timestamp := td_exit_time td;
            t_symbol := td_symbol td;
            t_side := td_side td;
            t_entry_price := entry_price;
            t_exit_price := exit_price;
            t_size := size;
            t_leverage := leverage;
            t_entry_spread := td_entry_spread td;
            t_exit_spread := td_exit_spread td;
            pnl_usd := pnl;
            pnl_percent := percent;
            hold_time_seconds := hold;
            hold_time_minutes := (hold / 60)%Q;
            margin_used := margin |}.

(** [TradeAnalytics.log_trade]: the record is appended and returned; an
    exception of [_calculate_pnl] is swallowed and [None] returned. *)
Definition log_trade (a : TradeAnalytics) (td : TradeData)
  : TradeAnalytics * option PnlData :=
  match _calculate_pnl td with
  | Some p =>
      ({| trades := trades a ++ [p];
          daily_pnl := (daily_pnl a + pnl_usd p)%Q |}, Some p)
  | None => (a, None)
  end.

(** ** Position ledger ([gateio_trading_manager.py]) *)

(** [order_id] of a tracked position: the exchange's order id, or the
    marker ['synced'] of an adopted position. *)
Inductive OrderRef := synced | order_no (id : Z).

(** One value of the [open_positions] dictionary.  The keys
    ['partial_closed'] and ['stop_loss_order_id'] are absent until written;
    absence reads as [false] and [None]. *)
Record Position := {
  pos_side : Side;
  pos_size : Z;
  pos_entry_price : Q;
  pos_entry_time : Q;
  pos_entry_spread : Q;
  pos_order_id : OrderRef;
  pos_quanto_multiplier : Q;
  partial_closed : bool;
  stop_loss_order_id : option Z
}.

(** A position object of [list_positions]: signed size, positive for long. *)
Record RawPosition := {
  contract : string;
  raw_size : Z;
  raw_entry_price : Q;
  raw_mark_price : Q;
  raw_unrealised_pnl : Q
}.

(** One value of the snapshot dictionary [real_positions]. *)
Record RealPosition := {
  real_side : Side;
  real_size : Z;
  real_entry_price : Q;
  real_mark_price : Q;
  real_unrealised_pnl : Q
}.

(** The fields of a contract specification the manager reads; a field is
    [None] when the SDK object holds no (or an empty) value. *)
Record Contract := {
  quanto_multiplier : option Q;
  order_size_min : option Z
}.

(** The order objects handed to [create_futures_order]. *)
Record FuturesOrder := {
  fo_contract : string;
  fo_size : Z;
  fo_price : string;
  fo_tif : string;
  fo_text : string;
  fo_reduce_only : bool
}.

(** The trigger orders handed to [create_price_triggered_order]. *)
Record FuturesPriceTriggeredOrder := {
  initial : FuturesOrder;
  trigger_price : Q;
  trigger_rule : Z
}.

(** The manager object.  [submitted] is the history of orders handed to
    [create_futures_order] and [triggers] the history of trigger orders
    [create_price_triggered_order] acknowledged, kept to state what a call
    sent. *)
Record GateIOTradingManager := {
  position_size_usd : Q;
  leverage : Z;
  max_positions : Z;
  exit_spread_threshold : Q;
  open_positions : gmap string Position;
  position_cache : gmap string RealPosition;
  cache_time : Q;
  cache_ttl : Q;
  analytics : TradeAnalytics;
  submitted : list FuturesOrder;
  triggers : list FuturesPriceTriggeredOrder
}.

(** [GateIOTradingManager.__init__] *)
Definition new_GateIOTradingManager (usd : Q) (lev maxp : Z) (exit_thr : Q)
  : GateIOTradingManager :=
  {| position_size_usd := usd; leverage := lev; max_positions := maxp;
     exit_spread_threshold := exit_thr;
     open_positions := ∅; position_cache := ∅; cache_time := 0;
     cache_ttl := 30;
     analytics := {| trades := []; daily_pnl := 0 |};
     submitted := []; triggers := [] |}.

Definition with_open_positions (m : GateIOTradingManager)
    (ps : gmap string Position) : GateIOTradingManager :=
  {| position_size_usd := position_size_usd m; leverage := leverage m;
     max_positions := max_positions m;
     exit_spread_threshold := exit_spread_threshold m;
     open_positions := ps; position_cache := position_cache m;
     cache_time := cache_time m; cache_ttl := cache_ttl m;
     analytics := analytics m; submitted := submitted m;
     triggers := triggers m |}.

Definition with_cache (m : GateIOTradingManager)
    (c : gmap string RealPosition) (t : Q) : GateIOTradingManager :=
  {| position_size_usd := position_size_usd m; leverage := leverage m;
     max_positions := max_positions m;
     exit_spread_threshold := exit_spread_threshold m;
     open_positions := open_positions m; position_cache := c;
     cache_time := t; cache_ttl := cache_ttl m;
     analytics := analytics m; submitted := submitted m;
     triggers := triggers m |}.

Definition with_analytics (m : GateIOTradingManager) (a : TradeAnalytics)
  : GateIOTradingManager :=
  {| position_size_usd := position_size_usd m; leverage := leverage m;
     max_positions := max_positions m;
     exit_spread_threshold := exit_spread_threshold m;
     open_positions := open_positions m; position_cache := position_cache m;
     cache_time := cache_time m; cache_ttl := cache_ttl m;
     analytics := a; submitted := submitted m; triggers := triggers m |}.

(** Handing [o] to [create_futures_order]. *)
Definition submit (m : GateIOTradingManager) (o : FuturesOrder)
  : GateIOTradingManager :=
  {| position_size_usd := position_size_usd m; leverage := leverage m;
     max_positions := max_positions m;
     exit_spread_threshold := exit_spread_threshold m;
     open_positions := open_positions m; position_cache := position_cache m;
     cache_time := cache_time m; cache_ttl := cache_ttl m;
     analytics := analytics m; submitted := submitted m ++ [o];
     triggers := triggers m |}.

(** [create_price_triggered_order] acknowledging [o]. *)
Definition submit_trigger (m : GateIOTradingManager)
    (o : FuturesPriceTriggeredOrder) : GateIOTradingManager :=
  {| position_size_usd := position_size_usd m; leverage := leverage m;
     max_positions := max_positions m;
     exit_spread_threshold := exit_spread_threshold m;
     open_positions := open_positions m; position_cache := position_cache m;
     cache_time := cache_time m; cache_ttl := cache_ttl m;
     analytics := analytics m; submitted := submitted m;
     triggers := triggers m ++ [o] |}.

(** The result of a method that may let an exception escape. *)
Inductive outcome (A : Type) := Returned (a : A) | Raised.
Arguments Returned {A} a.
Arguments Raised {A}.

Record UnrealizedPnl := {
  u_pnl_usd : Q;
  u_roi_pct : Q;
  u_pnl_cents : Q
}.

(** [GateIOTradingManager.calculate_unrealized_pnl]; it raises when
    [leverage] is 0. *)
Definition calculate_unrealized_pnl (m : GateIOTradingManager) (sym : string)
    (current_price : Q) : outcome UnrealizedPnl :=
  match open_positions m !! sym with
  | None => Returned {| u_pnl_usd := 0; u_roi_pct := 0; u_pnl_cents := 0 |}
  | Some position =>
      let entry_price := pos_entry_price position in
      let size := inject_Z (pos_size position) in
      let quanto := pos_quanto_multiplier position in
      let price_diff :=
        match pos_side position with
        | long => (current_price - entry_price)%Q
        | short => (entry_price - current_price)%Q
        end in
      let unrealized := (size * price_diff * quanto)%Q in
      let position_value := (size * entry_price * quanto)%Q in
      if leverage m =? 0 then Raised
      else
        let margin := (position_value / inject_Z (leverage m))%Q in
        let roi :=
          if Qlt_bool 0 margin then (unrealized / margin * 100)%Q else 0%Q in
        Returned {| u_pnl_usd := unrealized; u_roi_pct := roi;
                    u_pnl_cents := (unrealized * 100)%Q |}
  end.

(** The fallback of [calculate_position_size] (its [except] branch); a
    zero price raises again, out of the method. *)
Definition fallback_position_size (m : GateIOTradingManager) (price : Q)
  : option Z :=
  if Qeq_bool price 0 then None
  else Some (py_round (position_size_usd m * inject_Z (leverage m) / price)).

(** [GateIOTradingManager.calculate_position_size].  [resp] is the answer of
    [get_futures_contract]: [None] when the call raises, [Some None] for an
    empty answer.  The result is [None] when an exception leaves the
    method. *)
Definition calculate_position_size (m : GateIOTradingManager) (price : Q)
    (resp : option (option Contract)) : option Z :=
  match resp with
  | None => fallback_position_size m price
  | Some None => fallback_position_size m price
  | Some (Some c) =>
      match quanto_multiplier c with
      | None => fallback_position_size m price
      | Some quanto =>
          if Qeq_bool (price * quanto) 0 then fallback_position_size m price
          else
            let quantity :=
              (position_size_usd m * inject_Z (leverage m)
               / (price * quanto))%Q in
            let min_size :=
              match order_size_min c with
              | Some z => if z =? 0 then 1%Q else inject_Z z
              | None => 1%Q
              end in
            let quantity :=
              if Qlt_bool (Qabs quantity) min_size
              then (if Qlt_bool 0 quantity then min_size else (- min_size)%Q)
              else quantity in
            Some (py_round quantity)
      end
  end.

(** The dictionary [get_real_positions_cached] builds from the answer of
    [list_positions]: zero-size entries are skipped, a later entry of a
    contract replaces an earlier one. *)
Definition real_position_of (pos : RawPosition) : RealPosition :=
  {| real_side := if 0 <? raw_size pos then long else short;
     real_size := Z.abs (raw_size pos);
     real_entry_price := raw_entry_price pos;
     real_mark_price := raw_mark_price pos;
     real_unrealised_pnl := raw_unrealised_pnl pos |}.

Definition collect_real_positions (positions : list RawPosition)
  : gmap string RealPosition :=
  fold_left
    (fun acc pos =>
       if raw_size pos =? 0 then acc
       else <[contract pos := real_position_of pos]> acc)
    positions ∅.

(** The answers one call of [get_real_positions_cached] consumes: the clock
    and [list_positions] ([None]: the call raises). *)
Record SnapshotEnv := {
  snap_time : Q;
  snap_positions : option (list RawPosition)
}.

(** [GateIOTradingManager.get_real_positions_cached] *)
Definition get_real_positions_cached (m : GateIOTradingManager)
    (force_refresh : bool) (env : SnapshotEnv)
  : GateIOTradingManager * gmap string RealPosition :=
  let current_time := snap_time env in
  if negb force_refresh
     && Qlt_bool (current_time - cache_time m) (cache_ttl m)
  then (m, position_cache m)
  else
    match snap_positions env with
    | Some positions =>
        let real_positions := collect_real_positions positions in
        (with_cache m real_positions current_time, real_positions)
    | None => (m, position_cache m)
    end.

(** The entry [sync_positions_from_gateio] writes for a remote position. *)
Definition synced_position (now : Q) (pos_data : RealPosition) : Position :=
  {| pos_side := real_side pos_data;
     pos_size := real_size pos_data;
     pos_entry_price := real_entry_price pos_data;
     pos_entry_time := now;
     pos_entry_spread := 0;
     pos_order_id := synced;
     pos_quanto_multiplier := 1 # 10000;
     partial_closed := false;
     stop_loss_order_id := None |}.

(** The answers [sync_positions_from_gateio] consumes; [sync_clock s] is the
    clock reading of the loop iteration for symbol [s]. *)
Record SyncEnv := {
  sync_snapshot : SnapshotEnv;
  sync_clock : string -> Q
}.

(** [GateIOTradingManager.sync_positions_from_gateio]: every entry of the
    forced snapshot is written into [open_positions]. *)
Definition sync_positions_from_gateio (m : GateIOTradingManager)
    (env : SyncEnv) : GateIOTradingManager :=
  let '(m1, real_positions) :=
    get_real_positions_cached m true (sync_snapshot env) in
  with_open_positions m1
    (map_fold
       (fun sym pos_data acc =>
          <[sym := synced_position (sync_clock env sym) pos_data]> acc)
       (open_positions m1) real_positions).

(** [GateIOTradingManager.can_open_position] *)
Definition can_open_position (m : GateIOTradingManager) : bool :=
  Z.of_nat (size (open_positions m)) <? max_positions m.

(** [GateIOTradingManager.has_position] *)
Definition has_position (m : GateIOTradingManager) (sym : string) : bool :=
  bool_decide (is_Some (open_positions m !! sym)).

Definition signal_lower (s : SignalType) : Side :=
  match s with LONG => long | SHORT => short end.

(** The answers [open_position] consumes, in call order. *)
Record OpenEnv := {
  open_snapshot : SnapshotEnv;
  open_contract : option (option Contract);
  open_order : option Z;
  open_contract_after : option (option Contract);
  open_time : Q
}.

(** [GateIOTradingManager.open_position].  The calls [set_cross_margin] and
    [update_leverage] swallow their exceptions and touch no field of the
    manager; the whole body runs under [position_lock]. *)
Definition open_position (m : GateIOTradingManager)
    (opportunity : SpreadOpportunity) (env : OpenEnv)
  : GateIOTradingManager * bool :=
  let sym := symbol opportunity in
  if negb (can_open_position m) then (m, false)
  else
    let '(m1, real_positions) :=
      get_real_positions_cached m true (open_snapshot env) in
    match real_positions !! sym with
    | Some _ => (m1, false)
    | None =>
        let entry_price := last_price opportunity in
        match calculate_position_size m1 entry_price (open_contract env) with
        | None => (m1, false)
        | Some sz =>
            if sz =? 0 then (m1, false)
            else
              let sz :=
                match signal_type opportunity with
                | SHORT => - Z.abs sz
                | LONG => Z.abs sz
                end in
              let order :=
                {| fo_contract := sym; fo_size := sz; fo_price := "0";
                   fo_tif := "ioc"; fo_text := "t-spread";
                   fo_reduce_only := false |} in
              let m2 := submit m1 order in
              match open_order env with
              | None => (m2, false)
              | Some id =>
                  match open_contract_after env with
                  | None => (m2, false)
                  | Some c =>
                      let quanto :=
                        match c with
                        | Some c' =>
                            match quanto_multiplier c' with
                            | Some q => q
                            | None => 1 # 10000
                            end
                        | None => 1 # 10000
                        end in
                      (with_open_positions m2
                         (<[sym :=
                              {| pos_side :=
                                   signal_lower (signal_type opportunity);
                                 pos_size := Z.abs sz;
                                 pos_entry_price := entry_price;
                                 pos_entry_time := open_time env;
                                 pos_entry_spread :=
                                   spread_percent opportunity;
                                 pos_order_id := order_no id;
                                 pos_quanto_multiplier := quanto;
                                 partial_closed := false;
                                 stop_loss_order_id := None |}]>
                            (open_positions m2)),
                       true)
                  end
              end
        end
    end.

(** The answers [close_position] and [close_partial_position] consume, in
    call order: the forced snapshot, [create_futures_order] ([None]: it
    raises), [list_position_close] ([None]: it raises; otherwise the [pnl]
    fields of the returned entries, [None] for an empty field) and the
    clock. *)
Record CloseEnv := {
  close_snapshot : SnapshotEnv;
  close_order : option Z;
  close_history : option (list (option Q));
  close_time : Q
}.

(** The realised P&L both closing methods read off [list_position_close]. *)
Definition fetch_real_pnl (history : option (list (option Q))) : option Q :=
  match history with
  | Some (closed_pos :: _) =>
      Some (match closed_pos with Some p => p | None => 0%Q end)
  | Some [] => None
  | None => None
  end.

(** [GateIOTradingManager.close_position] *)
Definition close_position (m : GateIOTradingManager) (sym : string)
    (exit_price exit_spread : Q) (env : CloseEnv)
  : GateIOTradingManager * option PnlData :=
  match open_positions m !! sym with
  | None => (m, None)
  | Some position =>
      let '(m1, real_positions) :=
        get_real_positions_cached m true (close_snapshot env) in
      match real_positions !! sym with
      | None =>
          (with_open_positions m1 (delete sym (open_positions m1)), None)
      | Some real_pos =>
          let sz := real_size real_pos in
          let close_size :=
            match pos_side position with long => - sz | short => sz end in
          let order :=
            {| fo_contract := sym; fo_size := close_size; fo_price := "0";
               fo_tif := "ioc"; fo_text := "t-close";
               fo_reduce_only := true |} in
          let m2 := submit m1 order in
          match close_order env with
          | None => (m2, None)
          | Some id =>
              let trade_data :=
                {| td_symbol := sym;
                   td_side := pos_side position;
                   td_entry_price := pos_entry_price position;
                   td_exit_price := exit_price;
                   td_size := pos_size position;
                   td_leverage := leverage m2;
                   td_entry_spread := pos_entry_spread position;
                   td_exit_spread := exit_spread;
                   td_entry_time := pos_entry_time position;
                   td_exit_time := close_time env;
                   td_quanto_multiplier := pos_quanto_multiplier position;
                   td_order_id := id;
                   td_real_pnl_usd := fetch_real_pnl (close_history env) |} in
              let '(a, pnl_data) := log_trade (analytics m2) trade_data in
              let m3 := with_analytics m2 a in
              (with_open_positions m3 (delete sym (open_positions m3)),
               pnl_data)
          end
      end
  end.

Definition set_pos_size (sz : Z) (p : Position) : Position :=
  {| pos_side := pos_side p; pos_size := sz;
     pos_entry_price := pos_entry_price p;
     pos_entry_time := pos_entry_time p;
     pos_entry_spread := pos_entry_spread p;
     pos_order_id := pos_order_id p;
     pos_quanto_multiplier := pos_quanto_multiplier p;
     partial_closed := partial_closed p;
     stop_loss_order_id := stop_loss_order_id p |}.

Definition set_partial_closed (p : Position) : Position :=
  {| pos_side := pos_side p; pos_size := pos_size p;
     pos_entry_price := pos_entry_price p;
     pos_entry_time := pos_entry_time p;
     pos_entry_spread := pos_entry_spread p;
     pos_order_id := pos_order_id p;
     pos_quanto_multiplier := pos_quanto_multiplier p;
     partial_closed := true;
     stop_loss_order_id := stop_loss_order_id p |}.

Definition set_stop_loss_order_id (id : Z) (p : Position) : Position :=
  {| pos_side := pos_side p; pos_size := pos_size p;
     pos_entry_price := pos_entry_price p;
     pos_entry_time := pos_entry_time p;
     pos_entry_spread := pos_entry_spread p;
     pos_order_id := pos_order_id p;
     pos_quanto_multiplier := pos_quanto_multiplier p;
     partial_closed := partial_closed p;
     stop_loss_order_id := Some id |}.

(** [GateIOTradingManager.close_partial_position].  The tracked entry is
    updated in place ([position['size'] = ...]), which [alter] renders. *)
Definition close_partial_position (m : GateIOTradingManager) (sym : string)
    (exit_price exit_spread : Q) (percent : Z) (env : CloseEnv)
  : GateIOTradingManager * option PnlData :=
  match open_positions m !! sym with
  | None => (m, None)
  | Some position =>
      let '(m1, real_positions) :=
        get_real_positions_cached m true (close_snapshot env) in
      match real_positions !! sym with
      | None => (m1, None)
      | Some real_pos =>
          let total_size := real_size real_pos in
          let partial_size :=
            py_int (inject_Z (total_size * percent) / 100) in
          if partial_size =? 0 then (m1, None)
          else
            let close_size :=
              match pos_side position with
              | long => - partial_size
              | short => partial_size
              end in
            let order :=
              {| fo_contract := sym; fo_size := close_size; fo_price := "0";
                 fo_tif := "ioc"; fo_text := "t-partial";
                 fo_reduce_only := true |} in
            let m2 := submit m1 order in
            match close_order env with
            | None => (m2, None)
            | Some id =>
                let trade_data :=
                  {| td_symbol := sym;
                     td_side := pos_side position;
                     td_entry_price := pos_entry_price position;
                     td_exit_price := exit_price;
                     td_size := partial_size;
                     td_leverage := leverage m2;
                     td_entry_spread := pos_entry_spread position;
                     td_exit_spread := exit_spread;
                     td_entry_time := pos_entry_time position;
                     td_exit_time := close_time env;
                     td_quanto_multiplier := pos_quanto_multiplier position;
                     td_order_id := id;
                     td_real_pnl_usd :=
                       fetch_real_pnl (close_history env) |} in
                let '(a, pnl_data) := log_trade (analytics m2) trade_data in
                let m3 := with_analytics m2 a in
                (with_open_positions m3
                   (alter (set_pos_size (total_size - partial_size)) sym
                      (open_positions m3)),
                 pnl_data)
            end
      end
  end.

(** The answers [set_stop_loss_at_entry] consumes.  The module imports
    [FuturesPriceTrigger] while the body names [FuturePriceTrigger]: under
    these imports building the trigger raises, which is the answer
    [stop_order = None]; the model keeps the call as the body writes it. *)
Record StopEnv := {
  stop_snapshot : SnapshotEnv;
  stop_order : option Z
}.

(** [GateIOTradingManager.set_stop_loss_at_entry] *)
Definition set_stop_loss_at_entry (m : GateIOTradingManager) (sym : string)
    (env : StopEnv) : GateIOTradingManager * bool :=
  match open_positions m !! sym with
  | None => (m, false)
  | Some position =>
      let '(m1, real_positions) :=
        get_real_positions_cached m true (stop_snapshot env) in
      match real_positions !! sym with
      | None => (m1, false)
      | Some real_pos =>
          let remaining_size := real_size real_pos in
          match stop_order env with
          | None => (m1, false)
          | Some id =>
              let trigger_order :=
                match pos_side position with
                | long =>
                    {| initial :=
                         {| fo_contract := sym; fo_size := - remaining_size;
                            fo_price := "0"; fo_tif := "ioc";
                            fo_text := "t-stoploss";
                            fo_reduce_only := true |};
                       trigger_price := pos_entry_price position;
                       trigger_rule := 2 |}
                | short =>
                    {| initial :=
                         {| fo_contract := sym; fo_size := remaining_size;
                            fo_price := "0"; fo_tif := "ioc";
                            fo_text := "t-stoploss";
                            fo_reduce_only := true |};
                       trigger_price := pos_entry_price position;
                       trigger_rule := 1 |}
                end in
              let m2 := submit_trigger m1 trigger_order in
              (with_open_positions m2
                 (alter (set_stop_loss_order_id id) sym (open_positions m2)),
               true)
          end
      end
  end.

(** The answers [check_exit_conditions] may consume. *)
Record ExitEnv := {
  exit_partial : CloseEnv;
  exit_stop : StopEnv;
  exit_close : CloseEnv
}.

(** The full-exit rule closing [check_exit_conditions] ("FULL EXIT"): the
    position is closed when the spread is at or below the exit threshold. *)
Definition full_exit (m : GateIOTradingManager) (sym : string)
    (current_spread exit_price : Q) (env : ExitEnv)
  : GateIOTradingManager * outcome (option PnlData) :=
  if Qle_bool current_spread (exit_spread_threshold m)
  then
    let '(m', r) :=
      close_position m sym exit_price current_spread (exit_close env) in
    (m', Returned r)
  else (m, Returned None).

(** [GateIOTradingManager.check_exit_conditions].  [position] is the entry
    object of [open_positions], so the write
    [position['partial_closed'] = True] lands in the ledger.  The
    take-profit rule returns when its partial close went through; in every
    other case control reaches the full-exit rule. *)
Definition check_exit_conditions (m : GateIOTradingManager) (sym : string)
    (current_spread exit_price take_profit_roi : Q) (env : ExitEnv)
  : GateIOTradingManager * outcome (option PnlData) :=
  match open_positions m !! sym with
  | None => (m, Returned None)
  | Some position =>
      match calculate_unrealized_pnl m sym exit_price with
      | Raised => (m, Raised)
      | Returned pnl_data =>
          let current_roi := u_roi_pct pnl_data in
          if Qle_bool take_profit_roi current_roi
             && negb (partial_closed position)
          then
            let '(m1, partial_result) :=
              close_partial_position m sym exit_price current_spread 50
                (exit_partial env) in
            match partial_result with
            | Some r =>
                let m2 :=
                  with_open_positions m1
                    (alter set_partial_closed sym (open_positions m1)) in
                let '(m3, _) := set_stop_loss_at_entry m2 sym (exit_stop env) in
                (m3, Returned (Some r))
            | None => full_exit m1 sym current_spread exit_price env
            end
          else full_exit m sym current_spread exit_price env
      end
  end.

(** ** Tick dispatcher ([gateio_futures_spread_bot.py]) *)

Record Stats := {
  tickers_processed : Z;
  spreads_found : Z;
  positions_opened : Z;
  positions_closed : Z;
  errors : Z
}.

(** The fields of the bot [on_ticker_update] reads and writes;
    [take_profit_cfg] is the optional key ['take_profit_roi'] of the trading
    configuration. *)
Record GateIOSpreadBot := {
  spread_detector : SpreadDetector;
  symbol_whitelist : option (list string);
  trading_enabled : bool;
  trading_manager : option GateIOTradingManager;
  take_profit_cfg : option Q;
  stats : Stats
}.

Record Ticker := {
  tk_symbol : string;
  tk_mark_price : Q;
  tk_last : Q
}.

(** The answers one tick may consume. *)
Record TickEnv := {
  tick_time : Q;
  tick_stamp : Q;
  tick_open : OpenEnv;
  tick_exit : ExitEnv
}.

(** What a tick did to the ledger, for stating the exit rules. *)
Record TickReport := {
  opened : bool;
  exit_spread_used : option Q;
  trade : option PnlData;
  raised : bool
}.

Definition whitelisted (w : option (list string)) (sym : string) : bool :=
  match w with
  | None => true
  | Some [] => true
  | Some l => bool_decide (sym ∈ l)
  end.

(** The spread [on_ticker_update] hands to the exit check: the spread in
    the direction of the position, 0 once the prices no longer stand that
    way. *)
Definition exit_spread (s : Side) (mark last : Q) : Q :=
  match s with
  | long =>
      if Qlt_bool last mark then ((mark - last) / last * 100)%Q else 0%Q
  | short =>
      if Qlt_bool mark last then ((last - mark) / mark * 100)%Q else 0%Q
  end.

Definition bump (f : Stats -> Stats) (b : GateIOSpreadBot) : GateIOSpreadBot :=
  {| spread_detector := spread_detector b;
     symbol_whitelist := symbol_whitelist b;
     trading_enabled := trading_enabled b;
     trading_manager := trading_manager b;
     take_profit_cfg := take_profit_cfg b;
     stats := f (stats b) |}.

Definition inc_processed (s : Stats) : Stats :=
  {| tickers_processed := tickers_processed s + 1;
     spreads_found := spreads_found s;
     positions_opened := positions_opened s;
     positions_closed := positions_closed s; errors := errors s |}.

Definition inc_found (s : Stats) : Stats :=
  {| tickers_processed := tickers_processed s;
     spreads_found := spreads_found s + 1;
     positions_opened := positions_opened s;
     positions_closed := positions_closed s; errors := errors s |}.

Definition inc_opened (s : Stats) : Stats :=
  {| tickers_processed := tickers_processed s;
     spreads_found := spreads_found s;
     positions_opened := positions_opened s + 1;
     positions_closed := positions_closed s; errors := errors s |}.

Definition inc_closed (s : Stats) : Stats :=
  {| tickers_processed := tickers_processed s;
     spreads_found := spreads_found s;
     positions_opened := positions_opened s;
     positions_closed := positions_closed s + 1; errors := errors s |}.

Definition inc_errors (s : Stats) : Stats :=
  {| tickers_processed := tickers_processed s;
     spreads_found := spreads_found s;
     positions_opened := positions_opened s;
     positions_closed := positions_closed s; errors := errors s + 1 |}.

Definition with_detector (b : GateIOSpreadBot) (d : SpreadDetector)
  : GateIOSpreadBot :=
  {| spread_detector := d;
     symbol_whitelist := symbol_whitelist b;
     trading_enabled := trading_enabled b;
     trading_manager := trading_manager b;
     take_profit_cfg := take_profit_cfg b;
     stats := stats b |}.

Definition with_manager (b : GateIOSpreadBot) (m : GateIOTradingManager)
  : GateIOSpreadBot :=
  {| spread_detector := spread_detector b;
     symbol_whitelist := symbol_whitelist b;
     trading_enabled := trading_enabled b;
     trading_manager := Some m;
     take_profit_cfg := take_profit_cfg b;
     stats := stats b |}.

Definition quiet : TickReport :=
  {| opened := false; exit_spread_used := None; trade := None;
     raised := false |}.

(** The first half of [on_ticker_update]: detection and, when trading is
    on, the attempt to open. *)
Definition tick_entry (b : GateIOSpreadBot) (t : Ticker) (env : TickEnv)
  : GateIOSpreadBot * bool :=
  let '(d, opportunity) :=
    detect_spread (spread_detector b) (tick_time env) (tick_stamp env)
      (tk_symbol t) (tk_mark_price t) (tk_last t) in
  let b := with_detector b d in
  match opportunity with
  | None => (b, false)
  | Some opp =>
      let b := bump inc_found b in
      match trading_manager b with
      | Some m =>
          if trading_enabled b then
            let '(m', success) := open_position m opp (tick_open env) in
            let b := with_manager b m' in
            if success then (bump inc_opened b, true) else (b, false)
          else (b, false)
      | None => (b, false)
      end
  end.

(** The second half of [on_ticker_update]: the exit check of the ticker's
    symbol, run on every tick whether or not an opportunity was found. *)
Definition tick_exit_check (b : GateIOSpreadBot) (t : Ticker) (env : TickEnv)
    (was_opened : bool) : GateIOSpreadBot * TickReport :=
  let sym := tk_symbol t in
  let finish (b : GateIOSpreadBot) (r : TickReport) :=
    (bump inc_processed b, r) in
  let idle :=
    {| opened := was_opened; exit_spread_used := None; trade := None;
       raised := false |} in
  match trading_manager b with
  | Some m =>
      if trading_enabled b && has_position m sym then
        match open_positions m !! sym with
        | Some position =>
            let current_spread :=
              exit_spread (pos_side position) (tk_mark_price t) (tk_last t) in
            let take_profit_roi :=
              match take_profit_cfg b with Some r => r | None => 50%Q end in
            let '(m', res) :=
              check_exit_conditions m sym current_spread (tk_last t)
                take_profit_roi (tick_exit env) in
            let b := with_manager b m' in
            match res with
            | Raised =>
                (bump inc_errors b,
                 {| opened := was_opened;
                    exit_spread_used := Some current_spread;
                    trade := None; raised := true |})
            | Returned (Some trade_data) =>
                finish (bump inc_closed b)
                  {| opened := was_opened;
                     exit_spread_used := Some current_spread;
                     trade := Some trade_data; raised := false |}
            | Returned None =>
                finish b
                  {| opened := was_opened;
                     exit_spread_used := Some current_spread;
                     trade := None; raised := false |}
            end
        | None => finish b idle
        end
      else finish b idle
  | None => finish b idle
  end.

(** [GateIOSpreadBot.on_ticker_update] *)
Definition on_ticker_update (b : GateIOSpreadBot) (t : Ticker) (env : TickEnv)
  : GateIOSpreadBot * TickReport :=
  if negb (whitelisted (symbol_whitelist b) (tk_symbol t)) then (b, quiet)
  else if Qle_bool (tk_mark_price t) 0 || Qle_bool (tk_last t) 0
  then (b, quiet)
  else
    let '(b1, was_opened) := tick_entry b t env in
    tick_exit_check b1 t env was_opened.

(** ** MEXC ledger ([trading_manager.py]) *)

Module Mexc.

(** [Position] of [trading_manager.py] *)
Record Position := {
  p_symbol : string;
  p_side : SignalType;
  p_entry_price : Q;
  p_size : Z;
  p_leverage : Z;
  p_entry_spread : Q;
  p_entry_time : Q;
  p_order_id : option Z
}.

(** The parameters of an order submission the model keeps. *)
Record OrderParams := {
  o_symbol : string;
  o_price : Q;
  o_vol : Z;
  o_side : Z;
  o_type : Z
}.

Record TradingManager := {
  position_size_usd : Q;
  leverage : Z;
  max_positions : Z;
  exit_spread_threshold : Q;
  open_positions : gmap string Position;
  posted : list OrderParams
}.

(** The answers [open_position] consumes: the contract list of
    [contract/detail] as (symbol, contract size) pairs ([None]: the request
    raises or reports no success), the order submission ([None]: the
    request raises, [Some None]: the exchange reports no success) and the
    clock. *)
Record OpenEnv := {
  contract_detail : option (list (string * Q));
  order_result : option (option Z);
  now : Q
}.

(** [TradingManager._get_contract_size] *)
Definition _get_contract_size (sym : string)
    (detail : option (list (string * Q))) : Q :=
  match detail with
  | Some l =>
      match List.find (fun c => bool_decide (fst c = sym)) l with
      | Some c => snd c
      | None => 1 # 10000
      end
  | None => 1 # 10000
  end.

(** [TradingManager.can_open_position] *)
Definition can_open_position (m : TradingManager) : bool :=
  Z.of_nat (size (open_positions m)) <? max_positions m.

(** The contract count [open_position] computes; [None] is the
    [ZeroDivisionError] its handler turns into a refusal. *)
Definition num_contracts (m : TradingManager) (entry_price contract_size : Q)
  : option Z :=
  let position_value := (position_size_usd m * inject_Z (leverage m))%Q in
  if Qeq_bool (entry_price * contract_size) 0 then None
  else Some (py_int (position_value / (entry_price * contract_size))).

(** [TradingManager.open_position] *)
Definition open_position (m : TradingManager)
    (opportunity : SpreadOpportunity) (env : OpenEnv)
  : TradingManager * bool :=
  let sym := symbol opportunity in
  if negb (can_open_position m) then (m, false)
  else
    match open_positions m !! sym with
    | Some _ => (m, false)
    | None =>
        let contract_size := _get_contract_size sym (contract_detail env) in
        let entry_price := last_price opportunity in
        match num_contracts m entry_price contract_size with
        | None => (m, false)
        | Some n =>
            if n <? 1 then (m, false)
            else
              let order_side :=
                match signal_type opportunity with
                | LONG => 1
                | SHORT => 2
                end in
              let params :=
                {| o_symbol := sym; o_price := entry_price; o_vol := n;
                   o_side := order_side; o_type := 1 |} in
              let m1 :=
                {| position_size_usd := position_size_usd m;
                   leverage := leverage m;
                   max_positions := max_positions m;
                   exit_spread_threshold := exit_spread_threshold m;
                   open_positions := open_positions m;
                   posted := posted m ++ [params] |} in
              match order_result env with
              | Some (Some order_id) =>
                  ({| position_size_usd := position_size_usd m1;
                      leverage := leverage m1;
                      max_positions := max_positions m1;
                      exit_spread_threshold := exit_spread_threshold m1;
                      open_positions :=
                        <[sym :=
                            {| p_symbol := sym;
                               p_side := signal_type opportunity;
                               p_entry_price := entry_price;
                               p_size := n;
                               p_leverage := leverage m1;
                               p_entry_spread := spread_percent opportunity;
                               p_entry_time := now env;
                               p_order_id := Some order_id |}]>
                          (open_positions m1);
                      posted := posted m1 |}, true)
              | _ => (m1, false)
              end
        end
    end.

End Mexc.

(** ** Statistics of the trade recorder ([trade_analytics.py]) *)

(** Python [max(l, key=key)] on a non-empty list given as head and tail:
    the first element whose key no other exceeds. *)
Fixpoint max_by {A : Type} (key : A -> Q) (best : A) (l : list A) : A :=
  match l with
  | [] => best
  | x :: rest => max_by key (if Qlt_bool (key best) (key x) then x else best) rest
  end.

(** Python [min(l, key=key)], likewise. *)
Fixpoint min_by {A : Type} (key : A -> Q) (best : A) (l : list A) : A :=
  match l with
  | [] => best
  | x :: rest => min_by key (if Qlt_bool (key x) (key best) then x else best) rest
  end.

(** Python [sum(...)] over floats. *)
Definition py_sum (l : list Q) : Q := fold_left Qplus l 0%Q.

(** The dictionary [get_statistics] returns. *)
Record Statistics := {
  total_trades : nat;
  winning_trades : nat;
  losing_trades : nat;
  win_rate : Q;
  total_pnl : Q;
  avg_pnl : Q;
  best_trade : option PnlData;
  worst_trade : option PnlData;
  avg_hold_time : Q
}.

Definition count_of (n : nat) : Q := inject_Z (Z.of_nat n).

(** [TradeAnalytics.get_statistics] *)
Definition get_statistics (a : TradeAnalytics) : Statistics :=
  match trades a with
  | [] =>
      {| total_trades := 0; winning_trades := 0; losing_trades := 0;
         win_rate := 0; total_pnl := 0; avg_pnl := 0;
         best_trade := None; worst_trade := None; avg_hold_time := 0 |}
  | first :: rest =>
      let all := first :: rest in
      let winning := List.filter (fun t => Qlt_bool 0 (pnl_usd t)) all in
      let losing := List.filter (fun t => Qle_bool (pnl_usd t) 0) all in
      let total := py_sum (map pnl_usd all) in
      {| total_trades := length all;
         winning_trades := length winning;
         losing_trades := length losing;
         win_rate := (count_of (length winning) / count_of (length all) * 100)%Q;
         total_pnl := total;
         avg_pnl := (total / count_of (length all))%Q;
         best_trade := Some (max_by pnl_usd first rest);
         worst_trade := Some (min_by pnl_usd first rest);
         avg_hold_time :=
           (py_sum (map hold_time_minutes all) / count_of (length all))%Q |}
  end.

(** The entry [get_symbol_performance] keeps per symbol while it runs over
    the log. *)
Record SymbolTally := {
  s_trades : nat;
  s_wins : nat;
  s_total_pnl : Q
}.

(** One value of the dictionary [get_symbol_performance] returns. *)
Record SymbolStats := {
  sp_trades : nat;
  sp_wins : nat;
  sp_total_pnl : Q;
  sp_win_rate : Q
}.

(** The first loop of [get_symbol_performance], one trade: the entry of
    the symbol is created at its first trade, then updated. *)
Definition count_trade (acc : gmap string SymbolTally) (t : PnlData)
  : gmap string SymbolTally :=
  let old :=
    match acc !! t_symbol t with
    | Some s => s
    | None => {| s_trades := 0; s_wins := 0; s_total_pnl := 0 |}
    end in
  <[t_symbol t :=
      {| s_trades := s_trades old + 1;
         s_wins := if Qlt_bool 0 (pnl_usd t) then s_wins old + 1 else s_wins old;
         s_total_pnl := (s_total_pnl old + pnl_usd t)%Q |}]> acc.

(** The second loop of [get_symbol_performance], one entry. *)
Definition with_win_rate (s : SymbolTally) : SymbolStats :=
  {| sp_trades := s_trades s; sp_wins := s_wins s;
     sp_total_pnl := s_total_pnl s;
     sp_win_rate :=
       if (0 <? s_trades s)%nat
       then (count_of (s_wins s) / count_of (s_trades s) * 100)%Q
       else 0%Q |}.

(** [TradeAnalytics.get_symbol_performance] *)
Definition get_symbol_performance (a : TradeAnalytics)
  : gmap string SymbolStats :=
  with_win_rate <$> fold_left count_trade (trades a) ∅.

(** ** MEXC ledger, closing side ([trading_manager.py]) *)

Module MexcExit.

(** The answer of the closing order submission: [None] when the request
    raises, otherwise the ['success'] flag of the reply. *)
Record CloseEnv := {
  close_result : option bool
}.

(** The parameters of a closing order. *)
Record CloseParams := {
  c_symbol : string;
  c_vol : Z;
  c_side : Z;
  c_type : Z
}.

(** What a closing call did: the manager afterwards, the request it
    posted, if any, and its return value. *)
Record Closed := {
  manager : Mexc.TradingManager;
  request : option CloseParams;
  result : bool
}.

(** [TradingManager.has_position] *)
Definition has_position (m : Mexc.TradingManager) (sym : string) : bool :=
  bool_decide (is_Some (Mexc.open_positions m !! sym)).

(** [TradingManager.get_position_count] *)
Definition get_position_count (m : Mexc.TradingManager) : nat :=
  size (Mexc.open_positions m).

Definition without (m : Mexc.TradingManager) (sym : string)
  : Mexc.TradingManager :=
  {| Mexc.position_size_usd := Mexc.position_size_usd m;
     Mexc.leverage := Mexc.leverage m;
     Mexc.max_positions := Mexc.max_positions m;
     Mexc.exit_spread_threshold := Mexc.exit_spread_threshold m;
     Mexc.open_positions := delete sym (Mexc.open_positions m);
     Mexc.posted := Mexc.posted m |}.

(** [TradingManager.close_position]: a market order ([type] 5) for the
    tracked size, side 4 to close a long and 3 to close a short; the entry
    is removed when the exchange reports success. *)
Definition close_position (m : Mexc.TradingManager) (sym : string)
    (env : CloseEnv) : Closed :=
  match Mexc.open_positions m !! sym with
  | None => {| manager := m; request := None; result := false |}
  | Some position =>
      let close_side :=
        match Mexc.p_side position with LONG => 4 | SHORT => 3 end in
      let params :=
        {| c_symbol := sym; c_vol := Mexc.p_size position;
           c_side := close_side; c_type := 5 |} in
      match close_result env with
      | Some true =>
          {| manager := without m sym; request := Some params;
             result := true |}
      | _ => {| manager := m; request := Some params; result := false |}
      end
  end.

(** [TradingManager.check_exit_conditions] *)
Definition check_exit_conditions (m : Mexc.TradingManager) (sym : string)
    (current_spread : Q) (env : CloseEnv) : Closed :=
  match Mexc.open_positions m !! sym with
  | None => {| manager := m; request := None; result := false |}
  | Some _ =>
      if Qle_bool current_spread (Mexc.exit_spread_threshold m)
      then close_position m sym env
      else {| manager := m; request := None; result := false |}
  end.

End MexcExit.

(** ** Backtester ([backtest.py]) *)

Module Backtest.

(** The direction strings of [calculate_spread]. *)
Inductive Direction := D_LONG | D_SHORT | D_NONE.

(** One entry of [self.trades]. *)
Record Trade := {
  bt_symbol : string;
  bt_side : Direction;
  bt_entry_time : Q;
  bt_exit_time : Q;
  bt_hold_time_min : Q;
  bt_entry_price : Q;
  bt_exit_price : Q;
  bt_entry_spread : Q;
  bt_exit_spread : Q;
  bt_size : Z;
  gross_pnl : Q;
  fees : Q;
  net_pnl : Q;
  roi_pct : Q;
  bt_margin_used : Q
}.

(** The backtester; [equity_curve] is never read or written and is left
    out. *)
Record SpreadBacktester := {
  min_spread : Q;
  exit_spread : Q;
  position_size_usd : Q;
  leverage : Z;
  maker_fee : Q;
  taker_fee : Q;
  trades : list Trade
}.

(** [SpreadBacktester.__init__] with its default fees. *)
Definition new_SpreadBacktester (min_spread_pct exit_spread_pct usd : Q)
    (lev : Z) : SpreadBacktester :=
  {| min_spread := min_spread_pct; exit_spread := exit_spread_pct;
     position_size_usd := usd; leverage := lev;
     maker_fee := 2 # 10000; taker_fee := 5 # 10000; trades := [] |}.

(** [SpreadBacktester.calculate_spread] on Python floats; a zero divisor
    raises. *)
Definition calculate_spread (mark last : Q) : outcome (Q * Direction) :=
  if Qlt_bool last mark then
    if Qeq_bool last 0 then Raised
    else Returned (((mark - last) / last * 100)%Q, D_LONG)
  else if Qlt_bool mark last then
    if Qeq_bool mark 0 then Raised
    else Returned (((last - mark) / mark * 100)%Q, D_SHORT)
  else Returned (0%Q, D_NONE).

(** The dictionary [calculate_pnl] returns. *)
Record Pnl := {
  p_gross_pnl : Q;
  p_fees : Q;
  p_net_pnl : Q;
  p_roi_pct : Q;
  p_margin_used : Q
}.

(** [SpreadBacktester.calculate_pnl] on Python numbers; it raises when
    [leverage] is 0.  (On the numpy floats [backtest_symbol] passes, that
    division yields an infinity instead, which [Q] does not hold: the
    properties of the loop are stated for a non-zero leverage.) *)
Definition calculate_pnl (b : SpreadBacktester) (entry_price exit_price : Q)
    (side : Direction) (size_contracts : Z) (quanto : Q) : outcome Pnl :=
  let sz := inject_Z size_contracts in
  let diff :=
    match side with
    | D_LONG => (exit_price - entry_price)%Q
    | _ => (entry_price - exit_price)%Q
    end in
  let gross := (sz * diff * quanto)%Q in
  let position_value := (sz * entry_price * quanto)%Q in
  let entry_fee := (position_value * taker_fee b)%Q in
  let exit_fee := (Qabs (sz * exit_price * quanto) * taker_fee b)%Q in
  let total_fees := (entry_fee + exit_fee)%Q in
  let net := (gross - total_fees)%Q in
  if leverage b =? 0 then Raised
  else
    let margin := (position_value / inject_Z (leverage b))%Q in
    Returned {| p_gross_pnl := gross; p_fees := total_fees; p_net_pnl := net;
                p_roi_pct :=
                  if Qlt_bool 0 margin then (net / margin * 100)%Q else 0%Q;
                p_margin_used := margin |}.

(** One row of the candle frame as [backtest_symbol] uses it, with the
    draw of [np.random.uniform(-0.005, 0.005)] made for it. *)
Record Row := {
  r_timestamp : Q;
  r_mark : Q;
  r_variation : Q
}.

(** The position [backtest_symbol] holds between rows. *)
Record Held := {
  h_side : Direction;
  h_entry_price : Q;
  h_entry_time : Q;
  h_entry_spread : Q;
  h_size : Z
}.

(** The spread in the direction of the held position, 0 once reversed. *)
Definition held_spread (side : Direction) (mark last : Q) : Q :=
  match side with
  | D_LONG =>
      if Qlt_bool last mark then ((mark - last) / last * 100)%Q else 0%Q
  | _ =>
      if Qlt_bool mark last then ((last - mark) / mark * 100)%Q else 0%Q
  end.

(** The body of the loop of [backtest_symbol] on one row: [None] when an
    exception leaves it, otherwise the position held afterwards and the
    trade closed on this row, if any. *)
Definition step (b : SpreadBacktester) (sym : string) (quanto : Q)
    (position : option Held) (row : Row)
  : option (option Held * option Trade) :=
  let mark := r_mark row in
  let last := (mark * (1 + r_variation row))%Q in
  match calculate_spread mark last with
  | Raised => None
  | Returned (spread, direction) =>
      match position with
      | None =>
          if Qle_bool (min_spread b) spread then
            if Qeq_bool (last * quanto) 0 then None
            else
              let size_contracts :=
                py_int (position_size_usd b * inject_Z (leverage b)
                        / (last * quanto)) in
              if 0 <? size_contracts then
                Some (Some {| h_side := direction; h_entry_price := last;
                              h_entry_time := r_timestamp row;
                              h_entry_spread := spread;
                              h_size := size_contracts |}, None)
              else Some (None, None)
          else Some (None, None)
      | Some held =>
          let current_spread := held_spread (h_side held) mark last in
          if Qle_bool current_spread (exit_spread b) then
            match calculate_pnl b (h_entry_price held) last (h_side held)
                    (h_size held) quanto with
            | Raised => None
            | Returned p =>
                Some (None,
                      Some {| bt_symbol := sym; bt_side := h_side held;
                              bt_entry_time := h_entry_time held;
                              bt_exit_time := r_timestamp row;
                              bt_hold_time_min :=
                                ((r_timestamp row - h_entry_time held) / 60)%Q;
                              bt_entry_price := h_entry_price held;
                              bt_exit_price := last;
                              bt_entry_spread := h_entry_spread held;
                              bt_exit_spread := current_spread;
                              bt_size := h_size held;
                              gross_pnl := p_gross_pnl p;
                              fees := p_fees p;
                              net_pnl := p_net_pnl p;
                              roi_pct := p_roi_pct p;
                              bt_margin_used := p_margin_used p |})
            end
          else Some (Some held, None)
      end
  end.

(** The loop of [backtest_symbol]: the trades closed, in order, or [None]
    with the trades closed before the exception. *)
Fixpoint replay (b : SpreadBacktester) (sym : string) (quanto : Q)
    (position : option Held) (rows : list Row) : list Trade * bool :=
  match rows with
  | [] => ([], true)
  | row :: rest =>
      match step b sym quanto position row with
      | None => ([], false)
      | Some (position', closed) =>
          let '(later, ok) := replay b sym quanto position' rest in
          (match closed with Some t => t :: later | None => later end, ok)
      end
  end.

(** The dictionary [backtest_symbol] returns. *)
Record Summary := {
  sm_symbol : string;
  sm_trades : nat;
  sm_winning : nat;
  sm_total_pnl : Q
}.

(** [SpreadBacktester.backtest_symbol]: every closed trade is appended to
    [self.trades] as it closes; the summary is returned unless an exception
    left the loop. *)
Definition backtest_symbol (b : SpreadBacktester) (rows : list Row)
    (sym : string) (quanto : Q) : SpreadBacktester * outcome Summary :=
  let '(symbol_trades, ok) := replay b sym quanto None rows in
  let b' :=
    {| min_spread := min_spread b; exit_spread := exit_spread b;
       position_size_usd := position_size_usd b; leverage := leverage b;
       maker_fee := maker_fee b; taker_fee := taker_fee b;
       trades := trades b ++ symbol_trades |} in
  if ok then
    (b',
     Returned
       {| sm_symbol := sym;
          sm_trades := length symbol_trades;
          sm_winning :=
            length (List.filter (fun t => Qlt_bool 0 (net_pnl t))
                      symbol_trades);
          sm_total_pnl := py_sum (map net_pnl symbol_trades) |})
  else (b', Raised).

End Backtest.

(** * Vocabulary of the properties and example data *)

(** The evaluation the specification describes: direction and magnitude of
    the divergence between a reference and a trade price. *)
Definition direction_of (reference trade : Q) : SignalType :=
  if Qlt_bool trade reference then LONG else SHORT.

Definition magnitude_of (reference trade : Q) : Q :=
  if Qlt_bool trade reference
  then ((reference - trade) / trade * 100)%Q
  else ((trade - reference) / reference * 100)%Q.

Definition opposite (s : SignalType) : SignalType :=
  match s with LONG => SHORT | SHORT => LONG end.

(** The threshold test of [detect_spread] on two distinct prices. *)
Definition threshold_met (threshold mark last : Q) : Prop :=
  ((last < mark)%Q /\ (threshold <= (mark - last) / last * 100)%Q) \/
  ((mark < last)%Q /\ (threshold <= (last - mark) / mark * 100)%Q).

(** One call of [detect_spread] with the clock readings it takes. *)
Record Call := {
  c_time : Q;
  c_stamp : Q;
  c_symbol : string;
  c_mark : Q;
  c_last : Q
}.

Definition call (d : SpreadDetector) (c : Call)
  : SpreadDetector * option SpreadOpportunity :=
  detect_spread d (c_time c) (c_stamp c) (c_symbol c) (c_mark c) (c_last c).

(** Running a detector over a sequence of calls: the final detector and,
    in order, each call with what it returned. *)
Fixpoint run (d : SpreadDetector) (calls : list Call)
  : SpreadDetector * list (Call * option SpreadOpportunity) :=
  match calls with
  | [] => (d, [])
  | c :: rest =>
      let '(d1, o) := call d c in
      let '(d2, h) := run d1 rest in
      (d2, (c, o) :: h)
  end.

(** The clock reading of the latest emission for [sym] in a history,
    [start] when the history holds none. *)
Fixpoint last_emission (sym : string)
    (h : list (Call * option SpreadOpportunity)) (start : option Q)
  : option Q :=
  match h with
  | [] => start
  | (c, o) :: rest =>
      last_emission sym rest
        (match o with
         | Some _ =>
             if bool_decide (c_symbol c = sym) then Some (c_time c)
             else start
         | None => start
         end)
  end.

(** The clock readings of all emissions for [sym] in a history, in
    order. *)
Fixpoint emission_times (sym : string)
    (h : list (Call * option SpreadOpportunity)) : list Q :=
  match h with
  | [] => []
  | (c, o) :: rest =>
      match o with
      | Some _ =>
          if bool_decide (c_symbol c = sym)
          then c_time c :: emission_times sym rest
          else emission_times sym rest
      | None => emission_times sym rest
      end
  end.

(** The clock readings of the calls of a history, in order. *)
Definition clock_readings (h : list (Call * option SpreadOpportunity))
  : list Q :=
  map (fun e => c_time (fst e)) h.

(** The formulas of the specification. *)
Definition price_diff (s : Side) (entry exit_ : Q) : Q :=
  match s with
  | long => (exit_ - entry)%Q
  | short => (entry - exit_)%Q
  end.

Definition formula_pnl (size_contracts : Z) (diff quanto : Q) : Q :=
  (inject_Z size_contracts * diff * quanto)%Q.

Definition formula_roi (pnl : Q) (size_contracts : Z) (entry quanto : Q)
    (lev : Z) : Q :=
  (pnl / (inject_Z size_contracts * entry * quanto / inject_Z lev) * 100)%Q.

(** The trade of the specification's round trip: long, entry 100, exit 110,
    1000 contracts, multiplier 0.0001, leverage 20, no exchange-reported
    P&L. *)
Definition round_trip_trade : TradeData :=
  {| td_symbol := "BTC_USDT"; td_side := long;
     td_entry_price := 100; td_exit_price := 110;
     td_size := 1000; td_leverage := 20;
     td_entry_spread := 7; td_exit_spread := 0;
     td_entry_time := 0; td_exit_time := 60;
     td_quanto_multiplier := 1 # 10000;
     td_order_id := 1; td_real_pnl_usd := None |}.

(** The quantity both ledgers start from. *)
Definition target_quantity (margin_usd : Q) (lev : Z) (price quanto : Q) : Q :=
  (margin_usd * inject_Z lev / (price * quanto))%Q.

(** The minimum order size [calculate_position_size] respects: the
    exchange's value, 1 when the contract reports none. *)
Definition min_order_size (c : Contract) : Z :=
  match order_size_min c with
  | Some z => if z =? 0 then 1 else z
  | None => 1
  end.

(** The configuration of the examples: 2 USD of margin at 20x, at most 3
    positions, exit below a spread of 2. *)
Definition example_manager : GateIOTradingManager :=
  new_GateIOTradingManager 2 20 3 2.

Definition example_mexc : Mexc.TradingManager :=
  {| Mexc.position_size_usd := 2; Mexc.leverage := 20;
     Mexc.max_positions := 3; Mexc.exit_spread_threshold := 2;
     Mexc.open_positions := ∅; Mexc.posted := [] |}.

(** A contract of multiplier 1 and minimum order size 1. *)
Definition unit_contract : Contract :=
  {| quanto_multiplier := Some 1%Q; order_size_min := Some 1 |}.

(** Sequences of ledger operations, each with the answers it consumes. *)
Inductive LedgerOp :=
| OpOpen (opportunity : SpreadOpportunity) (env : OpenEnv)
| OpClose (sym : string) (exit_price exit_spread_ : Q) (env : CloseEnv)
| OpPartialClose (sym : string) (exit_price exit_spread_ : Q) (percent : Z)
    (env : CloseEnv)
| OpCheckExit (sym : string) (current_spread exit_price take_profit_roi : Q)
    (env : ExitEnv)
| OpSync (env : SyncEnv).

Definition apply_op (m : GateIOTradingManager) (op : LedgerOp)
  : GateIOTradingManager :=
  match op with
  | OpOpen opportunity env => fst (open_position m opportunity env)
  | OpClose sym exit_price spread env =>
      fst (close_position m sym exit_price spread env)
  | OpPartialClose sym exit_price spread percent env =>
      fst (close_partial_position m sym exit_price spread percent env)
  | OpCheckExit sym current_spread exit_price take_profit_roi env =>
      fst (check_exit_conditions m sym current_spread exit_price
             take_profit_roi env)
  | OpSync env => sync_positions_from_gateio m env
  end.

Definition run_ops (m : GateIOTradingManager) (ops : list LedgerOp)
  : GateIOTradingManager :=
  fold_left apply_op ops m.

Definition is_sync (op : LedgerOp) : bool :=
  match op with OpSync _ => true | _ => false end.

(** The number of tracked positions, [len(self.open_positions)]. *)
Definition position_count (m : GateIOTradingManager) : Z :=
  Z.of_nat (size (open_positions m)).

(** The forced snapshot a decision reads. *)
Definition forced_snapshot (m : GateIOTradingManager) (env : SnapshotEnv)
  : gmap string RealPosition :=
  snd (get_real_positions_cached m true env).

(** [m'] differs from [m] at most in the snapshot cache. *)
Definition same_but_cache (m m' : GateIOTradingManager) : Prop :=
  position_size_usd m' = position_size_usd m /\
  leverage m' = leverage m /\
  max_positions m' = max_positions m /\
  exit_spread_threshold m' = exit_spread_threshold m /\
  open_positions m' = open_positions m /\
  analytics m' = analytics m /\
  submitted m' = submitted m /\
  triggers m' = triggers m.

(** What every closing-side method on [sym] may do to the manager: the
    configuration stays, entries of other symbols stay, no entry appears,
    and the orders sent all name [sym]. *)
Definition exit_step (sym : string) (m m' : GateIOTradingManager) : Prop :=
  position_size_usd m' = position_size_usd m /\
  leverage m' = leverage m /\
  max_positions m' = max_positions m /\
  exit_spread_threshold m' = exit_spread_threshold m /\
  (forall k : string,
      k <> sym -> open_positions m' !! k = open_positions m !! k) /\
  (is_Some (open_positions m' !! sym) -> is_Some (open_positions m !! sym)) /\
  (exists new : list FuturesOrder,
      submitted m' = submitted m ++ new /\
      Forall (fun o => fo_contract o = sym) new).

(** A position tracked under BTC_USDT, opened by the bot itself. *)
Definition btc_position : Position :=
  {| pos_side := long; pos_size := 1000; pos_entry_price := 100;
     pos_entry_time := 0; pos_entry_spread := 7;
     pos_order_id := order_no 1;
     pos_quanto_multiplier := 1 # 10000;
     partial_closed := false; stop_loss_order_id := None |}.

(** The example manager tracking [btc_position]. *)
Definition tracking_btc : GateIOTradingManager :=
  with_open_positions example_manager {[ "BTC_USDT" := btc_position ]}.

(** The exchange reporting no open position at clock reading [t]. *)
Definition nothing_open (t : Q) : SnapshotEnv :=
  {| snap_time := t; snap_positions := Some [] |}.

(** An opportunity on BTC_USDT: reference 107, trade 100. *)
Definition btc_long : SpreadOpportunity :=
  {| symbol := "BTC_USDT"; mark_price := 107; last_price := 100;
     spread_percent := 7; signal_type := LONG; timestamp := 100 |}.

(** The BTC_USDT contract: multiplier 0.0001, minimum order size 1. *)
Definition btc_contract : Contract :=
  {| quanto_multiplier := Some (1 # 10000); order_size_min := Some 1 |}.

(** The answers of an exchange that reports no open position and accepts
    the order as number 42. *)
Definition accepting : OpenEnv :=
  {| open_snapshot := nothing_open 100;
     open_contract := Some (Some btc_contract);
     open_order := Some 42;
     open_contract_after := Some (Some btc_contract);
     open_time := 101 |}.

(** The answers of an exchange that reports BTC_USDT open with 4000
    contracts, fills the closing order as number 43 and reports a realised
    P&L of 1. *)
Definition closing : CloseEnv :=
  {| close_snapshot :=
       {| snap_time := 200;
          snap_positions :=
            Some [{| contract := "BTC_USDT"; raw_size := 4000;
                     raw_entry_price := 100; raw_mark_price := 100;
                     raw_unrealised_pnl := 0 |}] |};
     close_order := Some 43;
     close_history := Some [Some 1%Q];
     close_time := 201 |}.

(** The exchange reporting two open positions. *)
Definition two_open : SnapshotEnv :=
  {| snap_time := 100;
     snap_positions :=
       Some [{| contract := "BTC_USDT"; raw_size := 4000;
                raw_entry_price := 100; raw_mark_price := 100;
                raw_unrealised_pnl := 0 |};
             {| contract := "ETH_USDT"; raw_size := -50;
                raw_entry_price := 20; raw_mark_price := 20;
                raw_unrealised_pnl := 0 |}] |}.

(** The partial-close orders for [sym] in an order history. *)
Definition partial_orders (sym : string) (l : list FuturesOrder)
  : list FuturesOrder :=
  filter (fun o => fo_contract o = sym /\ fo_text o = "t-partial") l.

(** The order [close_partial_position] sends: reduce-only, against the
    side of the position. *)
Definition partial_order (sym : string) (s : Side) (partial_size : Z)
  : FuturesOrder :=
  {| fo_contract := sym;
     fo_size := match s with long => - partial_size | short => partial_size end;
     fo_price := "0"; fo_tif := "ioc"; fo_text := "t-partial";
     fo_reduce_only := true |}.

(** The operations a tick can cause on a tracked position: the exit check
    and the full close. *)
Definition is_tick (op : LedgerOp) : bool :=
  match op with
  | OpCheckExit _ _ _ _ _ | OpClose _ _ _ _ => true
  | _ => false
  end.

(** The flag of the entry of [sym], if there is an entry, is set. *)
Definition partial_taken (sym : string) (m : GateIOTradingManager) : Prop :=
  forall p : Position,
    open_positions m !! sym = Some p -> partial_closed p = true.

(** The exchange reporting BTC_USDT open with [n] contracts at clock
    reading [t]. *)
Definition btc_open (t : Q) (n : Z) : SnapshotEnv :=
  {| snap_time := t;
     snap_positions :=
       Some [{| contract := "BTC_USDT"; raw_size := n;
                raw_entry_price := 100; raw_mark_price := 105;
                raw_unrealised_pnl := 0 |}] |}.

(** The answers of a tick on which the exchange reports [n] contracts,
    takes whatever order it is handed, and arms no stop. *)
Definition exit_answers (t : Q) (n : Z) : ExitEnv :=
  {| exit_partial :=
       {| close_snapshot := btc_open t n; close_order := Some 44;
          close_history := Some [Some (1 # 2)]; close_time := t + 1 |};
     exit_stop := {| stop_snapshot := btc_open (t + 2) (n - n * 50 ÷ 100);
                     stop_order := None |};
     exit_close :=
       {| close_snapshot := btc_open t n; close_order := Some 45;
          close_history := Some [Some 1%Q]; close_time := t + 1 |} |}.

(** A BTC_USDT position of a single contract. *)
Definition single_contract : Position :=
  {| pos_side := long; pos_size := 1; pos_entry_price := 100;
     pos_entry_time := 0; pos_entry_spread := 7;
     pos_order_id := order_no 1;
     pos_quanto_multiplier := 1 # 10000;
     partial_closed := false; stop_loss_order_id := None |}.

Definition tracking_single : GateIOTradingManager :=
  with_open_positions example_manager {[ "BTC_USDT" := single_contract ]}.

(** A bot trading with [m], threshold 7, no whitelist, default
    take-profit. *)
Definition bot_with (m : GateIOTradingManager) : GateIOSpreadBot :=
  {| spread_detector := new_SpreadDetector 7;
     symbol_whitelist := None;
     trading_enabled := true;
     trading_manager := Some m;
     take_profit_cfg := None;
     stats := {| tickers_processed := 0; spreads_found := 0;
                 positions_opened := 0; positions_closed := 0;
                 errors := 0 |} |}.

(** The tick of the failing scenario: the long BTC_USDT position entered
    at 100 sees the reference at 105 below the trade price 107. *)
Definition reversal_tick : Ticker :=
  {| tk_symbol := "BTC_USDT"; tk_mark_price := 105; tk_last := 107 |}.

Definition reversal_answers : TickEnv :=
  {| tick_time := 300; tick_stamp := 300; tick_open := accepting;
     tick_exit := exit_answers 300 1000 |}.

(** The non-zero entries of contract [k] in an answer of
    [list_positions]. *)
Definition live_entries (k : string) (positions : list RawPosition)
  : list RawPosition :=
  filter (fun raw => contract raw = k /\ raw_size raw <> 0) positions.

(** Every size the snapshot cache holds is positive. *)
Definition cache_wf (m : GateIOTradingManager) : Prop :=
  forall (k : string) (rp : RealPosition),
    position_cache m !! k = Some rp -> 0 < real_size rp.

(** The order [open_position] builds for a signal and a contract count. *)
Definition opening_order (sym : string) (s : SignalType) (sz : Z)
  : FuturesOrder :=
  {| fo_contract := sym;
     fo_size := match s with SHORT => - Z.abs sz | LONG => Z.abs sz end;
     fo_price := "0"; fo_tif := "ioc"; fo_text := "t-spread";
     fo_reduce_only := false |}.

(** The order [close_position] builds against a position of side [s]. *)
Definition closing_order (sym : string) (s : Side) (sz : Z) : FuturesOrder :=
  {| fo_contract := sym;
     fo_size := match s with long => - sz | short => sz end;
     fo_price := "0"; fo_tif := "ioc"; fo_text := "t-close";
     fo_reduce_only := true |}.

(** The answers of an exchange that accepts the opening order as number 42
    and then fails the contract query that follows it. *)
Definition accepting_then_failing : OpenEnv :=
  {| open_snapshot := nothing_open 100;
     open_contract := Some (Some btc_contract);
     open_order := Some 42;
     open_contract_after := None;
     open_time := 101 |}.

(** An order the manager may send: never of size 0, a market order, and
    reduce-only unless it is an opening order. *)
Definition order_wf (o : FuturesOrder) : Prop :=
  fo_size o <> 0 /\ fo_price o = "0" /\ fo_tif o = "ioc" /\
  (fo_reduce_only o = false <-> fo_text o = "t-spread").

(** The running total of the recorder is the sum of its log. *)
Definition log_wf (a : TradeAnalytics) : Prop :=
  (daily_pnl a == py_sum (map pnl_usd (trades a)))%Q.

(** What any method of the manager may do to the cache, the order history
    and the trade log. *)
Definition ledger_step (m m' : GateIOTradingManager) : Prop :=
  (cache_wf m ->
   cache_wf m' /\
   exists new : list FuturesOrder,
     submitted m' = submitted m ++ new /\ Forall order_wf new) /\
  (exists ts : list PnlData,
      trades (analytics m') = trades (analytics m) ++ ts) /\
  (log_wf (analytics m) -> log_wf (analytics m')).

(** The two filters at the head of [on_ticker_update]: the whitelist and
    the positivity of both prices. *)
Definition filtered (b : GateIOSpreadBot) (t : Ticker) : bool :=
  negb (whitelisted (symbol_whitelist b) (tk_symbol t))
  || (Qle_bool (tk_mark_price t) 0 || Qle_bool (tk_last t) 0).

(** The bot after the command that stops trading: [trading_enabled] is
    cleared and nothing else changes. *)
Definition stopped (b : GateIOSpreadBot) : GateIOSpreadBot :=
  {| spread_detector := spread_detector b;
     symbol_whitelist := symbol_whitelist b;
     trading_enabled := false;
     trading_manager := trading_manager b;
     take_profit_cfg := take_profit_cfg b;
     stats := stats b |}.

(** The trades of one symbol in a log, in order. *)
Definition trades_of (sym : string) (l : list PnlData) : list PnlData :=
  List.filter (fun t => bool_decide (t_symbol t = sym)) l.

(** The tally of a list of trades: their number, the number with a positive
    P&L, and the sum of their P&L taken from the left. *)
Definition tally_of (l : list PnlData) : SymbolTally :=
  {| s_trades := length l;
     s_wins := length (List.filter (fun t => Qlt_bool 0 (pnl_usd t)) l);
     s_total_pnl := py_sum (map pnl_usd l) |}.

(** Sequences of operations on the MEXC ledger, each with the answers it
    consumes. *)
Inductive MexcOp :=
| MxOpen (opportunity : SpreadOpportunity) (env : Mexc.OpenEnv)
| MxClose (sym : string) (env : MexcExit.CloseEnv)
| MxCheckExit (sym : string) (current_spread : Q) (env : MexcExit.CloseEnv).

Definition mexc_apply (m : Mexc.TradingManager) (op : MexcOp)
  : Mexc.TradingManager :=
  match op with
  | MxOpen opportunity env => fst (Mexc.open_position m opportunity env)
  | MxClose sym env => MexcExit.manager (MexcExit.close_position m sym env)
  | MxCheckExit sym current_spread env =>
      MexcExit.manager (MexcExit.check_exit_conditions m sym current_spread env)
  end.

Definition mexc_run (m : Mexc.TradingManager) (ops : list MexcOp)
  : Mexc.TradingManager :=
  fold_left mexc_apply ops m.

(** What the MEXC ledger keeps: the cap is respected and every tracked
    position has at least one contract. *)
Definition mexc_wf (m : Mexc.TradingManager) : Prop :=
  Z.of_nat (size (Mexc.open_positions m)) <= Mexc.max_positions m /\
  forall (k : string) (p : Mexc.Position),
    Mexc.open_positions m !! k = Some p -> 1 <= Mexc.p_size p.

(** The answers of a MEXC exchange that accepts every order as number 7. *)
Definition mexc_accepting : Mexc.OpenEnv :=
  {| Mexc.contract_detail := Some [("BTC_USDT", 1 # 10000)];
     Mexc.order_result := Some (Some 7);
     Mexc.now := 100 |}.

(** An opportunity on [sym]: reference 107, trade 100. *)
Definition long_on (sym : string) : SpreadOpportunity :=
  {| symbol := sym; mark_price := 107; last_price := 100;
     spread_percent := 7; signal_type := LONG; timestamp := 100 |}.

(** The direction string of a signal and of a position side. *)
Definition signal_direction (s : SignalType) : Backtest.Direction :=
  match s with LONG => Backtest.D_LONG | SHORT => Backtest.D_SHORT end.

Definition side_direction (s : Side) : Backtest.Direction :=
  match s with long => Backtest.D_LONG | short => Backtest.D_SHORT end.

(** A row as [backtest_symbol] meets it: a positive price, and a draw of
    [np.random.uniform(-0.005, 0.005)]. *)
Definition simulated_row (row : Backtest.Row) : Prop :=
  (0 < Backtest.r_mark row)%Q /\
  (- (5 # 1000) <= Backtest.r_variation row)%Q /\
  (Backtest.r_variation row <= 5 # 1000)%Q.

(** What holds of a position the backtester holds and of a trade it
    records. *)
Definition held_ok (b : Backtest.SpreadBacktester) (h : Backtest.Held)
  : Prop :=
  0 < Backtest.h_size h /\
  (Backtest.min_spread b <= Backtest.h_entry_spread h)%Q /\
  ((0 < Backtest.min_spread b)%Q -> Backtest.h_side h <> Backtest.D_NONE).

Definition trade_ok (b : Backtest.SpreadBacktester) (sym : string)
    (t : Backtest.Trade) : Prop :=
  Backtest.bt_symbol t = sym /\
  0 < Backtest.bt_size t /\
  (Backtest.min_spread b <= Backtest.bt_entry_spread t)%Q /\
  (Backtest.bt_exit_spread t <= Backtest.exit_spread b)%Q /\
  (Backtest.net_pnl t == Backtest.gross_pnl t - Backtest.fees t)%Q /\
  ((0 < Backtest.min_spread b)%Q -> Backtest.bt_side t <> Backtest.D_NONE).

(** Three candles at 100 with draws inside the simulated range. *)
Definition flat_rows : list Backtest.Row :=
  [{| Backtest.r_timestamp := 0; Backtest.r_mark := 100;
      Backtest.r_variation := 5 # 1000 |};
   {| Backtest.r_timestamp := 60; Backtest.r_mark := 100;
      Backtest.r_variation := - (5 # 1000) |};
   {| Backtest.r_timestamp := 120; Backtest.r_mark := 100;
      Backtest.r_variation := 0 |}].

(** Two candles at 100: the trade price half a percent below, then
    level. *)
Definition dip_rows : list Backtest.Row :=
  [{| Backtest.r_timestamp := 0; Backtest.r_mark := 100;
      Backtest.r_variation := - (5 # 1000) |};
   {| Backtest.r_timestamp := 60; Backtest.r_mark := 100;
      Backtest.r_variation := 0 |}].

Definition position_ok (b : Backtest.SpreadBacktester)
    (position : option Backtest.Held) : Prop :=
  match position with Some h => held_ok b h | None => True end.

(** * Properties *)

(** ** Boolean comparisons on [Q] *)

Lemma Qlt_bool_iff (a b : Q) : Qlt_bool a b = true <-> (a < b)%Q.
Proof.
  unfold Qlt_bool. rewrite negb_true_iff.
  split.
  - intros H. apply Qnot_le_lt. intros Hle.
    apply Qle_bool_iff in Hle. congruence.
  - intros H. destruct (Qle_bool b a) eqn:E; [|reflexivity].
    apply Qle_bool_iff in E. exfalso. apply (Qlt_not_le _ _ H E).
Qed.

Lemma Qlt_bool_false_iff (a b : Q) : Qlt_bool a b = false <-> (b <= a)%Q.
Proof.
  unfold Qlt_bool. rewrite negb_false_iff. apply Qle_bool_iff.
Qed.

Lemma Qle_bool_false_iff (a b : Q) : Qle_bool a b = false <-> (b < a)%Q.
Proof.
  rewrite <- Qlt_bool_iff. unfold Qlt_bool.
  destruct (Qle_bool a b); simpl; split; congruence.
Qed.

Lemma Qeq_bool_false_iff (a b : Q) : Qeq_bool a b = false <-> ~ (a == b)%Q.
Proof.
  split.
  - intros H Heq. apply Qeq_bool_iff in Heq. congruence.
  - intros H. destruct (Qeq_bool a b) eqn:E; [|reflexivity].
    apply Qeq_bool_iff in E. contradiction.
Qed.

Ltac qprop :=
  repeat match goal with
  | H : Qle_bool _ _ = true |- _ => apply Qle_bool_iff in H
  | H : Qle_bool _ _ = false |- _ => apply Qle_bool_false_iff in H
  | H : Qlt_bool _ _ = true |- _ => apply Qlt_bool_iff in H
  | H : Qlt_bool _ _ = false |- _ => apply Qlt_bool_false_iff in H
  | H : Qeq_bool _ _ = true |- _ => apply Qeq_bool_iff in H
  | H : Qeq_bool _ _ = false |- _ => apply Qeq_bool_false_iff in H
  end.

(** Turning a comparison of [Q] into the boolean the code tests. *)
Lemma Qle_bool_true (a b : Q) : (a <= b)%Q -> Qle_bool a b = true.
Proof. apply Qle_bool_iff. Qed.

Lemma Qle_bool_false (a b : Q) : (b < a)%Q -> Qle_bool a b = false.
Proof. apply Qle_bool_false_iff. Qed.

Lemma Qlt_bool_true (a b : Q) : (a < b)%Q -> Qlt_bool a b = true.
Proof. apply Qlt_bool_iff. Qed.

Lemma Qlt_bool_false (a b : Q) : (b <= a)%Q -> Qlt_bool a b = false.
Proof. apply Qlt_bool_false_iff. Qed.

(** ** Signal evaluator *)

Section Detector.

Variable d : SpreadDetector.
Variables current_time stamp : Q.
Variable sym : string.

(** The guard on the prices: a non-positive price ends the call with no
    opportunity and the detector as it was. *)
Lemma detect_spread_rejects_nonpositive (mark last : Q) :
  (mark <= 0)%Q \/ (last <= 0)%Q ->
  detect_spread d current_time stamp sym mark last = (d, None).
Proof.
  intros H. unfold detect_spread.
  destruct H as [H | H]; apply Qle_bool_true in H; rewrite H; simpl.
  - reflexivity.
  - now rewrite orb_true_r.
Qed.

Lemma detect_spread_cooldown (mark last : Q) :
  in_cooldown d sym current_time = true ->
  detect_spread d current_time stamp sym mark last = (d, None).
Proof.
  intros H. unfold detect_spread. rewrite H.
  now destruct (Qle_bool mark 0 || Qle_bool last 0).
Qed.

(** The long branch. *)
Lemma detect_spread_long (mark last : Q) :
  (0 < mark)%Q -> (0 < last)%Q -> (last < mark)%Q ->
  in_cooldown d sym current_time = false ->
  detect_spread d current_time stamp sym mark last =
    let spread := ((mark - last) / last * 100)%Q in
    if Qle_bool (min_threshold d) spread then
      (set_last_alert d sym current_time,
       Some {| symbol := sym; mark_price := mark; last_price := last;
               spread_percent := spread; signal_type := LONG;
               timestamp := stamp |})
    else (d, None).
Proof.
  intros Hm Hl Hlt Hc. unfold detect_spread.
  rewrite (Qle_bool_false _ _ Hm), (Qle_bool_false _ _ Hl), Hc.
  simpl. now rewrite (Qlt_bool_true _ _ Hlt).
Qed.

(** The short branch. *)
Lemma detect_spread_short (mark last : Q) :
  (0 < mark)%Q -> (0 < last)%Q -> (mark < last)%Q ->
  in_cooldown d sym current_time = false ->
  detect_spread d current_time stamp sym mark last =
    let spread := ((last - mark) / mark * 100)%Q in
    if Qle_bool (min_threshold d) spread then
      (set_last_alert d sym current_time,
       Some {| symbol := sym; mark_price := mark; last_price := last;
               spread_percent := spread; signal_type := SHORT;
               timestamp := stamp |})
    else (d, None).
Proof.
  intros Hm Hl Hlt Hc. unfold detect_spread.
  rewrite (Qle_bool_false _ _ Hm), (Qle_bool_false _ _ Hl), Hc.
  simpl.
  rewrite (Qlt_bool_false last mark) by now apply Qlt_le_weak.
  now rewrite (Qlt_bool_true _ _ Hlt).
Qed.

Lemma detect_spread_equal (mark last : Q) :
  (mark == last)%Q ->
  detect_spread d current_time stamp sym mark last = (d, None).
Proof.
  intros He. unfold detect_spread.
  rewrite (Qlt_bool_false last mark) by (rewrite He; apply Qle_refl).
  rewrite (Qlt_bool_false mark last) by (rewrite He; apply Qle_refl).
  destruct (Qle_bool mark 0 || Qle_bool last 0); [reflexivity|].
  now destruct (in_cooldown d sym current_time).
Qed.

End Detector.

Lemma magnitude_of_swap (r t : Q) :
  ~ (r == t)%Q -> magnitude_of r t = magnitude_of t r.
Proof.
  intros Hne. unfold magnitude_of.
  destruct (Qlt_bool t r) eqn:E1, (Qlt_bool r t) eqn:E2;
    try reflexivity; qprop.
  - exfalso. apply (Qlt_irrefl r). now apply Qlt_trans with t.
  - exfalso. apply Hne. now apply Qle_antisym.
Qed.

Lemma direction_of_swap (r t : Q) :
  ~ (r == t)%Q -> direction_of t r = opposite (direction_of r t).
Proof.
  intros Hne. unfold direction_of.
  destruct (Qlt_bool t r) eqn:E1, (Qlt_bool r t) eqn:E2;
    try reflexivity; qprop.
  - exfalso. apply (Qlt_irrefl r). now apply Qlt_trans with t.
  - exfalso. apply Hne. now apply Qle_antisym.
Qed.

(** What one evaluation of distinct positive prices returns. *)
Lemma detect_spread_distinct (d : SpreadDetector) (now stamp : Q)
    (sym : string) (r t : Q) :
  (0 < r)%Q -> (0 < t)%Q -> ~ (r == t)%Q ->
  snd (detect_spread d now stamp sym r t) =
    if negb (in_cooldown d sym now)
       && Qle_bool (min_threshold d) (magnitude_of r t)
    then Some {| symbol := sym; mark_price := r; last_price := t;
                 spread_percent := magnitude_of r t;
                 signal_type := direction_of r t; timestamp := stamp |}
    else None.
Proof.
  intros Hr Ht Hne.
  destruct (in_cooldown d sym now) eqn:Hc.
  - now rewrite detect_spread_cooldown.
  - unfold magnitude_of, direction_of. simpl.
    destruct (Qlt_bool t r) eqn:E; qprop.
    + rewrite detect_spread_long by assumption. simpl.
      now destruct (Qle_bool _ _).
    + assert (Hlt : (r < t)%Q).
      { apply Qnot_le_lt. intros Hle. apply Hne. now apply Qle_antisym. }
      rewrite detect_spread_short by assumption. simpl.
      now destruct (Qle_bool _ _).
Qed.

(** C5: direction symmetry of the spread evaluation.  For positive distinct
    prices [r] and [t], evaluated from the same detector state,
    [detect_spread] on (r, t) and on (t, r) emit together or not at all;
    when they emit, the directions are opposite (Long exactly when the
    reference exceeds the trade price), the spreads are equal, and the value
    is (reference - trade)/trade*100 for Long and
    (trade - reference)/reference*100 for Short.  Equal prices emit
    nothing. *)
Theorem detect_spread_direction_symmetric (d : SpreadDetector)
    (now stamp : Q) (sym : string) (r t : Q) :
  (0 < r)%Q -> (0 < t)%Q -> ~ (r == t)%Q ->
  let forward := snd (detect_spread d now stamp sym r t) in
  let backward := snd (detect_spread d now stamp sym t r) in
  (if negb (in_cooldown d sym now)
      && Qle_bool (min_threshold d) (magnitude_of r t)
   then exists o1 o2,
       forward = Some o1 /\ backward = Some o2 /\
       signal_type o1 = direction_of r t /\
       signal_type o2 = opposite (signal_type o1) /\
       spread_percent o1 = magnitude_of r t /\
       spread_percent o2 = spread_percent o1
   else forward = None /\ backward = None) /\
  (forall p q : Q,
      (p == q)%Q -> snd (detect_spread d now stamp sym p q) = None).
Proof.
  intros Hr Ht Hne forward backward. split.
  - subst forward backward.
    assert (Hne' : ~ (t == r)%Q) by (intros H; apply Hne; now symmetry).
    rewrite (detect_spread_distinct d now stamp sym r t) by assumption.
    rewrite (detect_spread_distinct d now stamp sym t r) by assumption.
    rewrite <- (magnitude_of_swap r t) by assumption.
    destruct (negb (in_cooldown d sym now)
              && Qle_bool (min_threshold d) (magnitude_of r t)).
    + eexists _, _. repeat split; simpl.
      now apply direction_of_swap.
    + now split.
  - intros p q Hpq. now rewrite detect_spread_equal.
Qed.

(** C5 at reference 107 and trade 100 with threshold 7. *)
Lemma detect_spread_direction_symmetric_witness :
  let d := new_SpreadDetector 7 in
  (if negb (in_cooldown d "BTC_USDT" 0)
      && Qle_bool (min_threshold d) (magnitude_of 107 100)
   then exists o1 o2,
       snd (detect_spread d 0 0 "BTC_USDT" 107 100) = Some o1 /\
       snd (detect_spread d 0 0 "BTC_USDT" 100 107) = Some o2 /\
       signal_type o1 = direction_of 107 100 /\
       signal_type o2 = opposite (signal_type o1) /\
       spread_percent o1 = magnitude_of 107 100 /\
       spread_percent o2 = spread_percent o1
   else snd (detect_spread d 0 0 "BTC_USDT" 107 100) = None /\
        snd (detect_spread d 0 0 "BTC_USDT" 100 107) = None) /\
  (forall p q : Q,
      (p == q)%Q -> snd (detect_spread d 0 0 "BTC_USDT" p q) = None).
Proof.
  apply (detect_spread_direction_symmetric (new_SpreadDetector 7) 0 0
           "BTC_USDT" 107 100).
  - reflexivity.
  - reflexivity.
  - intros H. discriminate H.
Defined.

(** *** Histories of evaluations *)

(** A detector emits exactly when the prices are positive, the symbol is
    out of its cooldown and the spread reaches the threshold. *)
Lemma detect_spread_emits_iff (d : SpreadDetector) (now stamp : Q)
    (sym : string) (mark last : Q) :
  is_Some (snd (detect_spread d now stamp sym mark last)) <->
  (0 < mark)%Q /\ (0 < last)%Q /\ in_cooldown d sym now = false /\
  threshold_met (min_threshold d) mark last.
Proof.
  unfold detect_spread, threshold_met.
  destruct (Qle_bool mark 0) eqn:E1; simpl.
  { qprop. split; [intros [? H]; discriminate H|].
    intros (H & _). exfalso. apply (Qlt_not_le _ _ H E1). }
  destruct (Qle_bool last 0) eqn:E2; simpl.
  { qprop. split; [intros [? H]; discriminate H|].
    intros (_ & H & _). exfalso. apply (Qlt_not_le _ _ H E2). }
  destruct (in_cooldown d sym now) eqn:E3; simpl.
  { split; [intros [? H]; discriminate H|]. intros (_ & _ & H & _).
    discriminate H. }
  destruct (Qlt_bool last mark) eqn:E4.
  { destruct (Qle_bool (min_threshold d) _) eqn:E5; simpl; qprop.
    - split; [|intros; eexists; reflexivity]. intros _.
      repeat split; try assumption. left. now split.
    - split; [intros [? H]; discriminate H|].
      intros (_ & _ & _ & [[_ H] | [H _]]); exfalso.
      + apply (Qlt_not_le _ _ E5 H).
      + apply (Qlt_irrefl mark). now apply Qlt_trans with last. }
  destruct (Qlt_bool mark last) eqn:E6.
  { destruct (Qle_bool (min_threshold d) _) eqn:E5; simpl; qprop.
    - split; [|intros; eexists; reflexivity]. intros _.
      repeat split; try assumption. right. now split.
    - split; [intros [? H]; discriminate H|].
      intros (_ & _ & _ & [[H _] | [_ H]]); exfalso.
      + apply (Qlt_not_le _ _ H E4).
      + apply (Qlt_not_le _ _ E5 H). }
  simpl. qprop. split; [intros [? H]; discriminate H|].
  intros (_ & _ & _ & [[H _] | [H _]]); exfalso.
  - apply (Qlt_not_le _ _ H E4).
  - apply (Qlt_not_le _ _ H E6).
Qed.

(** A call leaves threshold and cooldown length alone. *)
Lemma detect_spread_config (d : SpreadDetector) (now stamp : Q)
    (sym : string) (mark last : Q) :
  let d' := fst (detect_spread d now stamp sym mark last) in
  min_threshold d' = min_threshold d /\
  alert_cooldown d' = alert_cooldown d.
Proof.
  unfold detect_spread.
  repeat match goal with
         | |- context [if ?b then _ else _] => destruct b
         end; simpl; auto.
Qed.

(** A call writes [last_alert] exactly when it emits, and then only the
    entry of its own symbol, with the clock reading of the call. *)
Lemma detect_spread_last_alert (d : SpreadDetector) (now stamp : Q)
    (sym : string) (mark last : Q) (other : string) :
  last_alert (fst (detect_spread d now stamp sym mark last)) !! other =
    match snd (detect_spread d now stamp sym mark last) with
    | Some _ =>
        if bool_decide (sym = other) then Some now
        else last_alert d !! other
    | None => last_alert d !! other
    end.
Proof.
  assert (Hset : forall t : Q,
             last_alert (set_last_alert d sym t) !! other =
             if bool_decide (sym = other) then Some t
             else last_alert d !! other).
  { intros t. simpl. case_bool_decide; subst.
    - apply lookup_insert_eq.
    - now apply lookup_insert_ne. }
  unfold detect_spread.
  destruct (Qle_bool mark 0 || Qle_bool last 0); simpl; [reflexivity|].
  destruct (in_cooldown d sym now); simpl; [reflexivity|].
  destruct (Qlt_bool last mark).
  { destruct (Qle_bool _ _); [apply Hset | reflexivity]. }
  destruct (Qlt_bool mark last); [|reflexivity].
  destruct (Qle_bool _ _); [apply Hset | reflexivity].
Qed.

Lemma run_config (calls : list Call) :
  forall d : SpreadDetector,
    min_threshold (fst (run d calls)) = min_threshold d /\
    alert_cooldown (fst (run d calls)) = alert_cooldown d.
Proof.
  induction calls as [|c rest IH]; intros d; simpl; [auto|].
  unfold call.
  pose proof (detect_spread_config d (c_time c) (c_stamp c) (c_symbol c)
                (c_mark c) (c_last c)) as [H1 H2].
  destruct (detect_spread _ _ _ _ _ _) as [d1 o]. simpl in *.
  specialize (IH d1). destruct (run d1 rest) as [d2 h]. simpl in *.
  destruct IH as [IH1 IH2]. split; congruence.
Qed.

(** [last_alert] holds, per symbol, the clock reading of the latest
    emission of the history. *)
Lemma run_last_alert (sym : string) (calls : list Call) :
  forall d : SpreadDetector,
    last_alert (fst (run d calls)) !! sym =
    last_emission sym (snd (run d calls)) (last_alert d !! sym).
Proof.
  induction calls as [|c rest IH]; intros d; simpl; [reflexivity|].
  unfold call.
  pose proof (detect_spread_last_alert d (c_time c) (c_stamp c) (c_symbol c)
                (c_mark c) (c_last c) sym) as Hstep.
  destruct (detect_spread _ _ _ _ _ _) as [d1 o]. simpl in *.
  specialize (IH d1). destruct (run d1 rest) as [d2 h]. simpl in *.
  rewrite IH, Hstep. now destruct o.
Qed.

(** The latest emission is one of the emissions. *)
Lemma last_emission_in (sym : string)
    (h : list (Call * option SpreadOpportunity)) :
  forall (start : option Q) (t0 : Q),
    last_emission sym h start = Some t0 ->
    start = Some t0 \/ t0 ∈ emission_times sym h.
Proof.
  induction h as [|[c o] h IH]; intros start t0 H; simpl in *; [now left|].
  destruct o as [opp|]; [|now apply IH].
  destruct (bool_decide (c_symbol c = sym)); [|now apply IH].
  destruct (IH _ _ H) as [[= <-] | Hin]; right.
  - apply list_elem_of_here.
  - now apply list_elem_of_further.
Qed.

(** On a clock that never runs backwards, no emission is later than the
    latest one. *)
Lemma last_emission_latest (sym : string)
    (h : list (Call * option SpreadOpportunity)) :
  StronglySorted Qle (clock_readings h) ->
  forall start : option Q,
    (forall s : Q, start = Some s -> Forall (Qle s) (clock_readings h)) ->
    forall t : Q,
      start = Some t \/ t ∈ emission_times sym h ->
      exists t0 : Q, last_emission sym h start = Some t0 /\ (t <= t0)%Q.
Proof.
  induction h as [|[c o] h IH]; intros Hsorted start Hstart t Ht; simpl in *.
  - destruct Ht as [-> | Ht]; [|now apply elem_of_nil in Ht].
    exists t. split; [reflexivity | apply Qle_refl].
  - apply StronglySorted_inv in Hsorted as [Hsorted Hhead]. simpl in Hhead.
    assert (Hkeep : forall s : Q,
               start = Some s -> Forall (Qle s) (clock_readings h)).
    { intros s Hs. specialize (Hstart s Hs).
      now apply Forall_cons in Hstart as [_ Hstart]. }
    destruct o as [opp|]; [|now apply IH].
    destruct (bool_decide (c_symbol c = sym)); [|now apply IH].
    destruct Ht as [-> | Ht].
    + destruct (IH Hsorted (Some (c_time c))) with (t := c_time c)
        as (t0 & Ht0 & Hle); [now intros s [= <-] | now left |].
      exists t0. split; [exact Ht0|].
      specialize (Hstart t eq_refl).
      apply Forall_cons in Hstart as [Hfirst _]. simpl in Hfirst.
      now apply Qle_trans with (c_time c).
    + apply IH; [assumption | now intros s [= <-] |].
      apply elem_of_cons in Ht as [-> | Ht]; [now left | now right].
Qed.

(** On such a clock the cooldown test on the latest emission speaks for all
    emissions of the symbol. *)
Lemma cooldown_window (sym : string)
    (h : list (Call * option SpreadOpportunity)) (now window : Q) :
  StronglySorted Qle (clock_readings h) ->
  (forall t0 : Q,
      last_emission sym h None = Some t0 -> (window <= now - t0)%Q) <->
  (forall t : Q, t ∈ emission_times sym h -> (window <= now - t)%Q).
Proof.
  intros Hsorted. split.
  - intros Hlast t Ht.
    destruct (last_emission_latest sym h Hsorted None) with (t := t)
      as (t0 & Ht0 & Hle); [intros s H; discriminate H | now right |].
    specialize (Hlast t0 Ht0). lra.
  - intros Hall t0 Ht0. apply Hall.
    now destruct (last_emission_in sym h None t0 Ht0) as [H | H];
      [discriminate H|].
Qed.

(** The cooldown test in terms of the recorded emission. *)
Lemma in_cooldown_false_iff (d : SpreadDetector) (sym : string) (now : Q) :
  in_cooldown d sym now = false <->
  (forall t0 : Q,
      last_alert d !! sym = Some t0 -> (alert_cooldown d <= now - t0)%Q).
Proof.
  unfold in_cooldown. destruct (last_alert d !! sym) as [t|].
  - rewrite Qlt_bool_false_iff. split.
    + intros H t0 [= <-]. exact H.
    + intros H. now apply H.
  - split; [intros _ t0 H; discriminate H | reflexivity].
Qed.

(** The scenario of the specification: threshold 7, reference 107, trade
    100.  The first call emits Long with spread 7; a repeat less than 60
    seconds later emits nothing; a call 60 seconds or more after the first
    emits again. *)
Lemma detect_spread_scenario (sym : string) (t0 t1 t2 s0 s1 s2 : Q) :
  (t1 - t0 < 60)%Q -> (60 <= t2 - t0)%Q ->
  let '(d1, o1) := detect_spread (new_SpreadDetector 7) t0 s0 sym 107 100 in
  let '(d2, o2) := detect_spread d1 t1 s1 sym 107 100 in
  let '(_, o3) := detect_spread d2 t2 s2 sym 107 100 in
  (exists opp, o1 = Some opp /\ signal_type opp = LONG /\
               (spread_percent opp == 7)%Q) /\
  o2 = None /\
  (exists opp, o3 = Some opp /\ signal_type opp = LONG /\
               (spread_percent opp == 7)%Q).
Proof.
  intros Hin Hout.
  rewrite detect_spread_long; [| reflexivity | reflexivity | reflexivity |].
  2: { unfold in_cooldown. simpl. now rewrite lookup_empty. }
  simpl.
  assert (Hlook : last_alert (set_last_alert (new_SpreadDetector 7) sym t0)
                    !! sym = Some t0) by apply lookup_insert_eq.
  rewrite detect_spread_cooldown.
  2: { unfold in_cooldown. rewrite Hlook. now apply Qlt_bool_true. }
  rewrite detect_spread_long; [| reflexivity | reflexivity | reflexivity |].
  2: { unfold in_cooldown. rewrite Hlook. now apply Qlt_bool_false. }
  simpl. repeat split; eexists; repeat split; reflexivity.
Qed.

(** In binary64 the spread of the scenario comes out one unit in the last
    place above 7, so the threshold test at 7 passes there too. *)
Lemma scenario_spread_binary64 :
  Binary64.long_spread 107 100 = 0x1.c000000000001p+2%float /\
  (7 <=? Binary64.long_spread 107 100)%float = true.
Proof. split; vm_compute; reflexivity. Qed.

(** C6: the emission rule of [detect_spread].  On a detector built by
    [SpreadDetector(threshold)] and driven through any sequence of calls,
    the next call emits an opportunity exactly when both prices are
    positive, the spread of the two distinct prices is at least the
    threshold, and the latest emission recorded for the symbol, if any, lies
    at least 60 seconds back; [last_alert] holds per symbol the clock reading
    of the latest emission, and on a clock that never runs backwards the
    test on the latest emission says that no emission for the symbol lies
    inside the 60 seconds before the call; a non-positive price returns
    nothing and leaves the detector untouched.  With threshold 7, reference 107 and trade 100
    the first call emits Long with spread 7, a repeat inside the cooldown
    emits nothing, and a call after the cooldown emits again. *)
Theorem detect_spread_emission_rule (threshold : Q) (calls : list Call)
    (now stamp : Q) (sym : string) (mark last : Q) :
  let d := fst (run (new_SpreadDetector threshold) calls) in
  let history := snd (run (new_SpreadDetector threshold) calls) in
  (is_Some (snd (detect_spread d now stamp sym mark last)) <->
   (0 < mark)%Q /\ (0 < last)%Q /\
   threshold_met threshold mark last /\
   (forall t0 : Q,
       last_emission sym history None = Some t0 -> (60 <= now - t0)%Q)) /\
  last_alert d !! sym = last_emission sym history None /\
  (StronglySorted Qle (clock_readings history) ->
   ((forall t0 : Q,
        last_emission sym history None = Some t0 -> (60 <= now - t0)%Q) <->
    (forall t : Q,
        t ∈ emission_times sym history -> (60 <= now - t)%Q))) /\
  ((mark <= 0)%Q \/ (last <= 0)%Q ->
   detect_spread d now stamp sym mark last = (d, None)) /\
  (forall t0 t1 t2 s0 s1 s2 : Q,
      (t1 - t0 < 60)%Q -> (60 <= t2 - t0)%Q ->
      let '(d1, o1) :=
        detect_spread (new_SpreadDetector 7) t0 s0 sym 107 100 in
      let '(d2, o2) := detect_spread d1 t1 s1 sym 107 100 in
      let '(_, o3) := detect_spread d2 t2 s2 sym 107 100 in
      (exists opp, o1 = Some opp /\ signal_type opp = LONG /\
                   (spread_percent opp == 7)%Q) /\
      o2 = None /\
      (exists opp, o3 = Some opp /\ signal_type opp = LONG /\
                   (spread_percent opp == 7)%Q)).
Proof.
  intros d history.
  assert (Hhist : last_alert d !! sym = last_emission sym history None).
  { subst d history. rewrite run_last_alert. simpl. now rewrite lookup_empty. }
  destruct (run_config calls (new_SpreadDetector threshold)) as [Hthr Hcool].
  fold d in Hthr, Hcool. simpl in Hthr, Hcool.
  split; [split | split; [| split; [| split]]].
  - intros H. apply detect_spread_emits_iff in H.
    destruct H as (Hm & Hl & Hc & Hs). repeat split; try assumption.
    + now rewrite <- Hthr.
    + intros t0 Ht0. rewrite <- Hcool.
      apply (proj1 (in_cooldown_false_iff d sym now) Hc). congruence.
  - intros (Hm & Hl & Hs & Hc). apply detect_spread_emits_iff.
    repeat split; try assumption.
    + apply in_cooldown_false_iff. intros t0 Ht0. rewrite Hcool.
      apply Hc. congruence.
    + now rewrite Hthr.
  - exact Hhist.
  - apply cooldown_window.
  - apply detect_spread_rejects_nonpositive.
  - intros t0 t1 t2 s0 s1 s2. apply detect_spread_scenario.
Qed.

(** ** Profit and loss *)

Lemma inject_Z_pos (z : Z) : 0 < z -> (0 < inject_Z z)%Q.
Proof. intros H. unfold Qlt. simpl. lia. Qed.

(** The margin of a position with positive size, entry price, multiplier
    and leverage is positive, so the ROI guard of the code is passed. *)
Lemma margin_positive (sz lev : Z) (entry quanto : Q) :
  0 < sz -> 0 < lev -> (0 < entry)%Q -> (0 < quanto)%Q ->
  Qlt_bool 0 (inject_Z sz * entry * quanto / inject_Z lev) = true.
Proof.
  intros Hs Hl He Hq. apply Qlt_bool_true.
  apply Qlt_shift_div_l; [now apply inject_Z_pos|].
  rewrite Qmult_0_l.
  apply Qmult_lt_0_compat; [|assumption].
  apply Qmult_lt_0_compat; [now apply inject_Z_pos | assumption].
Qed.

(** The manual branch of [_calculate_pnl] follows the formulas. *)
Lemma _calculate_pnl_manual (td : TradeData) :
  td_real_pnl_usd td = None ->
  0 < td_size td -> 0 < td_leverage td ->
  (0 < td_entry_price td)%Q -> (0 < td_quanto_multiplier td)%Q ->
  exists p : PnlData,
    _calculate_pnl td = Some p /\
    pnl_usd p =
      formula_pnl (td_size td)
        (price_diff (td_side td) (td_entry_price td) (td_exit_price td))
        (td_quanto_multiplier td) /\
    pnl_percent p =
      formula_roi (pnl_usd p) (td_size td) (td_entry_price td)
        (td_quanto_multiplier td) (td_leverage td).
Proof.
  intros Hreal Hs Hl He Hq. unfold _calculate_pnl.
  rewrite Hreal, (Z.abs_eq (td_size td)) by lia.
  destruct (Z.eqb_spec (td_leverage td) 0) as [H0 | _]; [lia|].
  rewrite margin_positive by assumption.
  eexists. split; [reflexivity|]. simpl.
  unfold formula_pnl, formula_roi, price_diff.
  split; [now destruct (td_side td) | reflexivity].
Qed.

(** [calculate_unrealized_pnl] follows the same formulas. *)
Lemma calculate_unrealized_pnl_formula (m : GateIOTradingManager)
    (sym : string) (current_price : Q) (p : Position) :
  open_positions m !! sym = Some p ->
  0 < pos_size p -> 0 < leverage m ->
  (0 < pos_entry_price p)%Q -> (0 < pos_quanto_multiplier p)%Q ->
  exists u : UnrealizedPnl,
    calculate_unrealized_pnl m sym current_price = Returned u /\
    u_pnl_usd u =
      formula_pnl (pos_size p)
        (price_diff (pos_side p) (pos_entry_price p) current_price)
        (pos_quanto_multiplier p) /\
    u_roi_pct u =
      formula_roi (u_pnl_usd u) (pos_size p) (pos_entry_price p)
        (pos_quanto_multiplier p) (leverage m).
Proof.
  intros Hp Hs Hl He Hq. unfold calculate_unrealized_pnl. rewrite Hp.
  destruct (Z.eqb_spec (leverage m) 0) as [H0 | _]; [lia|].
  rewrite margin_positive by assumption.
  eexists. split; [reflexivity|]. simpl.
  unfold formula_pnl, formula_roi, price_diff.
  split; [now destruct (pos_side p) | reflexivity].
Qed.

(** C7: the manual P&L computation.  For a trade without exchange-reported
    P&L and with positive size, leverage, entry price and multiplier,
    [_calculate_pnl] returns pnl = size * priceDiff * quanto, priceDiff
    signed by side, and roi = pnl / (size * entry * quanto / leverage) * 100,
    and [calculate_unrealized_pnl] returns the same two values for an open
    position.  On the round trip of the specification (long, entry 100, exit
    110, size 1000, multiplier 0.0001, leverage 20) both give pnl 1 and
    ROI 200, and so does the same arithmetic in binary64, with no rounding
    error left in either value. *)
Theorem manual_pnl_formula (td : TradeData) (m : GateIOTradingManager)
    (sym : string) (current_price : Q) (p : Position) :
  td_real_pnl_usd td = None ->
  0 < td_size td -> 0 < td_leverage td ->
  (0 < td_entry_price td)%Q -> (0 < td_quanto_multiplier td)%Q ->
  open_positions m !! sym = Some p ->
  0 < pos_size p -> 0 < leverage m ->
  (0 < pos_entry_price p)%Q -> (0 < pos_quanto_multiplier p)%Q ->
  (exists r : PnlData,
      _calculate_pnl td = Some r /\
      pnl_usd r =
        formula_pnl (td_size td)
          (price_diff (td_side td) (td_entry_price td) (td_exit_price td))
          (td_quanto_multiplier td) /\
      pnl_percent r =
        formula_roi (pnl_usd r) (td_size td) (td_entry_price td)
          (td_quanto_multiplier td) (td_leverage td)) /\
  (exists u : UnrealizedPnl,
      calculate_unrealized_pnl m sym current_price = Returned u /\
      u_pnl_usd u =
        formula_pnl (pos_size p)
          (price_diff (pos_side p) (pos_entry_price p) current_price)
          (pos_quanto_multiplier p) /\
      u_roi_pct u =
        formula_roi (u_pnl_usd u) (pos_size p) (pos_entry_price p)
          (pos_quanto_multiplier p) (leverage m)) /\
  (exists r : PnlData,
      _calculate_pnl round_trip_trade = Some r /\
      (pnl_usd r == 1)%Q /\ (pnl_percent r == 200)%Q) /\
  (exists u : UnrealizedPnl,
      calculate_unrealized_pnl tracking_btc "BTC_USDT" 110 = Returned u /\
      (u_pnl_usd u == 1)%Q /\ (u_roi_pct u == 200)%Q) /\
  Binary64.long_pnl 1000 100 110 Binary64.one_ten_thousandth = 1%float /\
  Binary64.roi 1 1000 100 Binary64.one_ten_thousandth 20 = 200%float.
Proof.
  intros Hreal Hs Hl He Hq Hp Hps Hml Hpe Hpq.
  split; [now apply _calculate_pnl_manual|].
  split; [now apply calculate_unrealized_pnl_formula with (p := p)|].
  split; [|split; [|split]].
  - eexists. split; [vm_compute; reflexivity|]. split; reflexivity.
  - eexists. split; [vm_compute; reflexivity|]. split; reflexivity.
  - vm_compute. reflexivity.
  - vm_compute. reflexivity.
Qed.

(** C7 at the round trip of the specification. *)
Lemma manual_pnl_formula_witness :
  exists r : PnlData,
    _calculate_pnl round_trip_trade = Some r /\
    (pnl_usd r == formula_pnl 1000 (price_diff long 100 110) (1 # 10000))%Q /\
    (pnl_usd r == 1)%Q /\ (pnl_percent r == 200)%Q.
Proof.
  destruct (manual_pnl_formula round_trip_trade tracking_btc "BTC_USDT" 110
              btc_position)
    as (_ & _ & (r & Hr & H1 & H2) & _);
    try reflexivity.
  exists r. repeat split; try assumption.
  vm_compute in Hr. injection Hr as <-. reflexivity.
Defined.

(** ** Position sizing *)

Lemma py_round_bounds (x : Q) : Qfloor x <= py_round x <= Qfloor x + 1.
Proof.
  unfold py_round.
  repeat match goal with
         | |- context [if ?b then _ else _] => destruct b
         end; lia.
Qed.

(** [py_round] moves its argument by at most one half. *)
Lemma py_round_nearest (x : Q) :
  (Qabs (inject_Z (py_round x) - x) <= 1 # 2)%Q.
Proof.
  pose proof (Qfloor_le x) as Hlo.
  pose proof (Qlt_floor x) as Hhi.
  assert (Hup : forall b : bool,
             (inject_Z (if b then Qfloor x else Qfloor x + 1) ==
              inject_Z (Qfloor x) + (if b then 0 else 1))%Q).
  { intros [|]; [lra | now rewrite inject_Z_plus]. }
  rewrite inject_Z_plus in Hhi. change (inject_Z 1) with 1%Q in Hhi.
  unfold py_round.
  destruct (Qlt_bool (x - inject_Z (Qfloor x)) (1 # 2)) eqn:E1; qprop.
  { rewrite (Hup true). apply Qabs_Qle_condition.
    revert Hlo Hhi E1. generalize (inject_Z (Qfloor x)). intros f ? ? ?.
    split; lra. }
  destruct (Qlt_bool (1 # 2) (x - inject_Z (Qfloor x))) eqn:E2; qprop.
  { rewrite (Hup false). apply Qabs_Qle_condition.
    revert Hlo Hhi E1 E2. generalize (inject_Z (Qfloor x)). intros f ? ? ? ?.
    split; lra. }
  rewrite (Hup (Z.even (Qfloor x))). apply Qabs_Qle_condition.
  revert Hlo Hhi E1 E2. generalize (inject_Z (Qfloor x)). intros f ? ? ? ?.
  destruct (Z.even (Qfloor x)); split; lra.
Qed.

Lemma py_round_integer (z : Z) : py_round (inject_Z z) = z.
Proof.
  unfold py_round. rewrite Qfloor_Z.
  replace (Qlt_bool (inject_Z z - inject_Z z) (1 # 2)) with true;
    [reflexivity|].
  symmetry. apply Qlt_bool_true. lra.
Qed.

Lemma py_int_nonneg (x : Q) : (0 <= x)%Q -> py_int x = Qfloor x.
Proof.
  intros H. unfold py_int. now rewrite Qlt_bool_false.
Qed.

Lemma target_quantity_positive (margin_usd : Q) (lev : Z) (price quanto : Q) :
  (0 < margin_usd)%Q -> 0 < lev -> (0 < price)%Q -> (0 < quanto)%Q ->
  (0 < target_quantity margin_usd lev price quanto)%Q.
Proof.
  intros Hm Hl Hp Hq. unfold target_quantity.
  apply Qlt_shift_div_l.
  - now apply Qmult_lt_0_compat.
  - rewrite Qmult_0_l. apply Qmult_lt_0_compat; [assumption|].
    now apply inject_Z_pos.
Qed.

(** [calculate_position_size] with the contract at hand and positive
    inputs: the quantity, raised to the minimum order size when below it,
    rounded to the nearest integer. *)
Lemma calculate_position_size_rounds (m : GateIOTradingManager) (price : Q)
    (c : Contract) (quanto : Q) :
  quanto_multiplier c = Some quanto ->
  (0 < position_size_usd m)%Q -> 0 < leverage m ->
  (0 < price)%Q -> (0 < quanto)%Q ->
  let q := target_quantity (position_size_usd m) (leverage m) price quanto in
  calculate_position_size m price (Some (Some c)) =
    Some (py_round (if Qlt_bool q (inject_Z (min_order_size c))
                    then inject_Z (min_order_size c) else q)).
Proof.
  intros Hc Hm Hl Hp Hq q.
  pose proof (target_quantity_positive _ _ _ _ Hm Hl Hp Hq) as Hpos.
  fold q in Hpos.
  unfold calculate_position_size. rewrite Hc.
  assert (Hnz : Qeq_bool (price * quanto) 0 = false).
  { apply Qeq_bool_false_iff. intros H0.
    pose proof (Qmult_lt_0_compat _ _ Hp Hq) as H. rewrite H0 in H.
    now apply (Qlt_irrefl 0). }
  rewrite Hnz. fold (target_quantity (position_size_usd m) (leverage m)
                       price quanto). fold q.
  assert (Hmin : match order_size_min c with
                 | Some z => if z =? 0 then 1%Q else inject_Z z
                 | None => 1%Q
                 end = inject_Z (min_order_size c)).
  { unfold min_order_size. destruct (order_size_min c) as [z|];
      [now destruct (z =? 0) | reflexivity]. }
  rewrite Hmin.
  assert (Habs : Qlt_bool (Qabs q) (inject_Z (min_order_size c)) =
                 Qlt_bool q (inject_Z (min_order_size c))).
  { unfold Qlt_bool. f_equal.
    destruct (Qle_bool (inject_Z (min_order_size c)) q) eqn:E.
    - apply Qle_bool_iff. apply Qle_bool_iff in E.
      rewrite Qabs_pos; [assumption | now apply Qlt_le_weak].
    - apply Qle_bool_false_iff. apply Qle_bool_false_iff in E.
      rewrite Qabs_pos; [assumption | now apply Qlt_le_weak]. }
  rewrite Habs, (Qlt_bool_true 0 q Hpos).
  reflexivity.
Qed.

(** The contract count of the MEXC ledger is the floor of the quantity. *)
Lemma mexc_num_contracts_floor (mx : Mexc.TradingManager)
    (price contract_size : Q) :
  (0 < Mexc.position_size_usd mx)%Q -> 0 < Mexc.leverage mx ->
  (0 < price)%Q -> (0 < contract_size)%Q ->
  Mexc.num_contracts mx price contract_size =
    Some (Qfloor (target_quantity (Mexc.position_size_usd mx)
                    (Mexc.leverage mx) price contract_size)).
Proof.
  intros Hm Hl Hp Hq.
  pose proof (target_quantity_positive _ _ _ _ Hm Hl Hp Hq) as Hpos.
  unfold Mexc.num_contracts.
  assert (Hnz : Qeq_bool (price * contract_size) 0 = false).
  { apply Qeq_bool_false_iff. intros H0.
    pose proof (Qmult_lt_0_compat _ _ Hp Hq) as H. rewrite H0 in H.
    now apply (Qlt_irrefl 0). }
  rewrite Hnz. f_equal. apply py_int_nonneg. now apply Qlt_le_weak.
Qed.

(** A count below 1 makes the MEXC ledger refuse; it does not raise the
    count to a minimum. *)
Lemma mexc_open_position_too_small (mx : Mexc.TradingManager)
    (opp : SpreadOpportunity) (env : Mexc.OpenEnv) (n : Z) :
  Mexc.num_contracts mx (last_price opp)
    (Mexc._get_contract_size (symbol opp) (Mexc.contract_detail env))
    = Some n ->
  n < 1 ->
  Mexc.open_position mx opp env = (mx, false).
Proof.
  intros Hn Hlt. unfold Mexc.open_position.
  destruct (negb (Mexc.can_open_position mx)); [reflexivity|].
  destruct (Mexc.open_positions mx !! symbol opp); [reflexivity|].
  rewrite Hn. destruct (Z.ltb_spec n 1); [reflexivity | lia].
Qed.

(** C4 (as the code has it): for positive margin, leverage, price and
    multiplier, with the contract specification at hand, the Gate.io ledger
    takes q = marginUsd * leverage / (price * quanto); when q is below the
    minimum order size the count is that minimum; otherwise the count is q
    rounded to the nearest integer (ties to the even one), hence floor(q) or
    floor(q) + 1 and within one half of q.  The MEXC ledger takes floor(q)
    and refuses the open when that is below 1. *)
Theorem position_size_rounds_and_clamps (m : GateIOTradingManager)
    (mx : Mexc.TradingManager) (price : Q) (c : Contract) (quanto : Q) :
  quanto_multiplier c = Some quanto ->
  (0 < position_size_usd m)%Q -> 0 < leverage m ->
  (0 < Mexc.position_size_usd mx)%Q -> 0 < Mexc.leverage mx ->
  (0 < price)%Q -> (0 < quanto)%Q ->
  let q := target_quantity (position_size_usd m) (leverage m) price quanto in
  let qx :=
    target_quantity (Mexc.position_size_usd mx) (Mexc.leverage mx)
      price quanto in
  (exists n : Z,
      calculate_position_size m price (Some (Some c)) = Some n /\
      ((q < inject_Z (min_order_size c))%Q -> n = min_order_size c) /\
      ((inject_Z (min_order_size c) <= q)%Q ->
       n = py_round q /\ Qfloor q <= n <= Qfloor q + 1 /\
       (Qabs (inject_Z n - q) <= 1 # 2)%Q)) /\
  Mexc.num_contracts mx price quanto = Some (Qfloor qx) /\
  (forall (opp : SpreadOpportunity) (env : Mexc.OpenEnv),
      last_price opp = price ->
      Mexc._get_contract_size (symbol opp) (Mexc.contract_detail env)
        = quanto ->
      Qfloor qx < 1 ->
      Mexc.open_position mx opp env = (mx, false)).
Proof.
  intros Hc Hm Hl Hmx Hlx Hp Hq q qx.
  split; [|split].
  - eexists. split.
    + now apply calculate_position_size_rounds with (quanto := quanto).
    + fold q. split.
      * intros Hlt. rewrite (Qlt_bool_true _ _ Hlt).
        apply py_round_integer.
      * intros Hle. rewrite (Qlt_bool_false _ _ Hle).
        split; [reflexivity|].
        split; [apply py_round_bounds | apply py_round_nearest].
  - now apply mexc_num_contracts_floor.
  - intros opp env Hprice Hsize Hlt.
    apply mexc_open_position_too_small with (n := Qfloor qx); [|assumption].
    rewrite Hprice, Hsize. now apply mexc_num_contracts_floor.
Qed.

(** C4 at price 1.5 on [unit_contract]. *)
Lemma position_size_rounds_and_clamps_witness :
  exists n : Z,
    calculate_position_size example_manager (3 # 2)
      (Some (Some unit_contract)) = Some n /\
    n = py_round (target_quantity 2 20 (3 # 2) 1) /\
    Mexc.num_contracts example_mexc (3 # 2) 1 =
      Some (Qfloor (target_quantity 2 20 (3 # 2) 1)).
Proof.
  destruct (position_size_rounds_and_clamps example_manager example_mexc
              (3 # 2) unit_contract 1)
    as ((n & Hn & _ & Hround) & Hfloor & _); try reflexivity.
  exists n. split; [exact Hn|]. split; [|exact Hfloor].
  apply Hround. vm_compute. discriminate.
Defined.

(** C4 as stated fails on the Gate.io ledger: with 2 USD at 20x, price 1.5
    and multiplier 1 the quantity is 26.67, whose floor is 26, and the
    ledger orders 27 contracts. *)
Lemma position_size_not_floor :
  calculate_position_size example_manager (3 # 2)
    (Some (Some unit_contract)) = Some 27 /\
  Qfloor (target_quantity (position_size_usd example_manager)
            (leverage example_manager) (3 # 2) 1) = 26 /\
  (1 <= target_quantity (position_size_usd example_manager)
          (leverage example_manager) (3 # 2) 1)%Q.
Proof.
  split; [vm_compute; reflexivity|].
  split; [vm_compute; reflexivity|].
  vm_compute. discriminate.
Qed.

(** ** Position ledger *)

Lemma same_but_cache_refl (m : GateIOTradingManager) : same_but_cache m m.
Proof. repeat split. Qed.

Lemma get_real_positions_cached_frame (m : GateIOTradingManager)
    (force : bool) (env : SnapshotEnv) :
  same_but_cache m (fst (get_real_positions_cached m force env)).
Proof.
  unfold get_real_positions_cached.
  destruct (negb force && _); [apply same_but_cache_refl|].
  destruct (snap_positions env); simpl; repeat split.
Qed.

(** A refused [open_position] leaves the ledger and the order history as
    they were; an accepted one found room under [max_positions], found the
    symbol absent from the forced snapshot, sent one opening order and wrote
    the entry of its symbol. *)
Lemma open_position_effect (m : GateIOTradingManager)
    (opp : SpreadOpportunity) (env : OpenEnv) :
  let m' := fst (open_position m opp env) in
  max_positions m' = max_positions m /\
  analytics m' = analytics m /\
  triggers m' = triggers m /\
  if snd (open_position m opp env) then
    can_open_position m = true /\
    forced_snapshot m (open_snapshot env) !! symbol opp = None /\
    exists (p : Position) (o : FuturesOrder),
      open_positions m' = <[symbol opp := p]> (open_positions m) /\
      submitted m' = submitted m ++ [o] /\
      fo_contract o = symbol opp /\ fo_reduce_only o = false /\
      pos_size p = Z.abs (fo_size o) /\ partial_closed p = false
  else open_positions m' = open_positions m.
Proof.
  unfold open_position, forced_snapshot.
  pose proof (get_real_positions_cached_frame m true (open_snapshot env))
    as (_ & _ & Hmax & _ & Hops & Han & Hsub & Htr).
  destruct (can_open_position m) eqn:Hcan; simpl; [|repeat split].
  destruct (get_real_positions_cached m true (open_snapshot env))
    as [m1 real]. simpl in *.
  destruct (real !! symbol opp) eqn:Hreal; simpl; [repeat split; assumption|].
  destruct (calculate_position_size m1 (last_price opp) (open_contract env))
    as [sz|]; simpl; [|repeat split; assumption].
  destruct (sz =? 0); simpl; [repeat split; assumption|].
  destruct (open_order env) as [id|]; simpl; [|repeat split; assumption].
  destruct (open_contract_after env) as [c|]; simpl;
    [|repeat split; assumption].
  repeat split; try assumption.
  eexists _, _. simpl. rewrite Hops, Hsub.
  repeat split.
Qed.

(** The duplicate check of [open_position]: a symbol present in the forced
    snapshot is refused before anything is sent. *)
Lemma open_position_blocked (m : GateIOTradingManager)
    (opp : SpreadOpportunity) (env : OpenEnv) :
  is_Some (forced_snapshot m (open_snapshot env) !! symbol opp) ->
  snd (open_position m opp env) = false /\
  same_but_cache m (fst (open_position m opp env)).
Proof.
  unfold open_position, forced_snapshot. intros [r Hr].
  pose proof (get_real_positions_cached_frame m true (open_snapshot env))
    as Hframe.
  destruct (can_open_position m); simpl;
    [|split; [reflexivity | apply same_but_cache_refl]].
  destruct (get_real_positions_cached m true (open_snapshot env))
    as [m1 real]. simpl in *. rewrite Hr. now split.
Qed.

Lemma exit_step_refl (sym : string) (m : GateIOTradingManager) :
  exit_step sym m m.
Proof.
  repeat split; try tauto. exists []. split; [now rewrite app_nil_r|].
  constructor.
Qed.

Lemma exit_step_trans (sym : string) (m1 m2 m3 : GateIOTradingManager) :
  exit_step sym m1 m2 -> exit_step sym m2 m3 -> exit_step sym m1 m3.
Proof.
  intros (A1 & A2 & A3 & A4 & A5 & A6 & n1 & A7 & A8)
         (B1 & B2 & B3 & B4 & B5 & B6 & n2 & B7 & B8).
  repeat split; try congruence.
  - intros k Hk. rewrite B5, A5; auto.
  - auto.
  - exists (n1 ++ n2). split.
    + rewrite B7, A7. now rewrite app_assoc.
    + apply Forall_app. now split.
Qed.

(** A change confined to the cache is such a step. *)
Lemma exit_step_cache (sym : string) (m m' : GateIOTradingManager) :
  same_but_cache m m' -> exit_step sym m m'.
Proof.
  intros (A1 & A2 & A3 & A4 & A5 & A6 & A7 & A8).
  repeat split; try assumption.
  - intros k _. now rewrite A5.
  - now rewrite A5.
  - exists []. split; [now rewrite app_nil_r | constructor].
Qed.

Ltac snapshot m env :=
  let Hf := fresh "Hframe" in
  let m1 := fresh "m1" in
  let real := fresh "real" in
  pose proof (get_real_positions_cached_frame m true env) as Hf;
  destruct (get_real_positions_cached m true env) as [m1 real];
  simpl in Hf;
  destruct Hf as (?Hsize & ?Hlev & ?Hmax & ?Hthr & ?Hops & ?Han & ?Hsub
                  & ?Htrig).

Lemma close_position_step (m : GateIOTradingManager) (sym : string)
    (exit_price spread : Q) (env : CloseEnv) :
  exit_step sym m (fst (close_position m sym exit_price spread env)).
Proof.
  unfold close_position.
  destruct (open_positions m !! sym) as [position|] eqn:Hpos;
    [|apply exit_step_refl].
  snapshot m (close_snapshot env).
  destruct (real !! sym) as [real_pos|]; simpl.
  - destruct (close_order env) as [id|]; simpl.
    + destruct (log_trade _ _) as [a pnl_data]. simpl.
      unfold exit_step; simpl; repeat split; try assumption.
      * intros k Hk. rewrite lookup_delete_ne by congruence. now rewrite Hops.
      * rewrite lookup_delete_eq. intros [? H]. discriminate H.
      * eexists [_]. rewrite Hsub. split; [reflexivity|].
        constructor; [reflexivity | constructor].
    + unfold exit_step; simpl; repeat split; try assumption.
      * intros k _. now rewrite Hops.
      * now rewrite Hops.
      * eexists [_]. rewrite Hsub. split; [reflexivity|].
        constructor; [reflexivity | constructor].
  - unfold exit_step; simpl; repeat split; try assumption.
    + intros k Hk. rewrite lookup_delete_ne by congruence. now rewrite Hops.
    + rewrite lookup_delete_eq. intros [? H]. discriminate H.
    + exists []. rewrite Hsub. split; [now rewrite app_nil_r | constructor].
Qed.

Lemma close_partial_position_step (m : GateIOTradingManager) (sym : string)
    (exit_price spread : Q) (percent : Z) (env : CloseEnv) :
  exit_step sym m
    (fst (close_partial_position m sym exit_price spread percent env)).
Proof.
  unfold close_partial_position.
  destruct (open_positions m !! sym) as [position|] eqn:Hpos;
    [|apply exit_step_refl].
  snapshot m (close_snapshot env).
  assert (Hcache : exit_step sym m m1).
  { apply exit_step_cache. repeat split; assumption. }
  destruct (real !! sym) as [real_pos|]; simpl; [|exact Hcache].
  destruct (py_int _ =? 0); simpl; [exact Hcache|].
  destruct (close_order env) as [id|]; simpl.
  - destruct (log_trade _ _) as [a pnl_data]. simpl.
    unfold exit_step; simpl; repeat split; try assumption.
    + intros k Hk. rewrite lookup_alter_ne by congruence. now rewrite Hops.
    + rewrite Hops, Hpos. intros _. now eexists.
    + eexists [_]. rewrite Hsub. split; [reflexivity|].
      constructor; [reflexivity | constructor].
  - unfold exit_step; simpl; repeat split; try assumption.
    + intros k _. now rewrite Hops.
    + now rewrite Hops.
    + eexists [_]. rewrite Hsub. split; [reflexivity|].
      constructor; [reflexivity | constructor].
Qed.

Lemma set_stop_loss_at_entry_step (m : GateIOTradingManager) (sym : string)
    (env : StopEnv) :
  exit_step sym m (fst (set_stop_loss_at_entry m sym env)) /\
  submitted (fst (set_stop_loss_at_entry m sym env)) = submitted m.
Proof.
  unfold set_stop_loss_at_entry.
  destruct (open_positions m !! sym) as [position|] eqn:Hpos;
    [|split; [apply exit_step_refl | reflexivity]].
  snapshot m (stop_snapshot env).
  assert (Hcache : exit_step sym m m1).
  { apply exit_step_cache. repeat split; assumption. }
  destruct (real !! sym) as [real_pos|]; simpl; [|now split].
  destruct (stop_order env) as [id|]; simpl; [|now split].
  split; [|assumption].
  unfold exit_step; simpl; repeat split; try assumption.
  - intros k Hk. rewrite lookup_alter_ne by congruence. now rewrite Hops.
  - rewrite Hops, Hpos. intros _. now eexists.
  - exists []. rewrite Hsub. split; [now rewrite app_nil_r | constructor].
Qed.

(** Updating the entry of [sym] in place is such a step. *)
Lemma alter_step (sym : string) (m : GateIOTradingManager)
    (f : Position -> Position) :
  exit_step sym m
    (with_open_positions m (alter f sym (open_positions m))).
Proof.
  unfold exit_step. simpl. repeat split.
  - intros k Hk. now rewrite lookup_alter_ne by congruence.
  - rewrite lookup_alter_eq. intros [p Hp].
    destruct (open_positions m !! sym); [now eexists | discriminate Hp].
  - exists []. split; [now rewrite app_nil_r | constructor].
Qed.

Lemma full_exit_step (m : GateIOTradingManager) (sym : string)
    (current_spread exit_price : Q) (env : ExitEnv) :
  exit_step sym m (fst (full_exit m sym current_spread exit_price env)).
Proof.
  unfold full_exit. destruct (Qle_bool _ _); [|apply exit_step_refl].
  pose proof (close_position_step m sym exit_price current_spread
                (exit_close env)) as H.
  now destruct (close_position _ _ _ _ _).
Qed.

(** [check_exit_conditions] unfolded along its two rules. *)
Lemma check_exit_conditions_unfold (m : GateIOTradingManager) (sym : string)
    (current_spread exit_price take_profit_roi : Q) (env : ExitEnv) :
  check_exit_conditions m sym current_spread exit_price take_profit_roi env =
  match open_positions m !! sym with
  | None => (m, Returned None)
  | Some position =>
      match calculate_unrealized_pnl m sym exit_price with
      | Raised => (m, Raised)
      | Returned pnl_data =>
          if Qle_bool take_profit_roi (u_roi_pct pnl_data)
             && negb (partial_closed position)
          then
            match close_partial_position m sym exit_price current_spread 50
                    (exit_partial env) with
            | (m1, Some r) =>
                (fst (set_stop_loss_at_entry
                        (with_open_positions m1
                           (alter set_partial_closed sym (open_positions m1)))
                        sym (exit_stop env)),
                 Returned (Some r))
            | (m1, None) => full_exit m1 sym current_spread exit_price env
            end
          else full_exit m sym current_spread exit_price env
      end
  end.
Proof.
  unfold check_exit_conditions.
  destruct (open_positions m !! sym); [|reflexivity].
  destruct (calculate_unrealized_pnl m sym exit_price); [|reflexivity].
  destruct (Qle_bool take_profit_roi _ && _); [|reflexivity].
  destruct (close_partial_position _ _ _ _ _ _) as [m1 [r|]]; [|reflexivity].
  now destruct (set_stop_loss_at_entry _ _ _).
Qed.

Lemma check_exit_conditions_step (m : GateIOTradingManager) (sym : string)
    (current_spread exit_price take_profit_roi : Q) (env : ExitEnv) :
  exit_step sym m
    (fst (check_exit_conditions m sym current_spread exit_price
            take_profit_roi env)).
Proof.
  rewrite check_exit_conditions_unfold.
  destruct (open_positions m !! sym); [|apply exit_step_refl].
  destruct (calculate_unrealized_pnl m sym exit_price);
    [|apply exit_step_refl].
  destruct (Qle_bool take_profit_roi _ && _); [|apply full_exit_step].
  pose proof (close_partial_position_step m sym exit_price current_spread 50
                (exit_partial env)) as Hpartial.
  destruct (close_partial_position _ _ _ _ _ _) as [m1 [r|]]; simpl in *.
  - eapply exit_step_trans; [exact Hpartial|].
    eapply exit_step_trans; [apply alter_step|].
    apply set_stop_loss_at_entry_step.
  - eapply exit_step_trans; [exact Hpartial | apply full_exit_step].
Qed.

(** A step on [sym] does not raise the number of tracked positions. *)
Lemma exit_step_count (sym : string) (m m' : GateIOTradingManager) :
  exit_step sym m m' -> position_count m' <= position_count m.
Proof.
  intros (_ & _ & _ & _ & Hother & Hsym & _). unfold position_count.
  apply inj_le. rewrite <- !(size_dom (D := gset string)).
  apply subseteq_size. intros k Hk.
  apply elem_of_dom in Hk. apply elem_of_dom.
  destruct (decide (k = sym)) as [-> | Hne]; [auto|].
  now rewrite <- Hother.
Qed.

(** *** Reconciliation *)

(** What the loop of [sync_positions_from_gateio] leaves under each key. *)
Lemma sync_fold_lookup (clock : string -> Q) (base : gmap string Position)
    (real : gmap string RealPosition) (k : string) :
  map_fold
    (fun sym pos_data acc => <[sym := synced_position (clock sym) pos_data]> acc)
    base real !! k =
  match real !! k with
  | Some pos_data => Some (synced_position (clock k) pos_data)
  | None => base !! k
  end.
Proof.
  revert k.
  apply (map_fold_weak_ind
           (fun (r : gmap string Position) (seen : gmap string RealPosition) =>
              forall k : string,
                r !! k = match seen !! k with
                         | Some pos_data =>
                             Some (synced_position (clock k) pos_data)
                         | None => base !! k
                         end)).
  - intros k. now rewrite lookup_empty.
  - intros i x seen r Hfresh IH k.
    destruct (decide (i = k)) as [-> | Hne].
    + now rewrite !lookup_insert_eq.
    + rewrite !lookup_insert_ne by assumption. apply IH.
Qed.

Lemma sync_lookup (m : GateIOTradingManager) (env : SyncEnv) (k : string) :
  open_positions (sync_positions_from_gateio m env) !! k =
  match forced_snapshot m (sync_snapshot env) !! k with
  | Some pos_data => Some (synced_position (sync_clock env k) pos_data)
  | None => open_positions m !! k
  end.
Proof.
  unfold sync_positions_from_gateio, forced_snapshot.
  snapshot m (sync_snapshot env). simpl.
  rewrite sync_fold_lookup. now rewrite Hops.
Qed.

(** C3 (as the code has it): [sync_positions_from_gateio] only writes.  A
    local position whose symbol is absent from the snapshot stays in the
    ledger as it was; every position of the snapshot, tracked before or not,
    becomes an entry with the remote side, size and entry price, entry
    spread 0 and the clock reading of the sync as entry time; so a symbol on
    both sides ends with the remote size. *)
Theorem sync_adopts_and_overwrites (m : GateIOTradingManager) (env : SyncEnv)
    (sym : string) :
  let remote := forced_snapshot m (sync_snapshot env) in
  let m' := sync_positions_from_gateio m env in
  (remote !! sym = None ->
   open_positions m' !! sym = open_positions m !! sym) /\
  (forall pos_data : RealPosition,
      remote !! sym = Some pos_data ->
      exists p : Position,
        open_positions m' !! sym = Some p /\
        pos_size p = real_size pos_data /\
        pos_side p = real_side pos_data /\
        pos_entry_price p = real_entry_price pos_data /\
        pos_entry_spread p = 0%Q /\
        pos_entry_time p = sync_clock env sym /\
        pos_order_id p = synced /\
        partial_closed p = false).
Proof.
  intros remote m'. subst remote m'. split.
  - intros Hnone. now rewrite sync_lookup, Hnone.
  - intros pos_data Hsome. eexists. rewrite sync_lookup, Hsome.
    repeat split.
Qed.

(** C3 as stated fails: the ledger tracks BTC_USDT, the snapshot is empty,
    and after the sync the position is still tracked, unchanged. *)
Lemma sync_keeps_vanished_position :
  let env := {| sync_snapshot := nothing_open 100;
                sync_clock := fun _ => 100%Q |} in
  open_positions tracking_btc !! "BTC_USDT" = Some btc_position /\
  forced_snapshot tracking_btc (sync_snapshot env) !! "BTC_USDT" = None /\
  open_positions (sync_positions_from_gateio tracking_btc env) !! "BTC_USDT"
    = Some btc_position.
Proof.
  intros env. split; [reflexivity|]. split; [reflexivity|].
  now rewrite sync_lookup.
Qed.

(** *** Closing a position the exchange no longer reports *)

(** C10: [close_position] on a symbol that is tracked locally but absent
    from the forced snapshot removes the local entry, hands no order to the
    exchange, logs no trade and returns [None]; everything else but the
    snapshot cache stays. *)
Theorem close_position_vanished (m : GateIOTradingManager) (sym : string)
    (exit_price spread : Q) (env : CloseEnv) :
  is_Some (open_positions m !! sym) ->
  forced_snapshot m (close_snapshot env) !! sym = None ->
  let m' := fst (close_position m sym exit_price spread env) in
  snd (close_position m sym exit_price spread env) = None /\
  open_positions m' = delete sym (open_positions m) /\
  open_positions m' !! sym = None /\
  submitted m' = submitted m /\
  triggers m' = triggers m /\
  analytics m' = analytics m.
Proof.
  intros [position Hpos] Hgone. unfold close_position, forced_snapshot in *.
  rewrite Hpos.
  snapshot m (close_snapshot env). simpl in Hgone. rewrite Hgone. simpl.
  rewrite Hops. repeat split; try assumption.
  apply lookup_delete_eq.
Qed.

(** C10 on the example: BTC_USDT is tracked, the exchange reports nothing. *)
Lemma close_position_vanished_witness :
  let env := {| close_snapshot := nothing_open 100; close_order := Some 7;
                close_history := Some [Some 1%Q]; close_time := 101 |} in
  let m' := fst (close_position tracking_btc "BTC_USDT" 110 0 env) in
  snd (close_position tracking_btc "BTC_USDT" 110 0 env) = None /\
  open_positions m' = delete "BTC_USDT" (open_positions tracking_btc) /\
  open_positions m' !! "BTC_USDT" = None /\
  submitted m' = submitted tracking_btc /\
  triggers m' = triggers tracking_btc /\
  analytics m' = analytics tracking_btc.
Proof.
  intros env.
  apply (close_position_vanished tracking_btc "BTC_USDT" 110 0 env).
  - exists btc_position. reflexivity.
  - reflexivity.
Defined.

(** *** One position per symbol *)

Lemma filter_absent {A : Type} (l : list (string * A)) (sym : string) :
  sym ∉ l.*1 -> filter (fun e => e.1 = sym) l = [].
Proof.
  induction l as [|[k v] l IH]; simpl; intros Hout; [reflexivity|].
  apply not_elem_of_cons in Hout as [Hne Hout].
  rewrite filter_cons. destruct (decide ((k, v).1 = sym)) as [Heq | _].
  - simpl in Heq. congruence.
  - now apply IH.
Qed.

Lemma at_most_one_entry {A : Type} (l : list (string * A)) (sym : string) :
  NoDup (l.*1) ->
  (length (filter (fun e => e.1 = sym) l) <= 1)%nat.
Proof.
  induction l as [|[k v] l IH]; simpl; intros Hnd; [lia|].
  apply NoDup_cons in Hnd as [Hfresh Hnd].
  rewrite filter_cons. destruct (decide ((k, v).1 = sym)) as [Heq | Hne].
  - simpl in Heq. subst k. simpl.
    rewrite filter_absent by assumption. simpl. lia.
  - now apply IH.
Qed.

(** C1 (as the code has it): in every state the ledger reaches, the
    entries of [open_positions] hold at most one Position per symbol.
    [open_position] refuses a symbol the forced snapshot reports, leaving
    ledger and order history untouched; it makes no membership test on the
    local map, so an accepted open is one whose symbol the snapshot lacks,
    and it writes the single entry of that symbol (replacing a stale local
    one, if any).  While every tracked symbol is also reported by the
    snapshot, an attempt for a tracked symbol is therefore refused. *)
Theorem open_position_one_per_symbol (m0 : GateIOTradingManager)
    (ops : list LedgerOp) (opp : SpreadOpportunity) (env : OpenEnv)
    (sym : string) :
  let m := run_ops m0 ops in
  let m' := fst (open_position m opp env) in
  (length (filter (fun e => e.1 = sym) (map_to_list (open_positions m')))
   <= 1)%nat /\
  (is_Some (forced_snapshot m (open_snapshot env) !! symbol opp) ->
   snd (open_position m opp env) = false /\ same_but_cache m m') /\
  (snd (open_position m opp env) = true ->
   forced_snapshot m (open_snapshot env) !! symbol opp = None /\
   exists p : Position,
     open_positions m' = <[symbol opp := p]> (open_positions m)) /\
  (snd (open_position m opp env) = false ->
   open_positions m' = open_positions m) /\
  (dom (open_positions m) ⊆ dom (forced_snapshot m (open_snapshot env)) ->
   is_Some (open_positions m !! symbol opp) ->
   snd (open_position m opp env) = false /\ same_but_cache m m').
Proof.
  intros m m'. split; [|split; [|split; [|split]]].
  5: { intros Hsync Hlocal. apply open_position_blocked.
       apply elem_of_dom, Hsync, elem_of_dom, Hlocal. }
  - apply at_most_one_entry, NoDup_fst_map_to_list.
  - apply open_position_blocked.
  - intros Hok.
    pose proof (open_position_effect m opp env) as (_ & _ & _ & H).
    rewrite Hok in H. destruct H as (_ & Hsnap & p & o & Hp & _).
    split; [exact Hsnap|]. now exists p.
  - intros Hno.
    pose proof (open_position_effect m opp env) as (_ & _ & _ & H).
    now rewrite Hno in H.
Qed.

(** C1 as stated fails: BTC_USDT is already open in the local map, the
    forced snapshot does not report it, and the open attempt is accepted:
    an opening order for 4000 contracts goes out and the local entry is
    replaced. *)
Lemma open_position_ignores_local_entry :
  open_positions tracking_btc !! "BTC_USDT" = Some btc_position /\
  snd (open_position tracking_btc btc_long accepting) = true /\
  submitted (fst (open_position tracking_btc btc_long accepting)) =
    [{| fo_contract := "BTC_USDT"; fo_size := 4000; fo_price := "0";
        fo_tif := "ioc"; fo_text := "t-spread"; fo_reduce_only := false |}] /\
  (pos_order_id <$>
     open_positions (fst (open_position tracking_btc btc_long accepting))
       !! "BTC_USDT") = Some (order_no 42).
Proof.
  split; [reflexivity|]. split; [vm_compute; reflexivity|].
  split; vm_compute; reflexivity.
Qed.

(** *** The cap on the number of positions *)

(** An operation other than the sync keeps [max_positions] and leaves the
    count at or below the larger of the old count and the cap. *)
Lemma apply_op_count (m : GateIOTradingManager) (op : LedgerOp) :
  is_sync op = false ->
  max_positions (apply_op m op) = max_positions m /\
  position_count (apply_op m op)
    <= Z.max (position_count m) (max_positions m).
Proof.
  intros Hop.
  assert (Hexit : forall (sym : string) (m' : GateIOTradingManager),
             exit_step sym m m' ->
             max_positions m' = max_positions m /\
             position_count m' <= Z.max (position_count m) (max_positions m)).
  { intros sym m' Hstep. split; [apply Hstep|].
    apply exit_step_count in Hstep. lia. }
  destruct op as [opp env | sym p s env | sym p s pc env | sym s p tp env
                 | env]; simpl in *; try discriminate Hop.
  - pose proof (open_position_effect m opp env) as (Hmax & _ & _ & H).
    split; [exact Hmax|].
    destruct (snd (open_position m opp env)).
    + destruct H as (Hcan & _ & p & o & Hp & _).
      unfold can_open_position in Hcan. apply Z.ltb_lt in Hcan.
      unfold position_count. rewrite Hp, map_size_insert.
      destruct (open_positions m !! symbol opp); simpl; lia.
    + unfold position_count. rewrite H. lia.
  - eapply Hexit, close_position_step.
  - eapply Hexit, close_partial_position_step.
  - eapply Hexit, check_exit_conditions_step.
Qed.

(** The count after a sync: the symbols tracked before together with the
    symbols of the snapshot, whatever [max_positions] says. *)
Lemma sync_count (m : GateIOTradingManager) (env : SyncEnv) :
  size (open_positions (sync_positions_from_gateio m env)) =
  size (dom (open_positions m)
        ∪ dom (forced_snapshot m (sync_snapshot env))).
Proof.
  rewrite <- (size_dom (D := gset string)). f_equal.
  apply set_eq. intros k.
  rewrite elem_of_union, !elem_of_dom, sync_lookup.
  destruct (forced_snapshot m (sync_snapshot env) !! k) as [r|].
  - split; [intros _; right; now eexists | intros _; now eexists].
  - split; [now left | intros [H | [? H]]; [exact H | discriminate H]].
Qed.

(** C2 (as the code has it): starting at or below the cap, every sequence
    of opens, closes, partial closes and exit checks leaves the number of
    tracked positions at or below [max_positions] after each operation;
    [open_position] adds a symbol only while the count is below the cap.
    The sync is outside this guarantee: it tracks every symbol of the
    snapshot besides those tracked before, with no regard to the cap. *)
Theorem position_count_capped_between_syncs (m : GateIOTradingManager)
    (ops : list LedgerOp) :
  forallb (fun op => negb (is_sync op)) ops = true ->
  position_count m <= max_positions m ->
  (forall performed : list LedgerOp,
      performed `prefix_of` ops ->
      position_count (run_ops m performed) <= max_positions m /\
      max_positions (run_ops m performed) = max_positions m) /\
  (forall env : SyncEnv,
      size (open_positions (sync_positions_from_gateio m env)) =
      size (dom (open_positions m)
            ∪ dom (forced_snapshot m (sync_snapshot env)))).
Proof.
  intros Hops Hcap. split; [|apply sync_count].
  intros performed [rest ->].
  rewrite forallb_app in Hops. apply andb_true_iff in Hops as [Hdone _].
  clear rest. revert m Hcap Hdone.
  induction performed as [|op performed IH]; intros m Hcap Hdone; simpl in *.
  - split; [exact Hcap | reflexivity].
  - apply andb_true_iff in Hdone as [Hop Hdone].
    apply negb_true_iff in Hop.
    destruct (apply_op_count m op Hop) as [Hmax Hcount].
    destruct (IH (apply_op m op)) as [H1 H2]; [lia | exact Hdone |].
    unfold run_ops in *. split; congruence.
Qed.

(** C2 on an open followed by a close, from the empty ledger. *)
Lemma position_count_capped_between_syncs_witness :
  let ops := [OpOpen btc_long accepting; OpClose "BTC_USDT" 100 0 closing] in
  position_count (run_ops example_manager (take 1 ops)) = 1 /\
  position_count (run_ops example_manager (take 1 ops))
    <= max_positions example_manager /\
  position_count (run_ops example_manager ops)
    <= max_positions example_manager.
Proof.
  intros ops.
  destruct (position_count_capped_between_syncs example_manager ops)
    as [Hcap _]; [reflexivity | vm_compute; discriminate |].
  split; [vm_compute; reflexivity|]. split.
  - apply Hcap. now exists [OpClose "BTC_USDT" 100 0 closing].
  - apply Hcap. reflexivity.
Defined.

(** C2 as stated fails: with [max_positions] 1 and an empty ledger, a sync
    against an account holding two positions leaves two tracked. *)
Lemma sync_exceeds_cap :
  let m := new_GateIOTradingManager 2 20 1 2 in
  let env := {| sync_snapshot := two_open; sync_clock := fun _ => 100%Q |} in
  position_count m = 0 /\
  max_positions (run_ops m [OpSync env]) = 1 /\
  position_count (run_ops m [OpSync env]) = 2.
Proof.
  intros m env. split; [reflexivity|]. split; [reflexivity|].
  vm_compute. reflexivity.
Qed.

(** ** Exit policy *)

Lemma partial_orders_app (sym : string) (l1 l2 : list FuturesOrder) :
  partial_orders sym (l1 ++ l2) = partial_orders sym l1 ++ partial_orders sym l2.
Proof. apply filter_app. Qed.

Lemma partial_orders_other (sym : string) (new : list FuturesOrder) :
  Forall (fun o => fo_contract o <> sym \/ fo_text o <> "t-partial") new ->
  partial_orders sym new = [].
Proof.
  induction new as [|o new IH]; intros H; [reflexivity|].
  apply Forall_cons in H as [Ho H]. unfold partial_orders in *.
  rewrite filter_cons. destruct (decide _) as [[H1 H2] | _]; [|now apply IH].
  destruct Ho; contradiction.
Qed.

(** [int(a / b)] for integers [a] and [b > 0]: the quotient with the
    fraction dropped. *)
Lemma py_int_ratio (a : Z) (b : positive) :
  py_int (inject_Z a / inject_Z (Zpos b)) = a ÷ Zpos b.
Proof.
  unfold py_int.
  assert (Hval : (inject_Z a / inject_Z (Zpos b))%Q = (a * 1) # b)
    by reflexivity.
  rewrite Hval. clear Hval.
  destruct (Qlt_bool ((a * 1) # b) 0) eqn:E.
  - apply Qlt_bool_iff in E. unfold Qlt in E. simpl in E.
    unfold Qceiling, Qfloor, Qopp. simpl.
    rewrite Z.mul_1_r in *.
    rewrite <- (Z.opp_involutive a) at 2.
    rewrite Z.quot_opp_l by lia.
    rewrite Z.quot_div_nonneg by lia. reflexivity.
  - apply Qlt_bool_false_iff in E. unfold Qle in E. simpl in E.
    unfold Qfloor. rewrite Z.mul_1_r in *.
    rewrite Z.quot_div_nonneg by lia. reflexivity.
Qed.

(** [close_position]: the orders it sends are closing orders, and the
    entry of its symbol is afterwards gone or as before. *)
Lemma close_position_entry (m : GateIOTradingManager) (sym : string)
    (exit_price spread : Q) (env : CloseEnv) :
  let m' := fst (close_position m sym exit_price spread env) in
  (exists new : list FuturesOrder,
      submitted m' = submitted m ++ new /\
      Forall (fun o => fo_text o = "t-close") new) /\
  (open_positions m' !! sym = None \/
   open_positions m' !! sym = open_positions m !! sym).
Proof.
  unfold close_position.
  destruct (open_positions m !! sym) as [position|] eqn:Hpos; simpl.
  2: { split; [|now right]. exists []. now rewrite app_nil_r. }
  snapshot m (close_snapshot env).
  destruct (real !! sym) as [real_pos|]; simpl.
  - destruct (close_order env) as [id|]; simpl.
    + destruct (log_trade _ _) as [a pnl_data]. simpl. split.
      * eexists [_]. rewrite Hsub. split; [reflexivity|].
        constructor; [reflexivity | constructor].
      * left. apply lookup_delete_eq.
    + split.
      * eexists [_]. rewrite Hsub. split; [reflexivity|].
        constructor; [reflexivity | constructor].
      * right. now rewrite Hops.
  - split.
    + exists []. rewrite Hsub. now rewrite app_nil_r.
    + left. apply lookup_delete_eq.
Qed.

Lemma full_exit_entry (m : GateIOTradingManager) (sym : string)
    (current_spread exit_price : Q) (env : ExitEnv) :
  let m' := fst (full_exit m sym current_spread exit_price env) in
  (exists new : list FuturesOrder,
      submitted m' = submitted m ++ new /\
      Forall (fun o => fo_text o = "t-close") new) /\
  (open_positions m' !! sym = None \/
   open_positions m' !! sym = open_positions m !! sym).
Proof.
  unfold full_exit. destruct (Qle_bool _ _).
  - pose proof (close_position_entry m sym exit_price current_spread
                  (exit_close env)) as H.
    now destruct (close_position _ _ _ _ _).
  - simpl. split; [|now right]. exists []. now rewrite app_nil_r.
Qed.

(** [close_partial_position] returning a trade: the symbol was tracked and
    reported, half the reported size was at least one contract, the
    exchange took one partial-close order of that size, and the tracked
    size is the reported size less the part closed. *)
Lemma close_partial_position_done (m m1 : GateIOTradingManager)
    (sym : string) (exit_price spread : Q) (env : CloseEnv) (r : PnlData) :
  close_partial_position m sym exit_price spread 50 env = (m1, Some r) ->
  exists (p : Position) (real_pos : RealPosition) (id : Z),
    open_positions m !! sym = Some p /\
    forced_snapshot m (close_snapshot env) !! sym = Some real_pos /\
    close_order env = Some id /\
    let partial_size := (real_size real_pos * 50) ÷ 100 in
    partial_size <> 0 /\
    submitted m1 =
      submitted m ++ [partial_order sym (pos_side p) partial_size] /\
    open_positions m1 =
      alter (set_pos_size (real_size real_pos - partial_size)) sym
        (open_positions m) /\
    triggers m1 = triggers m.
Proof.
  unfold close_partial_position, forced_snapshot.
  destruct (open_positions m !! sym) as [position|] eqn:Hpos;
    [|intros H; discriminate H].
  snapshot m (close_snapshot env). simpl.
  destruct (real !! sym) as [real_pos|]; [|intros H; discriminate H].
  change (inject_Z (real_size real_pos * 50) / 100)%Q
    with (inject_Z (real_size real_pos * 50) / inject_Z (Zpos 100))%Q.
  rewrite py_int_ratio.
  destruct (Z.eqb_spec ((real_size real_pos * 50) ÷ 100) 0) as [|Hnz];
    [intros H; discriminate H|].
  destruct (close_order env) as [id|]; [|intros H; discriminate H].
  destruct (log_trade _ _) as [a pnl_data]. intros [= <- ->].
  exists position, real_pos, id. simpl. rewrite Hops, Hsub.
  repeat split; assumption.
Qed.

(** [close_partial_position] returning nothing leaves the flag of the
    entry as it was. *)
Lemma close_partial_position_failed (m m1 : GateIOTradingManager)
    (sym : string) (exit_price spread : Q) (percent : Z) (env : CloseEnv) :
  close_partial_position m sym exit_price spread percent env = (m1, None) ->
  partial_closed <$> open_positions m1 !! sym =
  partial_closed <$> open_positions m !! sym.
Proof.
  unfold close_partial_position.
  destruct (open_positions m !! sym) as [position|] eqn:Hpos;
    [|intros [= <-]; now rewrite Hpos].
  snapshot m (close_snapshot env).
  assert (Hsame : partial_closed <$> open_positions m0 !! sym =
                  partial_closed <$> Some position)
    by now rewrite Hops, Hpos.
  destruct (real !! sym) as [real_pos|]; [|now intros [= <-]].
  destruct (py_int _ =? 0); [now intros [= <-]|].
  destruct (close_order env) as [id|]; [|intros [= <-]; exact Hsame].
  destruct (log_trade _ _) as [a pnl_data]. intros [= <- _]. simpl.
  rewrite lookup_alter_eq, Hops, Hpos. reflexivity.
Qed.

(** [set_stop_loss_at_entry] sends no order through
    [create_futures_order]; it leaves the ledger alone or, acknowledged,
    records the id of the trigger order on the entry. *)
Lemma set_stop_loss_at_entry_entry (m : GateIOTradingManager) (sym : string)
    (env : StopEnv) :
  let m' := fst (set_stop_loss_at_entry m sym env) in
  submitted m' = submitted m /\
  ((open_positions m' = open_positions m /\ triggers m' = triggers m) \/
   (exists id : Z,
       stop_order env = Some id /\
       open_positions m' =
         alter (set_stop_loss_order_id id) sym (open_positions m))).
Proof.
  unfold set_stop_loss_at_entry.
  destruct (open_positions m !! sym) as [position|] eqn:Hpos; simpl;
    [|split; [reflexivity | now left]].
  snapshot m (stop_snapshot env).
  destruct (real !! sym) as [real_pos|]; simpl;
    [|split; [assumption | now left]].
  destruct (stop_order env) as [id|]; simpl;
    [|split; [assumption | now left]].
  split; [assumption|]. right. exists id. now rewrite Hops.
Qed.

(** Once [partial_closed] is set, [check_exit_conditions] is the full-exit
    rule alone. *)
Lemma check_exit_conditions_guarded (m : GateIOTradingManager) (sym : string)
    (current_spread exit_price take_profit_roi : Q) (env : ExitEnv)
    (p : Position) :
  open_positions m !! sym = Some p -> partial_closed p = true ->
  check_exit_conditions m sym current_spread exit_price take_profit_roi env =
  match calculate_unrealized_pnl m sym exit_price with
  | Raised => (m, Raised)
  | Returned _ => full_exit m sym current_spread exit_price env
  end.
Proof.
  intros Hp Hflag. rewrite check_exit_conditions_unfold, Hp, Hflag.
  destruct (calculate_unrealized_pnl m sym exit_price); [|reflexivity].
  now rewrite andb_false_r.
Qed.

Lemma closing_orders_not_partial (sym : string) (new : list FuturesOrder) :
  Forall (fun o => fo_text o = "t-close") new ->
  partial_orders sym new = [].
Proof.
  intros H. apply partial_orders_other.
  eapply Forall_impl; [exact H|]. intros o Ho. right. rewrite Ho.
  discriminate.
Qed.

Lemma foreign_orders_not_partial (sym other : string)
    (new : list FuturesOrder) :
  other <> sym ->
  Forall (fun o => fo_contract o = other) new ->
  partial_orders sym new = [].
Proof.
  intros Hne H. apply partial_orders_other.
  eapply Forall_impl; [exact H|]. intros o Ho. left. congruence.
Qed.

(** A step on another symbol neither touches the flag of [sym] nor sends a
    partial close for it. *)
Lemma exit_step_foreign (sym other : string) (m m' : GateIOTradingManager) :
  other <> sym -> exit_step other m m' -> partial_taken sym m ->
  partial_taken sym m' /\
  partial_orders sym (submitted m') = partial_orders sym (submitted m).
Proof.
  intros Hne (_ & _ & _ & _ & Hother & _ & new & Hnew & Hall) Htaken. split.
  - intros p Hp. apply Htaken. rewrite <- Hother; [exact Hp | congruence].
  - rewrite Hnew, partial_orders_app.
    rewrite (foreign_orders_not_partial sym other new) by assumption.
    apply app_nil_r.
Qed.

(** With the flag set, a tick on [sym] keeps it set and sends no partial
    close. *)
Lemma tick_guarded (sym : string) (m : GateIOTradingManager) (op : LedgerOp) :
  is_tick op = true -> partial_taken sym m ->
  partial_taken sym (apply_op m op) /\
  partial_orders sym (submitted (apply_op m op)) =
  partial_orders sym (submitted m).
Proof.
  intros Hop Htaken.
  assert (Hclose : forall m' : GateIOTradingManager,
             (exists new : list FuturesOrder,
                 submitted m' = submitted m ++ new /\
                 Forall (fun o => fo_text o = "t-close") new) /\
             (open_positions m' !! sym = None \/
              open_positions m' !! sym = open_positions m !! sym) ->
             partial_taken sym m' /\
             partial_orders sym (submitted m') =
             partial_orders sym (submitted m)).
  { intros m' [(new & Hnew & Hall) Hentry]. split.
    - intros p Hp. destruct Hentry as [H | H]; rewrite H in Hp;
        [discriminate Hp | now apply Htaken].
    - rewrite Hnew, partial_orders_app.
      rewrite (closing_orders_not_partial sym new) by assumption.
      apply app_nil_r. }
  destruct op as [opp env | s p sp env | s p sp pc env | s sp p tp env
                 | env]; simpl in *; try discriminate Hop.
  - destruct (decide (s = sym)) as [-> | Hne].
    + apply Hclose, close_position_entry.
    + eapply exit_step_foreign; eauto using close_position_step.
  - destruct (decide (s = sym)) as [-> | Hne].
    + destruct (open_positions m !! sym) as [q|] eqn:Hq.
      * rewrite (check_exit_conditions_guarded m sym sp p tp env q Hq)
          by now apply Htaken.
        destruct (calculate_unrealized_pnl m sym p); [|now split].
        apply Hclose. rewrite <- Hq. apply full_exit_entry.
      * rewrite check_exit_conditions_unfold, Hq. now split.
    + eapply exit_step_foreign; eauto using check_exit_conditions_step.
Qed.

(** With the flag set, no sequence of ticks sends a partial close for the
    position again. *)
Lemma ticks_guarded (sym : string) (ops : list LedgerOp) :
  forallb is_tick ops = true ->
  forall m : GateIOTradingManager,
    partial_taken sym m ->
    partial_taken sym (run_ops m ops) /\
    partial_orders sym (submitted (run_ops m ops)) =
    partial_orders sym (submitted m).
Proof.
  induction ops as [|op ops IH]; intros Hops m Htaken; simpl in *.
  - now split.
  - apply andb_true_iff in Hops as [Hop Hops].
    destruct (tick_guarded sym m op Hop Htaken) as [H1 H2].
    destruct (IH Hops (apply_op m op) H1) as [H3 H4].
    unfold run_ops in *. split; [exact H3 | congruence].
Qed.

(** C8 (as the code has it): the take-profit rule fires at most once per
    position.  On a position whose flag is unset and whose unrealized ROI
    has reached the take-profit threshold, [check_exit_conditions] attempts
    a partial close of 50%.  When that goes through (the symbol is reported
    by the exchange, half the reported size with the fraction dropped is
    not 0, the order is taken), exactly one reduce-only order of that size
    is sent, the call returns its trade, the tracked size becomes the
    reported size less the part closed, [partial_closed] becomes true, and
    over every later sequence of ticks no further partial close is sent for
    the position whatever the ROI; a stop that could not be armed leaves
    size, flag and trigger history as the partial close left them.  When
    the partial close does not go through, the flag stays unset and the call
    goes on to the full-exit rule. *)
Theorem take_profit_fires_once (m : GateIOTradingManager) (sym : string)
    (p : Position) (u : UnrealizedPnl)
    (current_spread exit_price take_profit_roi : Q) (env : ExitEnv)
    (later : list LedgerOp) :
  open_positions m !! sym = Some p ->
  partial_closed p = false ->
  calculate_unrealized_pnl m sym exit_price = Returned u ->
  (take_profit_roi <= u_roi_pct u)%Q ->
  forallb is_tick later = true ->
  let result :=
    check_exit_conditions m sym current_spread exit_price take_profit_roi
      env in
  let m' := fst result in
  match close_partial_position m sym exit_price current_spread 50
          (exit_partial env) with
  | (m1, Some r) =>
      exists (real_pos : RealPosition) (p' : Position),
        forced_snapshot m (close_snapshot (exit_partial env)) !! sym
          = Some real_pos /\
        let partial_size := (real_size real_pos * 50) ÷ 100 in
        partial_size <> 0 /\
        snd result = Returned (Some r) /\
        submitted m' =
          submitted m ++ [partial_order sym (pos_side p) partial_size] /\
        open_positions m' !! sym = Some p' /\
        partial_closed p' = true /\
        pos_size p' = real_size real_pos - partial_size /\
        (stop_order (exit_stop env) = None ->
         triggers m' = triggers m /\
         stop_loss_order_id p' = stop_loss_order_id p) /\
        partial_taken sym (run_ops m' later) /\
        partial_orders sym (submitted (run_ops m' later)) =
          partial_orders sym (submitted m)
          ++ [partial_order sym (pos_side p) partial_size]
  | (m1, None) =>
      result = full_exit m1 sym current_spread exit_price env /\
      (forall p' : Position,
          open_positions m' !! sym = Some p' -> partial_closed p' = false)
  end.
Proof.
  intros Hp Hflag Hu Hroi Hlater result m'. subst result m'.
  rewrite check_exit_conditions_unfold, Hp, Hu, Hflag.
  rewrite (Qle_bool_true _ _ Hroi). simpl.
  destruct (close_partial_position m sym exit_price current_spread 50
              (exit_partial env)) as [m1 [r|]] eqn:Hpartial; simpl.
  - apply close_partial_position_done in Hpartial
      as (p0 & real_pos & id & Hp0 & Hsnap & _ & Hnz & Hsub & Hops & Htrig).
    rewrite Hp in Hp0. injection Hp0 as <-.
    set (partial_size := (real_size real_pos * 50) ÷ 100) in *.
    set (m2 := with_open_positions m1
                 (alter set_partial_closed sym (open_positions m1))).
    pose proof (set_stop_loss_at_entry_entry m2 sym (exit_stop env))
      as [Hsub3 Hstop].
    set (m3 := fst (set_stop_loss_at_entry m2 sym (exit_stop env))) in *.
    assert (Hentry2 :
              open_positions m2 !! sym =
              Some (set_partial_closed
                      (set_pos_size (real_size real_pos - partial_size) p))).
    { subst m2. simpl. rewrite Hops, !lookup_alter_eq, Hp. reflexivity. }
    assert (Hentry3 : exists p' : Position,
               open_positions m3 !! sym = Some p' /\
               partial_closed p' = true /\
               pos_size p' = real_size real_pos - partial_size /\
               (stop_order (exit_stop env) = None ->
                triggers m3 = triggers m /\
                stop_loss_order_id p' = stop_loss_order_id p)).
    { destruct Hstop as [[Hsame Htr] | (sid & Hsid & Halter)].
      - eexists. rewrite Hsame. split; [exact Hentry2|].
        repeat split. rewrite Htr. subst m2. simpl. exact Htrig.
      - eexists. rewrite Halter, lookup_alter_eq, Hentry2. simpl.
        split; [reflexivity|]. repeat split; congruence. }
    destruct Hentry3 as (p' & Hp' & Hflag' & Hsize' & Hstopped).
    assert (Hsub' : submitted m3 =
                    submitted m ++
                    [partial_order sym (pos_side p) partial_size]).
    { rewrite Hsub3. subst m2. simpl. exact Hsub. }
    assert (Htaken : partial_taken sym m3).
    { intros q Hq. rewrite Hp' in Hq. now injection Hq as <-. }
    destruct (ticks_guarded sym later Hlater m3 Htaken) as [Hkept Hnone].
    exists real_pos, p'. repeat split; try assumption.
    + now apply Hstopped.
    + now apply Hstopped.
    + rewrite Hnone, Hsub', partial_orders_app. f_equal.
      unfold partial_orders. rewrite filter_cons.
      destruct (decide _) as [_ | Hno]; [reflexivity|].
      exfalso. apply Hno. now split.
  - split; [reflexivity|].
    apply close_partial_position_failed in Hpartial.
    rewrite Hp in Hpartial. simpl in Hpartial.
    pose proof (full_exit_entry m1 sym current_spread exit_price env)
      as [_ Hentry].
    intros p' Hp'. destruct Hentry as [H | H]; rewrite H in Hp'.
    + discriminate Hp'.
    + rewrite Hp' in Hpartial. simpl in Hpartial. congruence.
Qed.

(** C8 on BTC_USDT: 1000 contracts entered at 100, price 110 (ROI 200),
    then a later tick at price 120 (ROI 400). *)
Lemma take_profit_fires_once_witness :
  let m' :=
    fst (check_exit_conditions tracking_btc "BTC_USDT" 5 110 50
           (exit_answers 300 1000)) in
  let later := [OpCheckExit "BTC_USDT" 5 120 50 (exit_answers 400 500)] in
  exists p' : Position,
    open_positions m' !! "BTC_USDT" = Some p' /\
    partial_closed p' = true /\
    pos_size p' = 500 /\
    submitted m' = [partial_order "BTC_USDT" long 500] /\
    partial_orders "BTC_USDT" (submitted (run_ops m' later)) =
      [partial_order "BTC_USDT" long 500].
Proof.
  intros m' later.
  pose proof (take_profit_fires_once tracking_btc "BTC_USDT" btc_position
                {| u_pnl_usd := 1000 * (110 - 100) * (1 # 10000);
                   u_roi_pct :=
                     1000 * (110 - 100) * (1 # 10000)
                     / (1000 * 100 * (1 # 10000) / 20) * 100;
                   u_pnl_cents := 1000 * (110 - 100) * (1 # 10000) * 100 |}
                5 110 50 (exit_answers 300 1000) later
                eq_refl eq_refl eq_refl) as H.
  cbv zeta in H.
  destruct (close_partial_position tracking_btc "BTC_USDT" 110 5 50
              (exit_partial (exit_answers 300 1000)))
    as [m1 [r|]] eqn:E; [|vm_compute in E; discriminate E].
  destruct H as (real_pos & p' & Hsnap & _ & _ & Hsub & Hp' & Hflag & Hsize
                 & _ & _ & Hlater);
    [vm_compute; discriminate | reflexivity |].
  vm_compute in Hsnap. injection Hsnap as <-.
  exists p'. repeat split; assumption.
Defined.

(** C8 as stated fails: a position of one contract reaches an ROI of 200
    with the take-profit threshold at 50; half of one contract is 0
    contracts, so no partial close is sent and the flag stays unset (the
    spread of 5 is above the exit threshold, so nothing else happens). *)
Lemma take_profit_skips_single_contract :
  let result :=
    check_exit_conditions tracking_single "BTC_USDT" 5 110 50
      (exit_answers 300 1) in
  (exists u : UnrealizedPnl,
      calculate_unrealized_pnl tracking_single "BTC_USDT" 110 = Returned u /\
      (u_roi_pct u == 200)%Q) /\
  snd result = Returned None /\
  submitted (fst result) = [] /\
  open_positions (fst result) !! "BTC_USDT" = Some single_contract.
Proof.
  intros result. split.
  - eexists. split; [vm_compute; reflexivity | reflexivity].
  - subst result. split; [vm_compute; reflexivity|].
    split; vm_compute; reflexivity.
Qed.

(** *** Reversal *)

(** The reversal rule of [on_ticker_update]: once the prices no longer
    stand the way the position needs them (equal prices included), the
    spread handed to the exit check is 0. *)
Lemma exit_spread_reversed (s : Side) (mark last : Q) :
  match s with
  | long => (mark <= last)%Q
  | short => (last <= mark)%Q
  end ->
  exit_spread s mark last = 0%Q.
Proof.
  intros H. unfold exit_spread.
  destruct s; now rewrite Qlt_bool_false.
Qed.

(** Where the take-profit rule does not step in (the flag is set, or the
    ROI is below the threshold), a spread of 0 against a non-negative exit
    threshold makes [check_exit_conditions] call [close_position]. *)
Lemma reversal_reaches_close_position (m : GateIOTradingManager)
    (sym : string) (p : Position) (u : UnrealizedPnl)
    (exit_price take_profit_roi : Q) (env : ExitEnv) :
  open_positions m !! sym = Some p ->
  calculate_unrealized_pnl m sym exit_price = Returned u ->
  partial_closed p = true \/ (u_roi_pct u < take_profit_roi)%Q ->
  (0 <= exit_spread_threshold m)%Q ->
  check_exit_conditions m sym 0 exit_price take_profit_roi env =
  (fst (close_position m sym exit_price 0 (exit_close env)),
   Returned (snd (close_position m sym exit_price 0 (exit_close env)))).
Proof.
  intros Hp Hu Hskip Hthr.
  rewrite check_exit_conditions_unfold, Hp, Hu.
  assert (Hguard : Qle_bool take_profit_roi (u_roi_pct u)
                   && negb (partial_closed p) = false).
  { destruct Hskip as [-> | Hlow]; [apply andb_false_r|].
    now rewrite (Qle_bool_false _ _ Hlow). }
  rewrite Hguard. unfold full_exit. rewrite (Qle_bool_true _ _ Hthr).
  now destruct (close_position _ _ _ _ _).
Qed.

(** C9 on the code: on the tick where a long position entered at 100 sees
    the reference (105) below the trade price (107), the spread handed to
    the exit check is 0 and the exit threshold is 2, yet the ROI of 140 has
    the take-profit rule run first: the only order of the tick is the
    partial close of 500 contracts, no closing order is sent, and the
    position stays tracked with 500 contracts. *)
Theorem reversal_tick_takes_partial_profit :
  let result := on_ticker_update (bot_with tracking_btc) reversal_tick
                  reversal_answers in
  let after := trading_manager (fst result) in
  exit_spread_used (snd result) = Some 0%Q /\
  exit_spread_threshold tracking_btc = 2%Q /\
  (submitted <$> after) = Some [partial_order "BTC_USDT" long 500] /\
  (filter (fun o => fo_text o = "t-close") <$> (submitted <$> after))
    = Some [] /\
  (after ≫= fun m => pos_size <$> open_positions m !! "BTC_USDT")
    = Some 500 /\
  (t_size <$> trade (snd result)) = Some 500.
Proof.
  intros result after. subst after result.
  split; [vm_compute; reflexivity|].
  split; [reflexivity|].
  split; [vm_compute; reflexivity|].
  split; [vm_compute; reflexivity|].
  split; vm_compute; reflexivity.
Qed.

(** * Further properties of the code *)

(** ** Signal evaluator: symbols do not interfere *)

(** What a call returns depends on the detector only through its two
    settings and the [last_alert] entry of the symbol. *)
Lemma detect_spread_reads (d1 d2 : SpreadDetector) (now stamp : Q)
    (sym : string) (mark last : Q) :
  min_threshold d1 = min_threshold d2 ->
  alert_cooldown d1 = alert_cooldown d2 ->
  last_alert d1 !! sym = last_alert d2 !! sym ->
  snd (detect_spread d1 now stamp sym mark last) =
  snd (detect_spread d2 now stamp sym mark last).
Proof.
  intros Hthr Hcool Hlast. unfold detect_spread, in_cooldown.
  rewrite Hthr, Hcool, Hlast.
  repeat match goal with
         | |- context [if ?b then _ else _] => destruct b
         end; reflexivity.
Qed.

(** X1: the cooldown is kept per symbol.  In any history of calls, what
    the detector answers to the calls for one symbol is what it would have
    answered had the calls for all other symbols never been made. *)
Theorem cooldown_is_per_symbol (d : SpreadDetector) (sym : string)
    (calls : list Call) :
  filter (fun e => c_symbol e.1 = sym) (snd (run d calls)) =
  snd (run d (filter (fun c => c_symbol c = sym) calls)).
Proof.
  enough (Hgen : forall d1 d2 : SpreadDetector,
             min_threshold d1 = min_threshold d2 ->
             alert_cooldown d1 = alert_cooldown d2 ->
             last_alert d1 !! sym = last_alert d2 !! sym ->
             filter (fun e => c_symbol e.1 = sym) (snd (run d1 calls)) =
             snd (run d2 (filter (fun c => c_symbol c = sym) calls)))
    by now apply Hgen.
  clear d.
  induction calls as [|c calls IH]; intros d1 d2 Hthr Hcool Hlast;
    [reflexivity|].
  simpl. unfold call at 1.
  pose proof (detect_spread_config d1 (c_time c) (c_stamp c) (c_symbol c)
                (c_mark c) (c_last c)) as [Hthr1 Hcool1].
  pose proof (detect_spread_last_alert d1 (c_time c) (c_stamp c) (c_symbol c)
                (c_mark c) (c_last c) sym) as Hlast1.
  rewrite filter_cons.
  destruct (decide (c_symbol c = sym)) as [Heq | Hne].
  - simpl. unfold call.
    pose proof (detect_spread_config d2 (c_time c) (c_stamp c) (c_symbol c)
                  (c_mark c) (c_last c)) as [Hthr2 Hcool2].
    pose proof (detect_spread_last_alert d2 (c_time c) (c_stamp c)
                  (c_symbol c) (c_mark c) (c_last c) sym) as Hlast2.
    assert (Hout : snd (detect_spread d1 (c_time c) (c_stamp c) (c_symbol c)
                          (c_mark c) (c_last c)) =
                   snd (detect_spread d2 (c_time c) (c_stamp c) (c_symbol c)
                          (c_mark c) (c_last c))).
    { apply detect_spread_reads; [assumption | assumption |].
      now rewrite Heq. }
    rewrite <- Hout in Hlast2.
    destruct (detect_spread d1 _ _ _ _ _) as [d1' o1].
    destruct (detect_spread d2 _ _ _ _ _) as [d2' o2].
    simpl in *. subst o2.
    specialize (IH d1' d2').
    destruct (run d1' calls) as [e1 h1], (run d2' _) as [e2 h2].
    simpl in *. rewrite filter_cons, decide_True by exact Heq.
    f_equal. apply IH; [congruence | congruence |].
    rewrite Hlast1, Hlast2. destruct o1; [|exact Hlast].
    now rewrite bool_decide_eq_true_2 by exact Heq.
  - assert (Hkeep : last_alert
                      (fst (detect_spread d1 (c_time c) (c_stamp c)
                              (c_symbol c) (c_mark c) (c_last c))) !! sym =
                    last_alert d1 !! sym).
    { rewrite Hlast1. destruct (snd _); [|reflexivity].
      case_bool_decide; [contradiction | reflexivity]. }
    destruct (detect_spread d1 _ _ _ _ _) as [d1' o1]. simpl in *.
    specialize (IH d1' d2).
    destruct (run d1' calls) as [e1 h1]. simpl in *.
    rewrite filter_cons, decide_False by exact Hne.
    apply IH; congruence.
Qed.

(** ** Signal evaluator: what an opportunity carries *)

Lemma spread_positive (hi lo : Q) :
  (0 < lo)%Q -> (lo < hi)%Q -> (0 < (hi - lo) / lo * 100)%Q.
Proof.
  intros Hlo Hlt.
  apply Qmult_lt_0_compat; [|reflexivity].
  apply Qlt_shift_div_l; [assumption|]. lra.
Qed.

(** X2: an opportunity [detect_spread] returns carries the symbol and the
    two prices of the call, both prices positive and distinct, a spread
    that is positive and at least the threshold, the direction Long exactly
    when the reference price is the higher one; the detector then records
    the clock reading of the call for the symbol and changes nothing
    else. *)
Theorem emitted_opportunity_is_sound (d d' : SpreadDetector) (now stamp : Q)
    (sym : string) (mark last : Q) (o : SpreadOpportunity) :
  detect_spread d now stamp sym mark last = (d', Some o) ->
  symbol o = sym /\ mark_price o = mark /\ last_price o = last /\
  timestamp o = stamp /\
  (0 < mark_price o)%Q /\ (0 < last_price o)%Q /\
  (0 < spread_percent o)%Q /\ (min_threshold d <= spread_percent o)%Q /\
  (signal_type o = LONG <-> (last < mark)%Q) /\
  (signal_type o = SHORT <-> (mark < last)%Q) /\
  d' = set_last_alert d sym now.
Proof.
  intros H.
  assert (Hsome : is_Some (snd (detect_spread d now stamp sym mark last)))
    by (rewrite H; now eexists).
  apply detect_spread_emits_iff in Hsome as (Hm & Hl & Hc & Hs).
  destruct Hs as [[Hlt Hthr] | [Hlt Hthr]].
  - rewrite detect_spread_long in H by assumption. simpl in H.
    rewrite (Qle_bool_true _ _ Hthr) in H. injection H as <- <-. simpl.
    repeat split; try assumption;
      solve [ now apply spread_positive
            | intros _; assumption
            | intros Hd; discriminate Hd
            | intros Hd; exfalso; apply (Qlt_irrefl mark);
              now apply Qlt_trans with last ].
  - rewrite detect_spread_short in H by assumption. simpl in H.
    rewrite (Qle_bool_true _ _ Hthr) in H. injection H as <- <-. simpl.
    repeat split; try assumption;
      solve [ now apply spread_positive
            | intros _; assumption
            | intros Hd; discriminate Hd
            | intros Hd; exfalso; apply (Qlt_irrefl mark);
              now apply Qlt_trans with last ].
Qed.

(** X2 at reference 107 and trade 100. *)
Lemma emitted_opportunity_is_sound_witness :
  exists o : SpreadOpportunity,
    snd (detect_spread (new_SpreadDetector 7) 10 11 "BTC_USDT" 107 100)
      = Some o /\
    symbol o = "BTC_USDT" /\ (0 < spread_percent o)%Q /\
    (min_threshold (new_SpreadDetector 7) <= spread_percent o)%Q /\
    (signal_type o = LONG <-> (100 < 107)%Q).
Proof.
  eexists. split; [vm_compute; reflexivity|].
  destruct (emitted_opportunity_is_sound (new_SpreadDetector 7)
              (set_last_alert (new_SpreadDetector 7) "BTC_USDT" 10)
              10 11 "BTC_USDT" 107 100
              {| symbol := "BTC_USDT"; mark_price := 107; last_price := 100;
                 spread_percent := (107 - 100) / 100 * 100;
                 signal_type := LONG; timestamp := 11 |} eq_refl)
    as (H1 & _ & _ & _ & _ & _ & H7 & H8 & H9 & _).
  repeat split; try assumption; apply H9.
Defined.

(** ** Remote snapshot *)

Lemma collect_fold_lookup (k : string) (positions : list RawPosition) :
  forall acc : gmap string RealPosition,
    fold_left
      (fun acc pos =>
         if raw_size pos =? 0 then acc
         else <[contract pos := real_position_of pos]> acc)
      positions acc !! k =
    match last (live_entries k positions) with
    | Some raw => Some (real_position_of raw)
    | None => acc !! k
    end.
Proof.
  induction positions as [|pos positions IH]; intros acc; [reflexivity|].
  simpl. rewrite IH. unfold live_entries. rewrite filter_cons.
  destruct (Z.eqb_spec (raw_size pos) 0) as [Hz | Hnz].
  - rewrite decide_False by tauto. reflexivity.
  - destruct (decide (contract pos = k)) as [Hk | Hk].
    + rewrite decide_True by tauto. rewrite last_cons.
      destruct (last _); [reflexivity|].
      rewrite <- Hk. now rewrite lookup_insert_eq.
    + rewrite decide_False by tauto.
      destruct (last _); [reflexivity|].
      now rewrite lookup_insert_ne.
Qed.

Lemma collect_lookup (positions : list RawPosition) (k : string) :
  collect_real_positions positions !! k =
    real_position_of <$> last (live_entries k positions).
Proof.
  unfold collect_real_positions. rewrite collect_fold_lookup.
  destruct (last _); [reflexivity | apply lookup_empty].
Qed.

Lemma collect_entry (positions : list RawPosition) (k : string)
    (rp : RealPosition) :
  collect_real_positions positions !! k = Some rp ->
  0 < real_size rp /\
  exists raw : RawPosition,
    raw ∈ positions /\ contract raw = k /\
    real_size rp = Z.abs (raw_size raw) /\
    (real_side rp = long <-> 0 < raw_size raw).
Proof.
  intros Hrp. rewrite collect_lookup in Hrp.
  destruct (last (live_entries k positions)) as [raw|] eqn:Hlast;
    [|discriminate Hrp].
  injection Hrp as <-.
  assert (Hin : raw ∈ live_entries k positions).
  { apply last_Some in Hlast as [l' ->]. apply elem_of_app. right.
    apply list_elem_of_here. }
  apply list_elem_of_filter in Hin as [[Hk Hnz] Hin].
  split; [simpl; lia|]. exists raw. repeat split; try assumption.
  - simpl. destruct (Z.ltb_spec 0 (raw_size raw)); [auto | discriminate].
  - simpl. intros Hpos. now apply Z.ltb_lt in Hpos as ->.
Qed.

(** X3: the snapshot built from an answer of [list_positions] holds, per
    contract, the last entry of the answer with a non-zero size, and
    nothing for a contract without such an entry; the size of every
    snapshot entry is positive, and its side is long exactly when the
    signed size reported was positive. *)
Theorem snapshot_holds_last_live_entry (positions : list RawPosition)
    (k : string) :
  collect_real_positions positions !! k =
    real_position_of <$> last (live_entries k positions) /\
  (forall rp : RealPosition,
      collect_real_positions positions !! k = Some rp ->
      0 < real_size rp /\
      exists raw : RawPosition,
        raw ∈ positions /\ contract raw = k /\
        real_size rp = Z.abs (raw_size raw) /\
        (real_side rp = long <-> 0 < raw_size raw)).
Proof.
  split; [apply collect_lookup | apply collect_entry].
Qed.

(** X4: [get_real_positions_cached] always returns the cache as it stands
    after the call and touches nothing but the cache.  An unforced call
    inside the time-to-live answers from the cache whatever the exchange
    would have said; a call whose request fails answers with the stale
    cache; a forced or expired call that the exchange answers replaces the
    cache by the new snapshot and stamps it with the clock reading. *)
Theorem snapshot_cache_behaviour (m : GateIOTradingManager) (force : bool)
    (env : SnapshotEnv) :
  let r := get_real_positions_cached m force env in
  snd r = position_cache (fst r) /\
  same_but_cache m (fst r) /\
  (force = false ->
   (snap_time env - cache_time m < cache_ttl m)%Q ->
   r = (m, position_cache m)) /\
  (snap_positions env = None -> r = (m, position_cache m)) /\
  (forall positions : list RawPosition,
      force = true \/ (cache_ttl m <= snap_time env - cache_time m)%Q ->
      snap_positions env = Some positions ->
      snd r = collect_real_positions positions /\
      cache_time (fst r) = snap_time env).
Proof.
  intros r. subst r. split; [|split; [|split; [|split]]].
  - unfold get_real_positions_cached.
    destruct (negb force && _); [reflexivity|].
    now destruct (snap_positions env).
  - apply get_real_positions_cached_frame.
  - intros -> Hfresh. unfold get_real_positions_cached.
    now rewrite (Qlt_bool_true _ _ Hfresh).
  - intros Hfail. unfold get_real_positions_cached. rewrite Hfail.
    now destruct (negb force && _).
  - intros positions Hdue Hanswer. unfold get_real_positions_cached.
    rewrite Hanswer.
    assert (Hgo : negb force
                  && Qlt_bool (snap_time env - cache_time m) (cache_ttl m)
                  = false).
    { destruct Hdue as [-> | Hold]; [reflexivity|].
      rewrite (Qlt_bool_false _ _ Hold). apply andb_false_r. }
    rewrite Hgo. now split.
Qed.

(** The sizes of a snapshot are positive when those of the cache are. *)
Lemma snapshot_positive (m : GateIOTradingManager) (force : bool)
    (env : SnapshotEnv) :
  cache_wf m ->
  cache_wf (fst (get_real_positions_cached m force env)) /\
  (forall (k : string) (rp : RealPosition),
      snd (get_real_positions_cached m force env) !! k = Some rp ->
      0 < real_size rp).
Proof.
  intros Hwf. unfold get_real_positions_cached.
  destruct (negb force && _); [now split|].
  destruct (snap_positions env) as [positions|]; [|now split].
  simpl. split; intros k rp Hrp;
    now apply (collect_entry positions k).
Qed.

(** ** Opening *)

(** Sizing reads the margin and the leverage of the manager and nothing
    else. *)
Lemma calculate_position_size_config (m m' : GateIOTradingManager)
    (price : Q) (resp : option (option Contract)) :
  position_size_usd m' = position_size_usd m ->
  leverage m' = leverage m ->
  calculate_position_size m' price resp = calculate_position_size m price resp.
Proof.
  intros Husd Hlev. unfold calculate_position_size, fallback_position_size.
  now rewrite Husd, Hlev.
Qed.

(** X5: an [open_position] that returns [True] found room under the cap,
    found the symbol absent from the forced snapshot, and sent exactly one
    order: not reduce-only, of the count sizing returned, made positive for
    a LONG signal and negative for a SHORT one whatever the sign of that
    count.  The entry it writes records the side of the signal, the
    absolute count ordered (not a filled amount), the last price as entry
    price, the spread of the opportunity, the clock reading and the order
    id; the take-profit flag is unset and no trade is logged. *)
Theorem open_position_accepted (m m' : GateIOTradingManager)
    (opp : SpreadOpportunity) (env : OpenEnv) :
  open_position m opp env = (m', true) ->
  exists (sz id : Z) (p : Position),
    can_open_position m = true /\
    forced_snapshot m (open_snapshot env) !! symbol opp = None /\
    calculate_position_size m (last_price opp) (open_contract env) = Some sz /\
    sz <> 0 /\
    open_order env = Some id /\
    submitted m' =
      submitted m ++ [opening_order (symbol opp) (signal_type opp) sz] /\
    (signal_type opp = LONG ->
     0 < fo_size (opening_order (symbol opp) (signal_type opp) sz)) /\
    (signal_type opp = SHORT ->
     fo_size (opening_order (symbol opp) (signal_type opp) sz) < 0) /\
    open_positions m' = <[symbol opp := p]> (open_positions m) /\
    pos_side p = signal_lower (signal_type opp) /\
    pos_size p = Z.abs sz /\
    pos_entry_price p = last_price opp /\
    pos_entry_spread p = spread_percent opp /\
    pos_entry_time p = open_time env /\
    pos_order_id p = order_no id /\
    partial_closed p = false /\
    stop_loss_order_id p = None /\
    analytics m' = analytics m.
Proof.
  unfold open_position, forced_snapshot.
  destruct (can_open_position m) eqn:Hcan; simpl;
    [|intros H; discriminate H].
  snapshot m (open_snapshot env). simpl.
  destruct (real !! symbol opp) eqn:Hreal; [intros H; discriminate H|].
  rewrite (calculate_position_size_config m m1) by assumption.
  destruct (calculate_position_size m (last_price opp) (open_contract env))
    as [sz|] eqn:Hsz; [|intros H; discriminate H].
  destruct (Z.eqb_spec sz 0) as [|Hnz]; [intros H; discriminate H|].
  destruct (open_order env) as [id|]; [|intros H; discriminate H].
  destruct (open_contract_after env) as [c|]; [|intros H; discriminate H].
  intros [= <-]. eexists sz, id, _. simpl. rewrite Hops, Hsub, Han.
  repeat split; try reflexivity; try assumption.
  - intros ->. lia.
  - intros ->. lia.
  - destruct (signal_type opp); simpl; lia.
Qed.

(** X5 on the example exchange: 2 USD at 20x on a price of 100 and a
    multiplier of 0.0001 buys 4000 contracts. *)
Lemma open_position_accepted_witness :
  exists m' : GateIOTradingManager,
    open_position example_manager btc_long accepting = (m', true) /\
    submitted m' = [opening_order "BTC_USDT" LONG 4000] /\
    pos_size <$> open_positions m' !! "BTC_USDT" = Some 4000.
Proof.
  exists (fst (open_position example_manager btc_long accepting)).
  assert (E : open_position example_manager btc_long accepting =
              (fst (open_position example_manager btc_long accepting), true))
    by (vm_compute; reflexivity).
  destruct (open_position_accepted _ _ _ _ E)
    as (sz & id & p & _ & _ & Hsz & _ & _ & Hsub & _ & _ & Hops & _ & Hsize
        & _).
  vm_compute in Hsz. injection Hsz as <-.
  split; [exact E|]. split; [exact Hsub|].
  rewrite Hops, lookup_insert_eq. simpl. now rewrite Hsize.
Defined.

(** X6: an [open_position] that returns [False] leaves the ledger, the
    trade log and the trigger orders as they were.  Either it sent nothing
    (the cap was reached, the forced snapshot holds the symbol, sizing
    raised or returned 0), or it sent the opening order and then the
    exchange rejected it or the contract query that follows the order
    raised: in the last case the order the exchange accepted stays
    untracked. *)
Theorem open_position_refused (m m' : GateIOTradingManager)
    (opp : SpreadOpportunity) (env : OpenEnv) :
  open_position m opp env = (m', false) ->
  open_positions m' = open_positions m /\
  analytics m' = analytics m /\
  triggers m' = triggers m /\
  ((submitted m' = submitted m /\
    (can_open_position m = false \/
     is_Some (forced_snapshot m (open_snapshot env) !! symbol opp) \/
     calculate_position_size m (last_price opp) (open_contract env) = None \/
     calculate_position_size m (last_price opp) (open_contract env) = Some 0))
   \/
   (exists sz : Z,
       calculate_position_size m (last_price opp) (open_contract env)
         = Some sz /\
       sz <> 0 /\
       submitted m' =
         submitted m ++ [opening_order (symbol opp) (signal_type opp) sz] /\
       (open_order env = None \/
        (is_Some (open_order env) /\ open_contract_after env = None)))).
Proof.
  unfold open_position, forced_snapshot.
  destruct (can_open_position m) eqn:Hcan; simpl.
  2: { intros [= <-]. repeat split. left. split; [reflexivity | now left]. }
  snapshot m (open_snapshot env). simpl.
  destruct (real !! symbol opp) eqn:Hreal.
  { intros [= <-]. repeat split; try assumption. left.
    split; [assumption | right; left; now eexists]. }
  rewrite (calculate_position_size_config m m1) by assumption.
  destruct (calculate_position_size m (last_price opp) (open_contract env))
    as [sz|] eqn:Hsz.
  2: { intros [= <-]. repeat split; try assumption. left.
       split; [assumption | right; right; now left]. }
  destruct (Z.eqb_spec sz 0) as [-> | Hnz].
  { intros [= <-]. repeat split; try assumption. left.
    split; [assumption | right; right; now right]. }
  destruct (open_order env) as [id|].
  - destruct (open_contract_after env) as [c|]; [intros H; discriminate H|].
    intros [= <-]. simpl. repeat split; try assumption. right.
    exists sz. rewrite Hsub.
    repeat split; try assumption; try reflexivity.
    right. split; [now eexists | reflexivity].
  - intros [= <-]. simpl. repeat split; try assumption. right.
    exists sz. rewrite Hsub.
    repeat split; try assumption; try reflexivity. now left.
Qed.

(** X6 on an exchange that accepts the order and fails the query after it:
    4000 contracts are bought and nothing is tracked. *)
Lemma open_position_refused_witness :
  exists m' : GateIOTradingManager,
    open_position example_manager btc_long accepting_then_failing
      = (m', false) /\
    open_positions m' = ∅ /\
    submitted m' = [opening_order "BTC_USDT" LONG 4000].
Proof.
  exists (fst (open_position example_manager btc_long accepting_then_failing)).
  assert (E : open_position example_manager btc_long accepting_then_failing =
              (fst (open_position example_manager btc_long
                      accepting_then_failing), false))
    by (vm_compute; reflexivity).
  destruct (open_position_refused _ _ _ _ E) as (Hops & _ & _ & Hcase).
  split; [exact E|]. split; [exact Hops|].
  vm_compute. reflexivity.
Defined.

(** ** Closing *)

Lemma snoc_neq {A : Type} (l : list A) (x : A) : l ++ [x] <> l.
Proof.
  intros H. rewrite <- (app_nil_r l) in H at 2.
  apply app_inv_head in H. discriminate H.
Qed.

(** X7: [close_position] on a tracked position the exchange reports, with
    the order accepted and a non-zero leverage.  One reduce-only order goes
    out, for the size the exchange reports and against the tracked side;
    the entry is removed; one trade is appended to the log and added to the
    daily total.  The trade carries the tracked size, not the size the
    order closed, and its P&L is the figure of the exchange's close history
    when that has an entry, the price difference times tracked size and
    multiplier otherwise. *)
Theorem close_position_filled (m : GateIOTradingManager) (sym : string)
    (exit_price spread : Q) (env : CloseEnv) (p : Position)
    (rp : RealPosition) (id : Z) :
  cache_wf m ->
  open_positions m !! sym = Some p ->
  forced_snapshot m (close_snapshot env) !! sym = Some rp ->
  close_order env = Some id ->
  leverage m <> 0 ->
  exists t : PnlData,
    snd (close_position m sym exit_price spread env) = Some t /\
    let m' := fst (close_position m sym exit_price spread env) in
    open_positions m' = delete sym (open_positions m) /\
    submitted m' =
      submitted m ++ [closing_order sym (pos_side p) (real_size rp)] /\
    0 < real_size rp /\
    trades (analytics m') = trades (analytics m) ++ [t] /\
    daily_pnl (analytics m') = (daily_pnl (analytics m) + pnl_usd t)%Q /\
    t_symbol t = sym /\ t_side t = pos_side p /\
    t_size t = Z.abs (pos_size p) /\
    t_entry_price t = pos_entry_price p /\ t_exit_price t = exit_price /\
    hold_time_seconds t = (close_time env - pos_entry_time p)%Q /\
    pnl_usd t =
      match fetch_real_pnl (close_history env) with
      | Some reported => reported
      | None =>
          formula_pnl (Z.abs (pos_size p))
            (price_diff (pos_side p) (pos_entry_price p) exit_price)
            (pos_quanto_multiplier p)
      end.
Proof.
  intros Hwf Hp Hrp Hid Hlev. unfold close_position, forced_snapshot in *.
  rewrite Hp.
  pose proof (snapshot_positive m true (close_snapshot env) Hwf)
    as [_ Hpos].
  snapshot m (close_snapshot env). simpl in *.
  rewrite Hrp, Hid. unfold log_trade, _calculate_pnl. simpl.
  rewrite Hlev0. destruct (Z.eqb_spec (leverage m) 0) as [|_]; [contradiction|].
  eexists. split; [reflexivity|]. simpl. rewrite Hops, Hsub, Han.
  repeat split. now apply (Hpos sym).
Qed.

(** X7 on [tracking_btc]: the exchange reports 4000 contracts, 1000 are
    tracked; the order sells 4000 and the trade records 1000. *)
Lemma close_position_filled_witness :
  exists t : PnlData,
    snd (close_position tracking_btc "BTC_USDT" 110 0 closing) = Some t /\
    submitted (fst (close_position tracking_btc "BTC_USDT" 110 0 closing)) =
      [closing_order "BTC_USDT" long 4000] /\
    t_size t = 1000 /\ pnl_usd t = 1%Q.
Proof.
  assert (Hwf : cache_wf tracking_btc).
  { intros k rp H. vm_compute in H. discriminate H. }
  destruct (close_position_filled tracking_btc "BTC_USDT" 110 0 closing
              btc_position
              {| real_side := long; real_size := 4000;
                 real_entry_price := 100; real_mark_price := 100;
                 real_unrealised_pnl := 0 |} 43 Hwf)
    as (t & Ht & _ & Hsub & _ & _ & _ & _ & _ & Hsz & _ & _ & _ & Hpnl);
    try (vm_compute; reflexivity).
  { vm_compute. discriminate. }
  exists t. repeat split; assumption.
Defined.

(** X8: what [close_position] answers and leaves, in every case.  It
    returns a trade exactly when the symbol is tracked, the forced snapshot
    holds it, the exchange accepts the order and the leverage is not 0.
    The entry of the symbol is gone afterwards exactly when it was absent,
    or the snapshot lacks the symbol, or the order was accepted: also when
    logging the trade failed.  An order goes out exactly when the symbol is
    tracked and in the snapshot, accepted or not. *)
Theorem close_position_outcome (m : GateIOTradingManager) (sym : string)
    (exit_price spread : Q) (env : CloseEnv) :
  let res := close_position m sym exit_price spread env in
  let reported := forced_snapshot m (close_snapshot env) !! sym in
  (is_Some (snd res) <->
   is_Some (open_positions m !! sym) /\ is_Some reported /\
   is_Some (close_order env) /\ leverage m <> 0) /\
  (open_positions (fst res) !! sym = None <->
   open_positions m !! sym = None \/ reported = None \/
   is_Some (close_order env)) /\
  (submitted (fst res) <> submitted m <->
   is_Some (open_positions m !! sym) /\ is_Some reported).
Proof.
  unfold close_position, forced_snapshot.
  destruct (open_positions m !! sym) as [p|] eqn:Hp; simpl.
  2: { rewrite Hp. split; [|split].
       - split; [intros [? H]; discriminate H|].
         intros ([? H] & _); discriminate H.
       - split; [now left | reflexivity].
       - split; [intros H; now contradiction H|].
         intros ([? H] & _); discriminate H. }
  snapshot m (close_snapshot env). simpl.
  destruct (real !! sym) as [rp|] eqn:Hrp; simpl.
  2: { rewrite lookup_delete_eq, Hsub. split; [|split].
       - split; [intros [? H]; discriminate H|].
         intros (_ & [? H] & _); discriminate H.
       - split; [right; now left | reflexivity].
       - split; [intros H; now contradiction H|].
         intros (_ & [? H]); discriminate H. }
  destruct (close_order env) as [id|]; simpl.
  - unfold log_trade, _calculate_pnl. simpl. rewrite Hlev.
    destruct (Z.eqb_spec (leverage m) 0) as [Hz | Hnz]; simpl;
      rewrite lookup_delete_eq, Hsub.
    + split; [|split].
      * split; [intros [? H]; discriminate H|]. intros (_ & _ & _ & H).
        contradiction.
      * split; [right; right; now eexists | reflexivity].
      * split; [intros _; split; now eexists|]. intros _. apply snoc_neq.
    + split; [|split].
      * split; [|now eexists]. intros _.
        split; [now eexists|]. split; [now eexists|].
        split; [now eexists | assumption].
      * split; [right; right; now eexists | reflexivity].
      * split; [intros _; split; now eexists|]. intros _. apply snoc_neq.
  - rewrite Hops, Hp, Hsub. split; [|split].
    + split; [intros [? H]; discriminate H|].
      intros (_ & _ & [? H] & _); discriminate H.
    + split; [intros H; discriminate H|].
      intros [H | [H | [? H]]]; discriminate H.
    + split; [intros _; split; now eexists|]. intros _. apply snoc_neq.
Qed.

(** ** Order history and trade log over any sequence of operations *)

Lemma ledger_step_refl (m : GateIOTradingManager) : ledger_step m m.
Proof.
  split; [|split].
  - intros H. split; [exact H|]. exists [].
    split; [now rewrite app_nil_r | constructor].
  - exists []. now rewrite app_nil_r.
  - auto.
Qed.

Lemma ledger_step_trans (m1 m2 m3 : GateIOTradingManager) :
  ledger_step m1 m2 -> ledger_step m2 m3 -> ledger_step m1 m3.
Proof.
  intros (A1 & (ts1 & A2) & A3) (B1 & (ts2 & B2) & B3). split; [|split].
  - intros H. destruct (A1 H) as (H2 & n1 & E1 & F1).
    destruct (B1 H2) as (H3 & n2 & E2 & F2). split; [exact H3|].
    exists (n1 ++ n2). split.
    + rewrite E2, E1. now rewrite app_assoc.
    + apply Forall_app. now split.
  - exists (ts1 ++ ts2). rewrite B2, A2. now rewrite app_assoc.
  - auto.
Qed.

(** A step assembled from what it sends and what it logs. *)
Lemma ledger_step_build (m m' : GateIOTradingManager)
    (new : list FuturesOrder) (ts : list PnlData) :
  position_cache m' = position_cache m ->
  submitted m' = submitted m ++ new ->
  (cache_wf m -> Forall order_wf new) ->
  trades (analytics m') = trades (analytics m) ++ ts ->
  (log_wf (analytics m) -> log_wf (analytics m')) ->
  ledger_step m m'.
Proof.
  intros Hc Hs Hn Ht Hl. split; [|split].
  - intros H. split.
    + intros k rp Hk. rewrite Hc in Hk. now apply (H k).
    + exists new. split; [exact Hs | now apply Hn].
  - now exists ts.
  - exact Hl.
Qed.

(** A change that leaves cache, order history and recorder alone. *)
Lemma ledger_step_idle (m m' : GateIOTradingManager) :
  position_cache m' = position_cache m ->
  submitted m' = submitted m ->
  analytics m' = analytics m ->
  ledger_step m m'.
Proof.
  intros Hc Hs Ha. apply ledger_step_build with (new := []) (ts := []).
  - exact Hc.
  - now rewrite app_nil_r.
  - constructor.
  - rewrite Ha. now rewrite app_nil_r.
  - now rewrite Ha.
Qed.

Lemma snapshot_is_cache (m : GateIOTradingManager) (force : bool)
    (env : SnapshotEnv) :
  snd (get_real_positions_cached m force env) =
  position_cache (fst (get_real_positions_cached m force env)).
Proof.
  unfold get_real_positions_cached.
  destruct (negb force && _); [reflexivity|].
  now destruct (snap_positions env).
Qed.

Lemma snapshot_ledger_step (m : GateIOTradingManager) (force : bool)
    (env : SnapshotEnv) :
  ledger_step m (fst (get_real_positions_cached m force env)).
Proof.
  pose proof (get_real_positions_cached_frame m force env)
    as (_ & _ & _ & _ & _ & Han & Hsub & _).
  split; [|split].
  - intros H. split; [now apply snapshot_positive|].
    exists []. split; [now rewrite app_nil_r | constructor].
  - exists []. rewrite Han. now rewrite app_nil_r.
  - now rewrite Han.
Qed.

(** [log_trade] appends to the log and keeps the running total in step. *)
Lemma log_trade_appends (a : TradeAnalytics) (td : TradeData) :
  (exists ts : list PnlData,
      trades (fst (log_trade a td)) = trades a ++ ts) /\
  (log_wf a -> log_wf (fst (log_trade a td))).
Proof.
  unfold log_trade. destruct (_calculate_pnl td) as [t|]; simpl.
  - split; [now exists [t]|]. unfold log_wf. simpl. intros H.
    rewrite map_app. unfold py_sum in *. rewrite fold_left_app. simpl.
    now rewrite H.
  - split; [|auto]. exists []. now rewrite app_nil_r.
Qed.

Lemma opening_order_wf (sym : string) (s : SignalType) (sz : Z) :
  sz <> 0 -> order_wf (opening_order sym s sz).
Proof.
  intros H. repeat split. destruct s; simpl; lia.
Qed.

Lemma reducing_order_wf (sym text : string) (sz : Z) :
  sz <> 0 -> text <> "t-spread" ->
  order_wf {| fo_contract := sym; fo_size := sz; fo_price := "0";
              fo_tif := "ioc"; fo_text := text; fo_reduce_only := true |}.
Proof.
  intros H Ht. repeat split; try assumption; simpl.
  - intros E. discriminate E.
  - intros E. contradiction.
Qed.

Lemma open_position_ledger_step (m : GateIOTradingManager)
    (opp : SpreadOpportunity) (env : OpenEnv) :
  ledger_step m (fst (open_position m opp env)).
Proof.
  unfold open_position.
  destruct (can_open_position m); simpl; [|apply ledger_step_refl].
  pose proof (snapshot_ledger_step m true (open_snapshot env)) as Hstep.
  destruct (get_real_positions_cached m true (open_snapshot env))
    as [m1 real]. simpl in Hstep.
  destruct (real !! symbol opp); [exact Hstep|].
  destruct (calculate_position_size m1 _ _) as [sz|]; [|exact Hstep].
  destruct (Z.eqb_spec sz 0) as [|Hnz]; [exact Hstep|].
  apply ledger_step_trans with m1; [exact Hstep|].
  assert (Hwf : order_wf (opening_order (symbol opp) (signal_type opp) sz))
    by now apply opening_order_wf.
  destruct (open_order env) as [id|];
    [destruct (open_contract_after env) as [c|]|]; simpl;
    (apply ledger_step_build
       with (new := [opening_order (symbol opp) (signal_type opp) sz])
            (ts := []);
     [reflexivity | reflexivity
      | intros _; constructor; [exact Hwf | constructor]
      | simpl; now rewrite app_nil_r | auto]).
Qed.

Ltac with_snapshot m env :=
  let Hstep := fresh "Hstep" in
  let Hcache := fresh "Hcache" in
  let m1 := fresh "m1" in
  let real := fresh "real" in
  pose proof (snapshot_ledger_step m true env) as Hstep;
  pose proof (snapshot_is_cache m true env) as Hcache;
  destruct (get_real_positions_cached m true env) as [m1 real];
  simpl in Hstep, Hcache.

Lemma close_position_ledger_step (m : GateIOTradingManager) (sym : string)
    (exit_price spread : Q) (env : CloseEnv) :
  ledger_step m (fst (close_position m sym exit_price spread env)).
Proof.
  unfold close_position.
  destruct (open_positions m !! sym) as [p|]; [|apply ledger_step_refl].
  with_snapshot m (close_snapshot env).
  apply ledger_step_trans with m1; [exact Hstep|].
  destruct (real !! sym) as [rp|] eqn:Hrp; simpl;
    [|now apply ledger_step_idle].
  assert (Hwf : cache_wf m1 ->
                order_wf (closing_order sym (pos_side p) (real_size rp))).
  { intros H. rewrite Hcache in Hrp. apply H in Hrp.
    apply reducing_order_wf; [|discriminate].
    destruct (pos_side p); lia. }
  destruct (close_order env) as [id|]; simpl.
  - match goal with
    | |- context [log_trade ?a ?td] =>
        pose proof (log_trade_appends a td) as ((ts & Hts) & Hlog);
        destruct (log_trade a td) as [a' r]
    end. simpl in *.
    apply ledger_step_build
      with (new := [closing_order sym (pos_side p) (real_size rp)])
           (ts := ts); try reflexivity; try assumption.
    intros H. constructor; [now apply Hwf | constructor].
  - apply ledger_step_build
      with (new := [closing_order sym (pos_side p) (real_size rp)])
           (ts := []); try reflexivity.
    + intros H. constructor; [now apply Hwf | constructor].
    + simpl. now rewrite app_nil_r.
    + intros H. exact H.
Qed.

Lemma close_partial_position_ledger_step (m : GateIOTradingManager)
    (sym : string) (exit_price spread : Q) (percent : Z) (env : CloseEnv) :
  ledger_step m
    (fst (close_partial_position m sym exit_price spread percent env)).
Proof.
  unfold close_partial_position.
  destruct (open_positions m !! sym) as [p|]; [|apply ledger_step_refl].
  with_snapshot m (close_snapshot env).
  destruct (real !! sym) as [rp|]; simpl; [|exact Hstep].
  destruct (Z.eqb_spec (py_int (inject_Z (real_size rp * percent) / 100)) 0)
    as [|Hnz]; simpl; [exact Hstep|].
  apply ledger_step_trans with m1; [exact Hstep|].
  set (n := py_int (inject_Z (real_size rp * percent) / 100)) in *.
  assert (Hwf : order_wf (partial_order sym (pos_side p) n)).
  { apply reducing_order_wf; [|discriminate]. destruct (pos_side p); lia. }
  destruct (close_order env) as [id|]; simpl.
  - match goal with
    | |- context [log_trade ?a ?td] =>
        pose proof (log_trade_appends a td) as ((ts & Hts) & Hlog);
        destruct (log_trade a td) as [a' r]
    end. simpl in *.
    apply ledger_step_build
      with (new := [partial_order sym (pos_side p) n]) (ts := ts);
      try reflexivity; try assumption.
    intros _. constructor; [exact Hwf | constructor].
  - apply ledger_step_build
      with (new := [partial_order sym (pos_side p) n]) (ts := []);
      try reflexivity.
    + intros _. constructor; [exact Hwf | constructor].
    + simpl. now rewrite app_nil_r.
    + intros H. exact H.
Qed.

Lemma set_stop_loss_at_entry_ledger_step (m : GateIOTradingManager)
    (sym : string) (env : StopEnv) :
  ledger_step m (fst (set_stop_loss_at_entry m sym env)).
Proof.
  unfold set_stop_loss_at_entry.
  destruct (open_positions m !! sym) as [p|]; [|apply ledger_step_refl].
  with_snapshot m (stop_snapshot env).
  destruct (real !! sym) as [rp|]; simpl; [|exact Hstep].
  destruct (stop_order env) as [id|]; simpl; [|exact Hstep].
  apply ledger_step_trans with m1; [exact Hstep|].
  now apply ledger_step_idle.
Qed.

Lemma full_exit_ledger_step (m : GateIOTradingManager) (sym : string)
    (current_spread exit_price : Q) (env : ExitEnv) :
  ledger_step m (fst (full_exit m sym current_spread exit_price env)).
Proof.
  unfold full_exit. destruct (Qle_bool _ _); [|apply ledger_step_refl].
  pose proof (close_position_ledger_step m sym exit_price current_spread
                (exit_close env)) as H.
  now destruct (close_position _ _ _ _ _).
Qed.

Lemma check_exit_conditions_ledger_step (m : GateIOTradingManager)
    (sym : string) (current_spread exit_price take_profit_roi : Q)
    (env : ExitEnv) :
  ledger_step m
    (fst (check_exit_conditions m sym current_spread exit_price
            take_profit_roi env)).
Proof.
  rewrite check_exit_conditions_unfold.
  destruct (open_positions m !! sym); [|apply ledger_step_refl].
  destruct (calculate_unrealized_pnl m sym exit_price);
    [|apply ledger_step_refl].
  destruct (Qle_bool take_profit_roi _ && _); [|apply full_exit_ledger_step].
  pose proof (close_partial_position_ledger_step m sym exit_price
                current_spread 50 (exit_partial env)) as Hpartial.
  destruct (close_partial_position _ _ _ _ _ _) as [m1 [r|]]; simpl in *.
  - eapply ledger_step_trans; [exact Hpartial|].
    eapply ledger_step_trans; [|apply set_stop_loss_at_entry_ledger_step].
    now apply ledger_step_idle.
  - eapply ledger_step_trans; [exact Hpartial | apply full_exit_ledger_step].
Qed.

Lemma sync_ledger_step (m : GateIOTradingManager) (env : SyncEnv) :
  ledger_step m (sync_positions_from_gateio m env).
Proof.
  unfold sync_positions_from_gateio.
  with_snapshot m (sync_snapshot env).
  apply ledger_step_trans with m1; [exact Hstep|].
  now apply ledger_step_idle.
Qed.

Lemma run_ops_ledger_step (ops : list LedgerOp) :
  forall m : GateIOTradingManager, ledger_step m (run_ops m ops).
Proof.
  induction ops as [|op ops IH]; intros m; [apply ledger_step_refl|].
  unfold run_ops in *. simpl.
  apply ledger_step_trans with (apply_op m op); [|apply IH].
  destruct op; simpl.
  - apply open_position_ledger_step.
  - apply close_position_ledger_step.
  - apply close_partial_position_ledger_step.
  - apply check_exit_conditions_ledger_step.
  - apply sync_ledger_step.
Qed.

Lemma new_manager_cache_wf (usd : Q) (lev maxp : Z) (exit_thr : Q) :
  cache_wf (new_GateIOTradingManager usd lev maxp exit_thr).
Proof. intros k rp H. simpl in H. now rewrite lookup_empty in H. Qed.

(** X9: whatever operations a manager runs after its construction, and
    whatever the exchange answers, the order history only grows, and every
    order in it is a market order ("0", "ioc") of non-zero size that is
    reduce-only unless it is an opening order ("t-spread"): closing,
    partial-closing and exit-check paths can never add exposure. *)
Theorem orders_only_reduce_unless_opening (usd : Q) (lev maxp : Z)
    (exit_thr : Q) (before after : list LedgerOp) :
  let m := run_ops (new_GateIOTradingManager usd lev maxp exit_thr) before in
  Forall order_wf (submitted m) /\
  exists new : list FuturesOrder,
    submitted (run_ops m after) = submitted m ++ new /\
    Forall order_wf new.
Proof.
  intros m.
  destruct (run_ops_ledger_step before
              (new_GateIOTradingManager usd lev maxp exit_thr))
    as (H1 & _).
  destruct (H1 (new_manager_cache_wf usd lev maxp exit_thr))
    as (Hwf & new & Hnew & Hall).
  fold m in Hwf, Hnew. split.
  - rewrite Hnew. exact Hall.
  - destruct (run_ops_ledger_step after m) as (H2 & _).
    exact (proj2 (H2 Hwf)).
Qed.

(** X10: whatever operations a manager runs after its construction, the
    trade log only grows, its running total [daily_pnl] equals the sum of
    the logged P&L, and so the [total_pnl] of [get_statistics] agrees with
    the running total. *)
Theorem trade_log_grows_and_totals (usd : Q) (lev maxp : Z) (exit_thr : Q)
    (before after : list LedgerOp) :
  let m := run_ops (new_GateIOTradingManager usd lev maxp exit_thr) before in
  let a := analytics (run_ops m after) in
  trades (analytics m) `prefix_of` trades a /\
  (daily_pnl a == py_sum (map pnl_usd (trades a)))%Q /\
  (total_pnl (get_statistics a) == daily_pnl a)%Q.
Proof.
  intros m a.
  destruct (run_ops_ledger_step before
              (new_GateIOTradingManager usd lev maxp exit_thr))
    as (_ & _ & H1).
  destruct (run_ops_ledger_step after m) as (_ & (ts & Hts) & H2).
  assert (Hwf : log_wf a).
  { apply H2, H1. unfold log_wf. simpl. reflexivity. }
  split; [now exists ts|]. split; [exact Hwf|].
  unfold log_wf in Hwf. rewrite Hwf. unfold get_statistics.
  destruct (trades a); reflexivity.
Qed.

(** ** Partial close and return on margin *)

(** X11: a [close_partial_position] that returns a trade, for a percentage
    between 0 and 100.  The part closed is the reported size times the
    percentage over 100 with the fraction dropped; it is at least one
    contract and at most the reported size.  One reduce-only order of that
    part goes out; the entry stays in the ledger, its size replaced by the
    reported size less the part closed (0 when everything was closed); the
    trade records the part closed.  At 50 percent the part kept is the part
    closed or one contract more. *)
Theorem partial_close_splits_reported_size (m m1 : GateIOTradingManager)
    (sym : string) (exit_price spread : Q) (percent : Z) (env : CloseEnv)
    (r : PnlData) :
  cache_wf m ->
  0 <= percent <= 100 ->
  close_partial_position m sym exit_price spread percent env = (m1, Some r) ->
  exists (p : Position) (rp : RealPosition) (closed : Z),
    open_positions m !! sym = Some p /\
    forced_snapshot m (close_snapshot env) !! sym = Some rp /\
    closed = (real_size rp * percent) ÷ 100 /\
    1 <= closed <= real_size rp /\
    submitted m1 = submitted m ++ [partial_order sym (pos_side p) closed] /\
    open_positions m1 !! sym =
      Some (set_pos_size (real_size rp - closed) p) /\
    t_size r = closed /\
    (percent = 50 -> closed <= real_size rp - closed <= closed + 1).
Proof.
  intros Hwf Hpc. unfold close_partial_position, forced_snapshot.
  destruct (open_positions m !! sym) as [p|] eqn:Hp;
    [|intros H; discriminate H].
  pose proof (snapshot_positive m true (close_snapshot env) Hwf)
    as [_ Hpos].
  snapshot m (close_snapshot env). simpl in *.
  destruct (real !! sym) as [rp|] eqn:Hrp; [|intros H; discriminate H].
  apply Hpos in Hrp.
  change (inject_Z (real_size rp * percent) / 100)%Q
    with (inject_Z (real_size rp * percent) / inject_Z (Zpos 100))%Q.
  rewrite py_int_ratio.
  assert (Hq : (real_size rp * percent) ÷ 100 = real_size rp * percent / 100)
    by (apply Z.quot_div_nonneg; nia).
  pose proof (Z.div_mod (real_size rp * percent) 100 ltac:(lia)) as Hdm.
  pose proof (Z.mod_pos_bound (real_size rp * percent) 100 ltac:(lia)) as Hm.
  destruct (Z.eqb_spec ((real_size rp * percent) ÷ 100) 0) as [|Hnz];
    [intros H; discriminate H|].
  destruct (close_order env) as [id|]; [|intros H; discriminate H].
  destruct (log_trade _ _) as [a pnl_data] eqn:Hlog. intros [= <- ->].
  unfold log_trade, _calculate_pnl in Hlog. simpl in Hlog.
  destruct (leverage m0 =? 0); [discriminate Hlog|].
  injection Hlog as _ <-.
  exists p, rp, ((real_size rp * percent) ÷ 100). simpl.
  rewrite lookup_alter_eq, Hops, Hp, Hsub. rewrite Hq in *.
  repeat split; try reflexivity; nia.
Qed.

(** X11 on [tracking_btc]: of 4000 contracts reported, 2000 are closed and
    2000 kept. *)
Lemma partial_close_splits_reported_size_witness :
  exists (m1 : GateIOTradingManager) (r : PnlData),
    close_partial_position tracking_btc "BTC_USDT" 110 0 50 closing
      = (m1, Some r) /\
    pos_size <$> open_positions m1 !! "BTC_USDT" = Some 2000 /\
    t_size r = 2000.
Proof.
  assert (Hwf : cache_wf tracking_btc).
  { intros k rp H. vm_compute in H. discriminate H. }
  destruct (close_partial_position tracking_btc "BTC_USDT" 110 0 50 closing)
    as [m1 [r|]] eqn:E; [|vm_compute in E; discriminate E].
  exists m1, r.
  destruct (partial_close_splits_reported_size tracking_btc m1 "BTC_USDT"
              110 0 50 closing r Hwf ltac:(lia) E)
    as (p & rp & closed & _ & Hrp & Hclosed & _ & _ & Hentry & Hsize & _).
  vm_compute in Hrp. injection Hrp as <-. simpl in Hclosed. subst closed.
  split; [reflexivity|]. rewrite Hentry. simpl. split; [reflexivity|].
  exact Hsize.
Defined.



(** ** Tick dispatcher *)

Lemma detect_spread_symbol (d d' : SpreadDetector) (now stamp : Q)
    (sym : string) (mark last : Q) (o : SpreadOpportunity) :
  detect_spread d now stamp sym mark last = (d', Some o) -> symbol o = sym.
Proof.
  unfold detect_spread.
  repeat match goal with
         | |- context [if ?b then _ else _] => destruct b
         end; intros [= <- <-]; reflexivity.
Qed.

(** [open_position] touches the entry of its symbol only, and what it
    sends names that symbol. *)
Lemma open_position_local (m : GateIOTradingManager)
    (opp : SpreadOpportunity) (env : OpenEnv) :
  exit_step (symbol opp) m
    (with_open_positions (fst (open_position m opp env)) (open_positions m))
  /\
  (forall k : string,
      k <> symbol opp ->
      open_positions (fst (open_position m opp env)) !! k =
      open_positions m !! k).
Proof.
  unfold open_position.
  destruct (can_open_position m); simpl.
  2: { split; [|reflexivity]. destruct m. apply exit_step_refl. }
  snapshot m (open_snapshot env).
  assert (Hidle : exit_step (symbol opp) m
                    (with_open_positions m1 (open_positions m))).
  { unfold exit_step. simpl. repeat split; try assumption; try tauto.
    exists []. rewrite Hsub. split; [now rewrite app_nil_r | constructor]. }
  assert (Hsent : forall o : FuturesOrder,
             fo_contract o = symbol opp ->
             exit_step (symbol opp) m
               (with_open_positions (submit m1 o) (open_positions m))).
  { intros o Ho. unfold exit_step. simpl.
    repeat split; try assumption; try tauto.
    exists [o]. rewrite Hsub. split; [reflexivity|].
    constructor; [exact Ho | constructor]. }
  assert (Hsame : forall k : string,
             k <> symbol opp ->
             open_positions m1 !! k = open_positions m !! k)
    by (intros k _; now rewrite Hops).
  destruct (real !! symbol opp); [now split|].
  destruct (calculate_position_size m1 _ _) as [sz|]; [|now split].
  destruct (sz =? 0); [now split|].
  destruct (open_order env) as [id|];
    [destruct (open_contract_after env) as [c|]|]; simpl;
    (split; [now apply Hsent|]); try exact Hsame.
  intros k Hk. rewrite lookup_insert_ne by congruence. now apply Hsame.
Qed.

(** X13: once trading is disabled, a tick never reaches the position
    ledger, whatever the prices: no position is opened, and no exit check
    runs either, also for a position already tracked and also when the
    prices have reversed against it.  The detector still runs. *)
Theorem disabled_trading_skips_exit_checks (b : GateIOSpreadBot)
    (t : Ticker) (env : TickEnv) :
  trading_enabled b = false ->
  let res := on_ticker_update b t env in
  trading_manager (fst res) = trading_manager b /\
  trading_enabled (fst res) = false /\
  opened (snd res) = false /\
  exit_spread_used (snd res) = None /\
  trade (snd res) = None /\
  raised (snd res) = false /\
  errors (stats (fst res)) = errors (stats b).
Proof.
  intros Hoff. unfold on_ticker_update.
  destruct (negb (whitelisted _ _)); [now repeat split|].
  destruct (Qle_bool _ _ || Qle_bool _ _); [now repeat split|].
  unfold tick_entry.
  destruct (detect_spread _ _ _ _ _ _) as [d [opp|]]; simpl;
    destruct (trading_manager b) eqn:Hm; simpl; rewrite ?Hoff;
    unfold tick_exit_check; simpl; rewrite ?Hm, ?Hoff; simpl;
    repeat split; assumption.
Qed.

(** X13 on the reversal tick: the stopped bot leaves the BTC_USDT position
    as it is and sends nothing. *)
Lemma disabled_trading_skips_exit_checks_witness :
  trading_manager
    (fst (on_ticker_update (stopped (bot_with tracking_btc)) reversal_tick
            reversal_answers)) = Some tracking_btc /\
  exit_spread_used
    (snd (on_ticker_update (stopped (bot_with tracking_btc)) reversal_tick
            reversal_answers)) = None.
Proof.
  destruct (disabled_trading_skips_exit_checks
              (stopped (bot_with tracking_btc)) reversal_tick
              reversal_answers eq_refl)
    as (Hm & _ & _ & Hs & _).
  split; [exact Hm | exact Hs].
Defined.

(** X14: a tick acts on its own symbol only.  Whatever the tick does
    (detect, open, check the exit, close part or all), the ledger entries
    of every other symbol are as before, and every order it sends names the
    symbol of the tick. *)
Theorem tick_is_local (b : GateIOSpreadBot) (t : Ticker) (env : TickEnv)
    (m : GateIOTradingManager) :
  trading_manager b = Some m ->
  exists m' : GateIOTradingManager,
    trading_manager (fst (on_ticker_update b t env)) = Some m' /\
    (forall k : string,
        k <> tk_symbol t ->
        open_positions m' !! k = open_positions m !! k) /\
    exists new : list FuturesOrder,
      submitted m' = submitted m ++ new /\
      Forall (fun o => fo_contract o = tk_symbol t) new.
Proof.
  intros Hm. unfold on_ticker_update.
  assert (Hnone : exists m' : GateIOTradingManager,
             Some m = Some m' /\
             (forall k : string,
                 k <> tk_symbol t ->
                 open_positions m' !! k = open_positions m !! k) /\
             exists new : list FuturesOrder,
               submitted m' = submitted m ++ new /\
               Forall (fun o => fo_contract o = tk_symbol t) new).
  { exists m. split; [reflexivity|]. split; [reflexivity|].
    exists []. split; [now rewrite app_nil_r | constructor]. }
  destruct (negb (whitelisted _ _)); [simpl; now rewrite Hm|].
  destruct (Qle_bool _ _ || Qle_bool _ _); [simpl; now rewrite Hm|].
  (* the manager after the first half *)
  assert (Hentry : exists m1 : GateIOTradingManager,
             trading_manager (fst (tick_entry b t env)) = Some m1 /\
             trading_enabled (fst (tick_entry b t env)) = trading_enabled b /\
             (forall k : string,
                 k <> tk_symbol t ->
                 open_positions m1 !! k = open_positions m !! k) /\
             exists new : list FuturesOrder,
               submitted m1 = submitted m ++ new /\
               Forall (fun o => fo_contract o = tk_symbol t) new).
  { unfold tick_entry.
    destruct (detect_spread _ _ _ _ _ _) as [d [opp|]] eqn:Hd; simpl.
    2: { destruct Hnone as (m' & E & H). exists m'. rewrite Hm.
         split; [exact E|]. split; [reflexivity | exact H]. }
    apply detect_spread_symbol in Hd. rewrite Hm.
    destruct (trading_enabled b) eqn:Hon; simpl.
    2: { destruct Hnone as (m' & E & H). exists m'. rewrite Hm.
         split; [exact E|]. split; [exact Hon | exact H]. }
    pose proof (open_position_local m opp (tick_open env)) as [Hstep Hother].
    destruct Hstep as (_ & _ & _ & _ & _ & _ & new & Hnew & Hall).
    simpl in Hnew. rewrite Hd in *.
    destruct (open_position m opp (tick_open env)) as [m1 ok]. simpl in *.
    exists m1. destruct ok; simpl; repeat split; try assumption;
      now exists new. }
  destruct (tick_entry b t env) as [b1 was_opened]. simpl in Hentry.
  destruct Hentry as (m1 & Hm1 & Hen & Hother & new & Hnew & Hall).
  unfold tick_exit_check. rewrite Hm1.
  assert (Hidle : exists m' : GateIOTradingManager,
             Some m1 = Some m' /\
             (forall k : string,
                 k <> tk_symbol t ->
                 open_positions m' !! k = open_positions m !! k) /\
             exists new : list FuturesOrder,
               submitted m' = submitted m ++ new /\
               Forall (fun o => fo_contract o = tk_symbol t) new).
  { exists m1. repeat split; try assumption. now exists new. }
  destruct (trading_enabled b1 && has_position m1 (tk_symbol t));
    [|simpl; rewrite Hm1; exact Hidle].
  destruct (open_positions m1 !! tk_symbol t) as [position|];
    [|simpl; rewrite Hm1; exact Hidle].
  match goal with
  | |- context [check_exit_conditions ?m ?s ?cs ?ep ?tp ?e] =>
      pose proof (check_exit_conditions_step m s cs ep tp e)
        as (_ & _ & _ & _ & Hk & _ & new2 & Hnew2 & Hall2);
      destruct (check_exit_conditions m s cs ep tp e) as [m2 res]
  end. simpl in *.
  assert (Hdone : exists m' : GateIOTradingManager,
             Some m2 = Some m' /\
             (forall k : string,
                 k <> tk_symbol t ->
                 open_positions m' !! k = open_positions m !! k) /\
             exists new : list FuturesOrder,
               submitted m' = submitted m ++ new /\
               Forall (fun o => fo_contract o = tk_symbol t) new).
  { exists m2. split; [reflexivity|]. split.
    - intros k Hne. rewrite Hk by exact Hne. now apply Hother.
    - exists (new ++ new2). rewrite Hnew2, Hnew, app_assoc.
      split; [reflexivity|]. apply Forall_app. now split. }
  destruct res as [[trade_data|]|]; simpl; exact Hdone.
Qed.

(** X14 on the reversal tick. *)
Lemma tick_is_local_witness :
  exists m' : GateIOTradingManager,
    trading_manager
      (fst (on_ticker_update (bot_with tracking_btc) reversal_tick
              reversal_answers)) = Some m' /\
    open_positions m' !! "ETH_USDT" = None.
Proof.
  destruct (tick_is_local (bot_with tracking_btc) reversal_tick
              reversal_answers tracking_btc eq_refl)
    as (m' & Hm & Hother & _).
  exists m'. split; [exact Hm|].
  rewrite Hother by discriminate. reflexivity.
Defined.

Lemma tick_exit_check_accounting (b : GateIOSpreadBot) (t : Ticker)
    (env : TickEnv) (was_opened : bool) :
  let res := tick_exit_check b t env was_opened in
  let s := stats b in
  let s' := stats (fst res) in
  tickers_processed s' + errors s' = tickers_processed s + errors s + 1 /\
  errors s' = errors s + (if raised (snd res) then 1 else 0) /\
  positions_opened s' = positions_opened s /\
  opened (snd res) = was_opened /\
  positions_closed s' =
    positions_closed s
    + match trade (snd res) with Some _ => 1 | None => 0 end /\
  spreads_found s' = spreads_found s.
Proof.
  unfold tick_exit_check.
  destruct (trading_manager b) as [m|]; [|simpl; repeat split; lia].
  destruct (trading_enabled b && has_position m (tk_symbol t));
    [|simpl; repeat split; lia].
  destruct (open_positions m !! tk_symbol t) as [position|];
    [|simpl; repeat split; lia].
  destruct (check_exit_conditions _ _ _ _ _ _) as [m' [[td|]|]];
    simpl; repeat split; lia.
Qed.

Lemma tick_entry_accounting (b : GateIOSpreadBot) (t : Ticker)
    (env : TickEnv) :
  let res := tick_entry b t env in
  let s := stats b in
  let s' := stats (fst res) in
  tickers_processed s' = tickers_processed s /\
  errors s' = errors s /\
  positions_closed s' = positions_closed s /\
  positions_opened s' = positions_opened s + (if snd res then 1 else 0) /\
  spreads_found s <= spreads_found s' <= spreads_found s + 1 /\
  positions_opened s' - positions_opened s
    <= spreads_found s' - spreads_found s.
Proof.
  unfold tick_entry.
  destruct (detect_spread _ _ _ _ _ _) as [d [opp|]]; simpl;
    [|repeat split; lia].
  destruct (trading_manager b) as [m|]; simpl; [|repeat split; lia].
  destruct (trading_enabled b); simpl; [|repeat split; lia].
  destruct (open_position m opp (tick_open env)) as [m' [|]];
    simpl; repeat split; lia.
Qed.

(** X15: the counters of [on_ticker_update].  A tick the filters reject
    (symbol off the whitelist, or a price that is not positive) changes
    nothing at all.  Any other tick is counted exactly once, under [errors]
    when the exit check raised and under [tickers_processed] otherwise;
    [positions_opened] and [positions_closed] move by one exactly when the
    tick opened a position or returned a trade, [spreads_found] moves by at
    most one, and a position is only ever opened on a tick that found a
    spread. *)
Theorem tick_accounting (b : GateIOSpreadBot) (t : Ticker) (env : TickEnv) :
  let res := on_ticker_update b t env in
  let s := stats b in
  let s' := stats (fst res) in
  (filtered b t = true -> fst res = b /\ snd res = quiet) /\
  (filtered b t = false ->
   tickers_processed s' + errors s' = tickers_processed s + errors s + 1 /\
   errors s' = errors s + (if raised (snd res) then 1 else 0) /\
   positions_opened s' =
     positions_opened s + (if opened (snd res) then 1 else 0) /\
   positions_closed s' =
     positions_closed s
     + match trade (snd res) with Some _ => 1 | None => 0 end /\
   spreads_found s <= spreads_found s' <= spreads_found s + 1 /\
   positions_opened s' - positions_opened s
     <= spreads_found s' - spreads_found s).
Proof.
  unfold filtered, on_ticker_update. split; intros Hf.
  - destruct (negb (whitelisted _ _)); [now split|].
    simpl in Hf. rewrite Hf. now split.
  - apply orb_false_iff in Hf as [-> ->].
    pose proof (tick_entry_accounting b t env) as Hentry.
    destruct (tick_entry b t env) as [b1 was_opened].
    pose proof (tick_exit_check_accounting b1 t env was_opened) as Hexit.
    destruct (tick_exit_check b1 t env was_opened) as [b2 r].
    simpl in *.
    destruct Hentry as (E1 & E2 & E3 & E4 & E5 & E6).
    destruct Hexit as (F1 & F2 & F3 & F4 & F5 & F6).
    rewrite F4. repeat split; lia.
Qed.

(** ** Statistics of the trade recorder *)

(** The two list comprehensions of [get_statistics] split the log. *)
Lemma winning_losing_split (l : list PnlData) :
  (length (List.filter (fun t => Qlt_bool 0 (pnl_usd t)) l)
   + length (List.filter (fun t => Qle_bool (pnl_usd t) 0) l)
   = length l)%nat.
Proof.
  induction l as [|x l IH]; [reflexivity|].
  simpl. unfold Qlt_bool in *. destruct (Qle_bool (pnl_usd x) 0); simpl; lia.
Qed.

Lemma filter_length_le {A : Type} (f : A -> bool) (l : list A) :
  (length (List.filter f l) <= length l)%nat.
Proof.
  induction l as [|x l IH]; [reflexivity|].
  simpl. destruct (f x); simpl; lia.
Qed.

Lemma count_of_pos (n : nat) : (0 < n)%nat -> (0 < count_of n)%Q.
Proof. intros H. unfold count_of. apply inject_Z_pos. lia. Qed.

(** A share of [w] out of [n > 0], in percent, lies between 0 and 100. *)
Lemma rate_bounds (w n : nat) :
  (w <= n)%nat -> (0 < n)%nat ->
  (0 <= count_of w / count_of n * 100 <= 100)%Q.
Proof.
  intros Hle Hn. pose proof (count_of_pos n Hn) as Hpos.
  assert (Hw : (0 <= count_of w)%Q).
  { unfold count_of. change 0%Q with (inject_Z 0). rewrite <- Zle_Qle. lia. }
  assert (Hwn : (count_of w <= count_of n)%Q).
  { unfold count_of. rewrite <- Zle_Qle. lia. }
  assert (Hlo : (0 <= count_of w / count_of n)%Q).
  { apply Qle_shift_div_l; [exact Hpos|]. now rewrite Qmult_0_l. }
  assert (Hhi : (count_of w / count_of n <= 1)%Q).
  { apply Qle_shift_div_r; [exact Hpos|]. now rewrite Qmult_1_l. }
  revert Hlo Hhi. generalize (count_of w / count_of n)%Q. intros q Hlo Hhi.
  split; lra.
Qed.

(** [max_by] returns an element of the list that no element exceeds. *)
Lemma max_by_spec {A : Type} (key : A -> Q) (l : list A) :
  forall best : A,
    In (max_by key best l) (best :: l) /\
    forall x : A, In x (best :: l) -> (key x <= key (max_by key best l))%Q.
Proof.
  induction l as [|y l IH]; intros best; simpl.
  - split; [now left|]. intros x [<- | []]. apply Qle_refl.
  - destruct (Qlt_bool (key best) (key y)) eqn:E; qprop.
    + destruct (IH y) as [Hin Hmax]. split.
      * destruct Hin as [<- | Hin]; [right; now left | right; now right].
      * intros x [<- | [<- | Hx]].
        -- apply Qle_trans with (key y); [now apply Qlt_le_weak|].
           apply Hmax. now left.
        -- apply Hmax. now left.
        -- apply Hmax. now right.
    + destruct (IH best) as [Hin Hmax]. split.
      * destruct Hin as [<- | Hin]; [now left | right; now right].
      * intros x [<- | [<- | Hx]].
        -- apply Hmax. now left.
        -- apply Qle_trans with (key best); [exact E|].
           apply Hmax. now left.
        -- apply Hmax. now right.
Qed.

Lemma min_by_spec {A : Type} (key : A -> Q) (l : list A) :
  forall best : A,
    In (min_by key best l) (best :: l) /\
    forall x : A, In x (best :: l) -> (key (min_by key best l) <= key x)%Q.
Proof.
  induction l as [|y l IH]; intros best; simpl.
  - split; [now left|]. intros x [<- | []]. apply Qle_refl.
  - destruct (Qlt_bool (key y) (key best)) eqn:E; qprop.
    + destruct (IH y) as [Hin Hmin]. split.
      * destruct Hin as [<- | Hin]; [right; now left | right; now right].
      * intros x [<- | [<- | Hx]].
        -- apply Qle_trans with (key y); [|now apply Qlt_le_weak].
           apply Hmin. now left.
        -- apply Hmin. now left.
        -- apply Hmin. now right.
    + destruct (IH best) as [Hin Hmin]. split.
      * destruct Hin as [<- | Hin]; [now left | right; now right].
      * intros x [<- | [<- | Hx]].
        -- apply Hmin. now left.
        -- apply Qle_trans with (key best); [|exact E].
           apply Hmin. now left.
        -- apply Hmin. now right.
Qed.

(** X16: the figures of [get_statistics] fit together.  Every trade is
    counted as winning or as losing and never as both; the win rate lies
    between 0 and 100; the average times the number of trades is the total;
    the best and the worst trade are trades of the log whose P&L no trade
    of the log exceeds, respectively undercuts; on an empty log both are
    absent and every figure is 0. *)
Theorem statistics_are_consistent (a : TradeAnalytics) :
  let st := get_statistics a in
  total_trades st = length (trades a) /\
  (winning_trades st + losing_trades st = total_trades st)%nat /\
  (0 <= win_rate st <= 100)%Q /\
  (avg_pnl st * count_of (total_trades st) == total_pnl st)%Q /\
  (trades a = [] -> best_trade st = None /\ worst_trade st = None) /\
  (trades a <> [] ->
   exists best worst : PnlData,
     best_trade st = Some best /\ worst_trade st = Some worst /\
     In best (trades a) /\ In worst (trades a) /\
     forall t : PnlData,
       In t (trades a) -> (pnl_usd worst <= pnl_usd t <= pnl_usd best)%Q).
Proof.
  unfold get_statistics. destruct (trades a) as [|first rest].
  - simpl. repeat split; try reflexivity; try discriminate.
    intros H. now contradiction H.
  - cbv beta iota zeta
      delta [total_trades winning_trades losing_trades win_rate total_pnl
             avg_pnl best_trade worst_trade].
    set (all := first :: rest).
    split; [reflexivity|]. split; [|split; [|split; [|split]]].
    + apply winning_losing_split.
    + apply (rate_bounds _ (length all)).
      * apply filter_length_le.
      * simpl. lia.
    + pose proof (count_of_pos (length all) ltac:(simpl; lia)) as Hpos.
      field. intros H0. rewrite H0 in Hpos. now apply (Qlt_irrefl 0).
    + intros H. discriminate H.
    + intros _.
      destruct (max_by_spec pnl_usd rest first) as [Hbest Hmax].
      destruct (min_by_spec pnl_usd rest first) as [Hworst Hmin].
      eexists _, _. repeat split; try reflexivity; try assumption.
      * now apply Hmin.
      * now apply Hmax.
Qed.

Lemma trades_of_app (sym : string) (l1 l2 : list PnlData) :
  trades_of sym (l1 ++ l2) = trades_of sym l1 ++ trades_of sym l2.
Proof. apply List.filter_app. Qed.

Lemma tally_of_snoc (l : list PnlData) (t : PnlData) :
  tally_of (l ++ [t]) =
  {| s_trades := s_trades (tally_of l) + 1;
     s_wins := if Qlt_bool 0 (pnl_usd t) then s_wins (tally_of l) + 1
               else s_wins (tally_of l);
     s_total_pnl := (s_total_pnl (tally_of l) + pnl_usd t)%Q |}.
Proof.
  unfold tally_of. simpl.
  rewrite List.length_app, List.filter_app, List.length_app, map_app.
  unfold py_sum. rewrite fold_left_app. simpl.
  destruct (Qlt_bool 0 (pnl_usd t)); simpl; f_equal; lia.
Qed.

(** What the first loop of [get_symbol_performance] holds under a key. *)
Lemma count_trade_fold (sym : string) (l : list PnlData) :
  fold_left count_trade l ∅ !! sym =
  match trades_of sym l with
  | [] => None
  | _ :: _ => Some (tally_of (trades_of sym l))
  end.
Proof.
  induction l as [|t l IH] using rev_ind; [reflexivity|].
  rewrite fold_left_app, trades_of_app. simpl. unfold count_trade at 1.
  destruct (decide (t_symbol t = sym)) as [Heq | Hne].
  - rewrite bool_decide_eq_true_2 by exact Heq.
    rewrite Heq, lookup_insert_eq, IH.
    destruct (trades_of sym l) as [|x l'] eqn:E.
    + simpl. unfold tally_of. simpl.
      now destruct (Qlt_bool 0 (pnl_usd t)).
    + rewrite tally_of_snoc. reflexivity.
  - rewrite bool_decide_eq_false_2 by exact Hne.
    rewrite lookup_insert_ne by exact Hne. now rewrite app_nil_r.
Qed.

(** X17: [get_symbol_performance] has an entry for a symbol exactly when
    the log holds a trade of that symbol; the entry counts the trades of
    the symbol, counts those with a positive P&L as wins, and sums their
    P&L in log order.  Wins never exceed trades, no entry has zero trades,
    and the win rate lies between 0 and 100. *)
Theorem symbol_performance_counts (a : TradeAnalytics) (sym : string) :
  get_symbol_performance a !! sym =
    match trades_of sym (trades a) with
    | [] => None
    | _ :: _ => Some (with_win_rate (tally_of (trades_of sym (trades a))))
    end /\
  (forall s : SymbolStats,
      get_symbol_performance a !! sym = Some s ->
      (0 < sp_trades s)%nat /\ (sp_wins s <= sp_trades s)%nat /\
      (0 <= sp_win_rate s <= 100)%Q /\
      (sp_win_rate s ==
       count_of (sp_wins s) / count_of (sp_trades s) * 100)%Q).
Proof.
  assert (Heq : get_symbol_performance a !! sym =
                match trades_of sym (trades a) with
                | [] => None
                | _ :: _ =>
                    Some (with_win_rate (tally_of (trades_of sym (trades a))))
                end).
  { unfold get_symbol_performance. rewrite lookup_fmap, count_trade_fold.
    now destruct (trades_of sym (trades a)). }
  split; [exact Heq|]. intros s Hs. rewrite Heq in Hs.
  destruct (trades_of sym (trades a)) as [|x l]; [discriminate Hs|].
  injection Hs as <-. unfold with_win_rate.
  cbv beta iota zeta delta [sp_trades sp_wins sp_win_rate].
  set (n := s_trades (tally_of (x :: l))).
  set (w := s_wins (tally_of (x :: l))).
  assert (Hn : (0 < n)%nat) by (subst n; simpl; lia).
  assert (Hw : (w <= n)%nat) by (subst w n; apply filter_length_le).
  destruct (Nat.ltb_spec 0 n) as [_ | Hbad]; [|lia].
  repeat split; try assumption; try reflexivity;
    now apply rate_bounds.
Qed.

(** ** MEXC ledger *)

Lemma mexc_open_position_wf (m : Mexc.TradingManager)
    (opp : SpreadOpportunity) (env : Mexc.OpenEnv) :
  mexc_wf m ->
  mexc_wf (fst (Mexc.open_position m opp env)) /\
  Mexc.max_positions (fst (Mexc.open_position m opp env)) =
    Mexc.max_positions m /\
  (forall (k : string) (p : Mexc.Position),
      Mexc.open_positions m !! k = Some p ->
      Mexc.open_positions (fst (Mexc.open_position m opp env)) !! k = Some p).
Proof.
  intros [Hcap Hsz]. unfold Mexc.open_position, Mexc.can_open_position.
  destruct (Z.ltb_spec (Z.of_nat (size (Mexc.open_positions m)))
              (Mexc.max_positions m)) as [Hroom | Hfull]; simpl;
    [|repeat split; auto].
  destruct (Mexc.open_positions m !! symbol opp) eqn:Hsym;
    [repeat split; auto|].
  destruct (Mexc.num_contracts m _ _) as [n|]; [|repeat split; auto].
  destruct (Z.ltb_spec n 1) as [|Hn]; [repeat split; auto|].
  destruct (Mexc.order_result env) as [[id|]|]; simpl;
    try (repeat split; auto; fail).
  split; [split|split]; simpl.
  - rewrite map_size_insert_None by exact Hsym. lia.
  - intros k p. destruct (decide (k = symbol opp)) as [-> | Hne].
    + rewrite lookup_insert_eq. intros [= <-]. simpl. lia.
    + rewrite lookup_insert_ne by congruence. apply Hsz.
  - reflexivity.
  - intros k p Hk. rewrite lookup_insert_ne; [exact Hk|].
    intros <-. rewrite Hsym in Hk. discriminate Hk.
Qed.

Lemma mexc_close_position_wf (m : Mexc.TradingManager) (sym : string)
    (env : MexcExit.CloseEnv) :
  mexc_wf m ->
  mexc_wf (MexcExit.manager (MexcExit.close_position m sym env)) /\
  Mexc.max_positions (MexcExit.manager (MexcExit.close_position m sym env)) =
    Mexc.max_positions m.
Proof.
  intros [Hcap Hsz]. unfold MexcExit.close_position.
  destruct (Mexc.open_positions m !! sym) as [p|] eqn:Hp; simpl;
    [|repeat split; auto].
  destruct (MexcExit.close_result env) as [[|]|]; simpl;
    try (repeat split; auto; fail).
  unfold MexcExit.without. split; [split|]; simpl.
  - rewrite map_size_delete_Some by (exists p; exact Hp).
    lia.
  - intros k q Hk. apply lookup_delete_Some in Hk as [_ Hk].
    now apply (Hsz k).
  - reflexivity.
Qed.

Lemma mexc_apply_wf (m : Mexc.TradingManager) (op : MexcOp) :
  mexc_wf m ->
  mexc_wf (mexc_apply m op) /\
  Mexc.max_positions (mexc_apply m op) = Mexc.max_positions m.
Proof.
  intros Hwf. destruct op as [opp env | sym env | sym spread env]; simpl.
  - destruct (mexc_open_position_wf m opp env Hwf) as (H1 & H2 & _).
    now split.
  - now apply mexc_close_position_wf.
  - unfold MexcExit.check_exit_conditions.
    destruct (Mexc.open_positions m !! sym); simpl; [|now split].
    destruct (Qle_bool _ _); simpl; [|now split].
    now apply mexc_close_position_wf.
Qed.

(** X18: on the MEXC ledger, which has no reconciliation, the cap holds
    along every sequence of opens, closes and exit checks: started at or
    below [max_positions], the number of tracked positions never exceeds
    it, whatever the exchange answers; every tracked position has at least
    one contract; and an open never replaces an entry that is already
    there. *)
Theorem mexc_cap_holds (m : Mexc.TradingManager) (ops : list MexcOp) :
  mexc_wf m ->
  mexc_wf (mexc_run m ops) /\
  Mexc.max_positions (mexc_run m ops) = Mexc.max_positions m /\
  (forall (opp : SpreadOpportunity) (env : Mexc.OpenEnv) (k : string)
          (p : Mexc.Position),
      Mexc.open_positions (mexc_run m ops) !! k = Some p ->
      Mexc.open_positions
        (fst (Mexc.open_position (mexc_run m ops) opp env)) !! k = Some p).
Proof.
  intros Hwf.
  assert (Hrun : mexc_wf (mexc_run m ops) /\
                 Mexc.max_positions (mexc_run m ops) = Mexc.max_positions m).
  { revert m Hwf. unfold mexc_run.
    induction ops as [|op ops IH]; intros m Hwf; [now split|].
    simpl. destruct (mexc_apply_wf m op Hwf) as [Hwf' Hmax].
    destruct (IH _ Hwf') as [H1 H2]. split; [exact H1 | congruence]. }
  destruct Hrun as [Hwf' Hmax]. split; [exact Hwf'|]. split; [exact Hmax|].
  intros opp env k p.
  now apply (mexc_open_position_wf (mexc_run m ops) opp env Hwf').
Qed.

(** X18 on [example_mexc], capped at 3: of four opens on four symbols the
    first three are tracked. *)
Lemma mexc_cap_holds_witness :
  size (Mexc.open_positions
          (mexc_run example_mexc
             [MxOpen (long_on "A_USDT") mexc_accepting;
              MxOpen (long_on "B_USDT") mexc_accepting;
              MxOpen (long_on "C_USDT") mexc_accepting;
              MxOpen (long_on "D_USDT") mexc_accepting])) = 3%nat /\
  mexc_wf
    (mexc_run example_mexc
       [MxOpen (long_on "A_USDT") mexc_accepting;
        MxOpen (long_on "B_USDT") mexc_accepting;
        MxOpen (long_on "C_USDT") mexc_accepting;
        MxOpen (long_on "D_USDT") mexc_accepting]).
Proof.
  split; [vm_compute; reflexivity|].
  apply mexc_cap_holds. split.
  - vm_compute. discriminate.
  - intros k p H. vm_compute in H. discriminate H.
Defined.

(** ** Backtester *)

(** The spread of a simulated row stays at or below 100/199 (about 0.5025
    percent), and computing it divides by no zero. *)
Lemma simulated_spread_small (row : Backtest.Row) :
  simulated_row row ->
  exists (spread : Q) (direction : Backtest.Direction),
    Backtest.calculate_spread (Backtest.r_mark row)
      (Backtest.r_mark row * (1 + Backtest.r_variation row))
      = Returned (spread, direction) /\
    (spread <= 100 # 199)%Q.
Proof.
  intros (Hmark & Hlo & Hhi).
  set (mark := Backtest.r_mark row) in *.
  set (v := Backtest.r_variation row) in *.
  assert (Hx1 : (- (5 # 1000) * mark <= mark * v)%Q) by nra.
  assert (Hx2 : (mark * v <= (5 # 1000) * mark)%Q) by nra.
  assert (Hlast : (mark * (1 + v) == mark + mark * v)%Q) by ring.
  unfold Backtest.calculate_spread.
  destruct (Qlt_bool (mark * (1 + v)) mark) eqn:E1; qprop.
  - assert (Hpos : (0 < mark * (1 + v))%Q) by (rewrite Hlast; lra).
    assert (Hnz : Qeq_bool (mark * (1 + v)) 0 = false).
    { apply Qeq_bool_false_iff. intros H0. rewrite H0 in Hpos.
      now apply (Qlt_irrefl 0). }
    rewrite Hnz. eexists _, _. split; [reflexivity|].
    assert (Hdiv : ((mark - mark * (1 + v)) / (mark * (1 + v)) <= 1 # 199)%Q).
    { apply Qle_shift_div_r; [exact Hpos|]. rewrite Hlast. lra. }
    revert Hdiv. generalize ((mark - mark * (1 + v)) / (mark * (1 + v)))%Q.
    intros q Hq. lra.
  - destruct (Qlt_bool mark (mark * (1 + v))) eqn:E2; qprop.
    + assert (Hnz : Qeq_bool mark 0 = false).
      { apply Qeq_bool_false_iff. intros H0. rewrite H0 in Hmark.
        now apply (Qlt_irrefl 0). }
      rewrite Hnz. eexists _, _. split; [reflexivity|].
      assert (Hdiv : ((mark * (1 + v) - mark) / mark <= 5 # 1000)%Q).
      { apply Qle_shift_div_r; [exact Hmark|]. rewrite Hlast. lra. }
      revert Hdiv. generalize ((mark * (1 + v) - mark) / mark)%Q.
      intros q Hq. lra.
    + eexists _, _. split; [reflexivity|]. lra.
Qed.

Lemma replay_simulated (b : Backtest.SpreadBacktester) (sym : string)
    (quanto : Q) (rows : list Backtest.Row) :
  (100 # 199 < Backtest.min_spread b)%Q ->
  Forall simulated_row rows ->
  Backtest.replay b sym quanto None rows = ([], true).
Proof.
  intros Hmin Hrows. induction Hrows as [|row rows Hrow _ IH];
    [reflexivity|].
  simpl. unfold Backtest.step.
  destruct (simulated_spread_small row Hrow) as (spread & dir & -> & Hsmall).
  rewrite Qle_bool_false by lra. now rewrite IH.
Qed.

(** X19: on the prices [backtest_symbol] simulates (the trade price is the
    candle close moved by a draw between -0.5 and +0.5 percent), the spread
    never exceeds 100/199, about 0.5025 percent.  With an entry threshold
    above that, as the default of 7 is, the backtest of any candle series
    with positive prices opens no position: it records no trade, returns a
    summary of zero trades and zero P&L, and raises nothing. *)
Theorem simulated_backtest_never_trades (b : Backtest.SpreadBacktester)
    (rows : list Backtest.Row) (sym : string) (quanto : Q) :
  (100 # 199 < Backtest.min_spread b)%Q ->
  Forall simulated_row rows ->
  Backtest.trades (fst (Backtest.backtest_symbol b rows sym quanto)) =
    Backtest.trades b /\
  snd (Backtest.backtest_symbol b rows sym quanto) =
    Returned {| Backtest.sm_symbol := sym; Backtest.sm_trades := 0;
                Backtest.sm_winning := 0; Backtest.sm_total_pnl := 0 |}.
Proof.
  intros Hmin Hrows. unfold Backtest.backtest_symbol.
  rewrite (replay_simulated b sym quanto rows Hmin Hrows). simpl.
  split; [apply app_nil_r | reflexivity].
Qed.

(** X19 with the default thresholds on [flat_rows]. *)
Lemma simulated_backtest_never_trades_witness :
  snd (Backtest.backtest_symbol (Backtest.new_SpreadBacktester 7 (2 # 10) 10 20)
         flat_rows "BTC_USDT" (1 # 10000)) =
    Returned {| Backtest.sm_symbol := "BTC_USDT"; Backtest.sm_trades := 0;
                Backtest.sm_winning := 0; Backtest.sm_total_pnl := 0 |} /\
  Forall simulated_row flat_rows.
Proof.
  assert (Hrows : Forall simulated_row flat_rows).
  { repeat constructor; vm_compute; discriminate. }
  split; [|exact Hrows].
  apply (simulated_backtest_never_trades
           (Backtest.new_SpreadBacktester 7 (2 # 10) 10 20) flat_rows
           "BTC_USDT" (1 # 10000)); [reflexivity | exact Hrows].
Defined.

Lemma calculate_spread_direction (mark last spread : Q)
    (direction : Backtest.Direction) :
  Backtest.calculate_spread mark last = Returned (spread, direction) ->
  direction = Backtest.D_NONE -> spread = 0%Q.
Proof.
  unfold Backtest.calculate_spread.
  repeat match goal with
         | |- context [if ?c then _ else _] => destruct c
         end; intros [= <- <-]; intros H; try discriminate H; reflexivity.
Qed.

(** One row of the loop keeps what holds of the position held, closes a
    trade only out of a position, and holds nothing after closing. *)
Lemma step_ok (b : Backtest.SpreadBacktester) (sym : string) (quanto : Q)
    (position position' : option Backtest.Held) (row : Backtest.Row)
    (closed : option Backtest.Trade) :
  position_ok b position ->
  Backtest.step b sym quanto position row = Some (position', closed) ->
  position_ok b position' /\
  match closed with
  | Some t => trade_ok b sym t /\ is_Some position /\ position' = None
  | None => position = None \/ position' = position
  end.
Proof.
  intros Hok. unfold Backtest.step.
  destruct (Backtest.calculate_spread _ _) as [[spread direction]|] eqn:Hsp;
    [|intros H; discriminate H].
  destruct position as [held|].
  - destruct (Qle_bool _ (Backtest.exit_spread b)) eqn:Hexit; qprop.
    + destruct (Backtest.calculate_pnl b _ _ _ _ _) as [p|] eqn:Hp;
        [|intros H; discriminate H].
      intros [= <- <-]. split; [exact I|].
      destruct Hok as (Hsz & Hent & Hside).
      split; [|split; [now eexists | reflexivity]].
      unfold trade_ok. simpl. repeat split; try assumption.
      unfold Backtest.calculate_pnl in Hp.
      destruct (Backtest.leverage b =? 0); [discriminate Hp|].
      injection Hp as <-. simpl. reflexivity.
    + intros [= <- <-]. split; [exact Hok | now right].
  - destruct (Qle_bool (Backtest.min_spread b) spread) eqn:Hin; qprop.
    + destruct (Qeq_bool _ 0); [intros H; discriminate H|].
      destruct (Z.ltb_spec 0
                  (py_int (Backtest.position_size_usd b
                           * inject_Z (Backtest.leverage b)
                           / (Backtest.r_mark row
                              * (1 + Backtest.r_variation row) * quanto))))
        as [Hpos | _]; intros [= <- <-].
      * split; [|now left]. simpl. repeat split; try assumption.
        simpl. intros Hmin Hnone.
        apply (calculate_spread_direction _ _ _ _ Hsp) in Hnone.
        rewrite Hnone in Hin. apply (Qlt_not_le _ _ Hmin Hin).
      * split; [exact I | now left].
    + intros [= <- <-]. split; [exact I | now left].
Qed.

Lemma replay_ok (b : Backtest.SpreadBacktester) (sym : string) (quanto : Q)
    (rows : list Backtest.Row) :
  forall position : option Backtest.Held,
    position_ok b position ->
    Forall (trade_ok b sym) (fst (Backtest.replay b sym quanto position rows))
    /\
    (2 * length (fst (Backtest.replay b sym quanto position rows))
     <= length rows + match position with Some _ => 1 | None => 0 end)%nat.
Proof.
  induction rows as [|row rows IH]; intros position Hok.
  - simpl. split; [constructor | lia].
  - simpl.
    destruct (Backtest.step b sym quanto position row)
      as [[position' closed]|] eqn:Hstep;
      [|simpl; split; [constructor | lia]].
    destruct (step_ok b sym quanto position position' row closed Hok Hstep)
      as [Hok' Hclosed].
    destruct (IH position' Hok') as [Hall Hlen].
    destruct (Backtest.replay b sym quanto position' rows) as [later ok].
    simpl in *. destruct closed as [t|].
    + destruct Hclosed as (Ht & [h ->] & ->). simpl in *.
      split; [now constructor | lia].
    + split; [exact Hall|].
      destruct Hclosed as [-> | ->]; [destruct position'; lia | lia].
Qed.

(** X20: every trade [backtest_symbol] records on simulated rows, at a
    non-zero leverage, names the symbol backtested, has a positive size,
    was entered at a spread of at least [min_spread] and left at a spread of
    at most [exit_spread] in the direction held, nets its gross P&L less
    its fees, and carries a direction unless [min_spread] is not positive.
    Entry and exit fall on different rows, so the trades number at most
    half the rows; earlier trades of the backtester are kept.  (The two
    hypotheses keep the loop clear of the divisions by zero that numpy
    answers with an infinity.) *)
Theorem backtest_trades_are_sound (b : Backtest.SpreadBacktester)
    (rows : list Backtest.Row) (sym : string) (quanto : Q) :
  Backtest.leverage b <> 0 ->
  Forall simulated_row rows ->
  exists new : list Backtest.Trade,
    Backtest.trades (fst (Backtest.backtest_symbol b rows sym quanto)) =
      Backtest.trades b ++ new /\
    Forall (trade_ok b sym) new /\
    (2 * length new <= length rows)%nat /\
    (forall s : Backtest.Summary,
        snd (Backtest.backtest_symbol b rows sym quanto) = Returned s ->
        Backtest.sm_trades s = length new /\
        (Backtest.sm_winning s <= Backtest.sm_trades s)%nat /\
        Backtest.sm_total_pnl s = py_sum (map Backtest.net_pnl new)).
Proof.
  intros _ _. unfold Backtest.backtest_symbol.
  destruct (replay_ok b sym quanto rows None I) as [Hall Hlen].
  destruct (Backtest.replay b sym quanto None rows) as [new ok].
  simpl in *. exists new.
  destruct ok; simpl; (split; [reflexivity|]); (split; [exact Hall|]);
    (split; [lia|]); intros s; [|intros H; discriminate H].
  intros [= <-]. simpl. repeat split. apply filter_length_le.
Qed.

(** X20 on [dip_rows] with an entry threshold of 0.4: the dip of half a
    percent is entered long with 20100 contracts and left on the next
    row. *)
Lemma backtest_trades_are_sound_witness :
  exists t : Backtest.Trade,
    Backtest.trades
      (fst (Backtest.backtest_symbol
              (Backtest.new_SpreadBacktester (4 # 10) (2 # 10) 10 20)
              dip_rows "BTC_USDT" (1 # 10000))) = [t] /\
    trade_ok (Backtest.new_SpreadBacktester (4 # 10) (2 # 10) 10 20)
      "BTC_USDT" t /\
    Backtest.bt_size t = 20100.
Proof.
  assert (Hrows : Forall simulated_row dip_rows).
  { repeat constructor; vm_compute; discriminate. }
  destruct (backtest_trades_are_sound
              (Backtest.new_SpreadBacktester (4 # 10) (2 # 10) 10 20)
              dip_rows "BTC_USDT" (1 # 10000))
    as (new & Hnew & Hall & _); [discriminate | exact Hrows |].
  destruct new as [|t new].
  { vm_compute in Hnew. discriminate Hnew. }
  destruct new as [|t' new]; [|vm_compute in Hnew; discriminate Hnew].
  exists t. split; [exact Hnew|].
  split; [now apply Forall_inv in Hall|].
  vm_compute in Hnew. injection Hnew as <-. reflexivity.
Defined.

(** X21: the backtester computes with the formulas of the live code.
    Where [detect_spread] emits an opportunity, [calculate_spread] returns
    its spread and its direction; the spread it checks a held position
    against is the one the Gate.io dispatcher hands to the exit check, 0
    once the prices have reversed; and on a trade with positive size its
    gross P&L and its margin are those of the recorder's manual branch,
    while its ROI is taken on the P&L net of fees. *)
Theorem backtester_agrees_with_live_code :
  (forall (d d' : SpreadDetector) (now stamp : Q) (sym : string)
          (mark last : Q) (o : SpreadOpportunity),
      detect_spread d now stamp sym mark last = (d', Some o) ->
      Backtest.calculate_spread mark last =
        Returned (spread_percent o, signal_direction (signal_type o))) /\
  (forall (s : Side) (mark last : Q),
      Backtest.held_spread (side_direction s) mark last =
        exit_spread s mark last) /\
  (forall (b : Backtest.SpreadBacktester) (td : TradeData) (r : PnlData),
      td_real_pnl_usd td = None ->
      0 <= td_size td ->
      td_leverage td = Backtest.leverage b ->
      _calculate_pnl td = Some r ->
      exists p : Backtest.Pnl,
        Backtest.calculate_pnl b (td_entry_price td) (td_exit_price td)
          (side_direction (td_side td)) (td_size td)
          (td_quanto_multiplier td) = Returned p /\
        Backtest.p_gross_pnl p = pnl_usd r /\
        Backtest.p_margin_used p = margin_used r /\
        Backtest.p_net_pnl p = (pnl_usd r - Backtest.p_fees p)%Q).
Proof.
  split; [|split].
  - intros d d' now stamp sym mark last o. unfold detect_spread.
    destruct (Qle_bool mark 0 || Qle_bool last 0) eqn:Hpos;
      [intros H; discriminate H|].
    apply orb_false_iff in Hpos as [Hm Hl]. qprop.
    destruct (in_cooldown d sym now); [intros H; discriminate H|].
    unfold Backtest.calculate_spread.
    destruct (Qlt_bool last mark).
    + destruct (Qle_bool _ _); [|intros H; discriminate H].
      intros [= _ <-]. simpl.
      rewrite (proj2 (Qeq_bool_false_iff last 0)); [reflexivity|].
      intros H0. rewrite H0 in Hl. now apply (Qlt_irrefl 0).
    + destruct (Qlt_bool mark last); [|intros H; discriminate H].
      destruct (Qle_bool _ _); [|intros H; discriminate H].
      intros [= _ <-]. simpl.
      rewrite (proj2 (Qeq_bool_false_iff mark 0)); [reflexivity|].
      intros H0. rewrite H0 in Hm. now apply (Qlt_irrefl 0).
  - intros [|] mark last; reflexivity.
  - intros b td r Hreal Hsz Hlev. unfold _calculate_pnl, Backtest.calculate_pnl.
    rewrite Hreal, Hlev, (Z.abs_eq _ Hsz).
    destruct (Backtest.leverage b =? 0); [intros H; discriminate H|].
    intros [= <-]. eexists. split; [reflexivity|]. simpl.
    destruct (td_side td); repeat split.
Qed.

(** ** Sizing never fails on a signal *)

Lemma fallback_position_size_none (m : GateIOTradingManager) (price : Q) :
  fallback_position_size m price = None <-> (price == 0)%Q.
Proof.
  unfold fallback_position_size.
  destruct (Qeq_bool price 0) eqn:E.
  - apply Qeq_bool_iff in E. tauto.
  - apply Qeq_bool_false_iff in E. split; [intros H; discriminate H | tauto].
Qed.

(** X22: [calculate_position_size] lets an exception escape exactly when
    the price is 0, whatever the contract query answers; every other
    failure inside it ends in the estimate from margin, leverage and price
    alone.  The last price of an opportunity [detect_spread] emits is
    positive, so sizing a signal always returns a count, and
    [open_position] never fails for a sizing error. *)
Theorem sizing_raises_only_at_zero_price (m : GateIOTradingManager)
    (price : Q) (resp : option (option Contract)) :
  (calculate_position_size m price resp = None <-> (price == 0)%Q) /\
  (forall c : Contract,
      resp = Some (Some c) ->
      (quanto_multiplier c = None \/ quanto_multiplier c = Some 0%Q) ->
      calculate_position_size m price resp = fallback_position_size m price)
  /\
  (forall (d d' : SpreadDetector) (now stamp : Q) (sym : string) (mark : Q)
          (o : SpreadOpportunity),
      detect_spread d now stamp sym mark price = (d', Some o) ->
      exists n : Z,
        calculate_position_size m (last_price o) resp = Some n).
Proof.
  assert (Hnone : calculate_position_size m price resp = None <->
                  (price == 0)%Q).
  { unfold calculate_position_size.
    destruct resp as [[c|]|]; try apply fallback_position_size_none.
    destruct (quanto_multiplier c) as [quanto|];
      [|apply fallback_position_size_none].
    destruct (Qeq_bool (price * quanto) 0) eqn:E;
      [apply fallback_position_size_none|].
    apply Qeq_bool_false_iff in E.
    split; [intros H; discriminate H|]. intros H0. exfalso. apply E.
    rewrite H0. ring. }
  split; [exact Hnone|]. split.
  - intros c -> [Hq | Hq]; unfold calculate_position_size; rewrite Hq;
      [reflexivity|].
    replace (Qeq_bool (price * 0) 0) with true; [reflexivity|].
    symmetry. apply Qeq_bool_iff. ring.
  - intros d d' now stamp sym mark o Hd.
    assert (Hlast : last_price o = price /\ (0 < price)%Q).
    { unfold detect_spread in Hd.
      destruct (Qle_bool mark 0 || Qle_bool price 0) eqn:Hpos;
        [discriminate Hd|].
      apply orb_false_iff in Hpos as [_ Hl]. qprop.
      repeat match type of Hd with
             | context [if ?c then _ else _] => destruct c
             end; try discriminate Hd;
        injection Hd as _ <-; now split. }
    destruct Hlast as [-> Hpos].
    destruct (calculate_position_size m price resp) as [n|];
      [now exists n|].
    pose proof (proj1 Hnone eq_refl) as E.
    rewrite E in Hpos. now apply Qlt_irrefl in Hpos.
Qed.

(** ** A position and the tick that opens it *)

(** The manager an accepted [open_position] leaves. *)
Lemma open_position_success (m m' : GateIOTradingManager)
    (opp : SpreadOpportunity) (env : OpenEnv) :
  open_position m opp env = (m', true) ->
  exists (sz id : Z) (quanto : Q),
    sz <> 0 /\ open_order env = Some id /\
    forced_snapshot m (open_snapshot env) !! symbol opp = None /\
    m' =
    with_open_positions
      (submit (fst (get_real_positions_cached m true (open_snapshot env)))
         (opening_order (symbol opp) (signal_type opp) sz))
      (<[symbol opp :=
           {| pos_side := signal_lower (signal_type opp);
              pos_size := Z.abs sz;
              pos_entry_price := last_price opp;
              pos_entry_time := open_time env;
              pos_entry_spread := spread_percent opp;
              pos_order_id := order_no id;
              pos_quanto_multiplier := quanto;
              partial_closed := false;
              stop_loss_order_id := None |}]>
         (open_positions
            (fst (get_real_positions_cached m true (open_snapshot env))))).
Proof.
  unfold open_position, forced_snapshot.
  destruct (can_open_position m); simpl; [|intros H; discriminate H].
  destruct (get_real_positions_cached m true (open_snapshot env))
    as [m1 real]. simpl.
  destruct (real !! symbol opp); [intros H; discriminate H|].
  destruct (calculate_position_size m1 _ _) as [sz|];
    [|intros H; discriminate H].
  destruct (Z.eqb_spec sz 0) as [|Hnz]; [intros H; discriminate H|].
  destruct (open_order env) as [id|]; [|intros H; discriminate H].
  destruct (open_contract_after env) as [c|]; [|intros H; discriminate H].
  intros [= <-]. eexists sz, id, _.
  repeat split; try assumption. unfold opening_order.
  destruct (signal_type opp); simpl;
    rewrite ?Z.abs_opp, Z.abs_idemp; reflexivity.
Qed.

(** What an emitted opportunity tells the exit check of the same tick. *)
Lemma emitted_exit_spread (d d' : SpreadDetector) (now stamp : Q)
    (sym : string) (mark last : Q) (o : SpreadOpportunity) :
  detect_spread d now stamp sym mark last = (d', Some o) ->
  symbol o = sym /\ last_price o = last /\
  exit_spread (signal_lower (signal_type o)) mark last = spread_percent o /\
  (min_threshold d <= spread_percent o)%Q.
Proof.
  unfold detect_spread.
  destruct (Qle_bool mark 0 || Qle_bool last 0); [intros H; discriminate H|].
  destruct (in_cooldown d sym now); [intros H; discriminate H|].
  destruct (Qlt_bool last mark) eqn:E1.
  - destruct (Qle_bool _ _) eqn:E2; [|intros H; discriminate H].
    intros [= _ <-]. simpl. rewrite E1. qprop. now repeat split.
  - destruct (Qlt_bool mark last) eqn:E3; [|intros H; discriminate H].
    destruct (Qle_bool _ _) eqn:E2; [|intros H; discriminate H].
    intros [= _ <-]. simpl. rewrite E3. qprop. now repeat split.
Qed.

(** At the entry price the return is 0: with a positive take-profit
    threshold and a spread above the exit threshold, the exit check does
    nothing. *)
Lemma check_exit_conditions_at_entry (m : GateIOTradingManager)
    (sym : string) (p : Position) (current_spread take_profit_roi : Q)
    (env : ExitEnv) :
  open_positions m !! sym = Some p ->
  leverage m <> 0 ->
  (0 < take_profit_roi)%Q ->
  (exit_spread_threshold m < current_spread)%Q ->
  check_exit_conditions m sym current_spread (pos_entry_price p)
    take_profit_roi env = (m, Returned None).
Proof.
  intros Hp Hlev Htp Hthr.
  unfold check_exit_conditions, calculate_unrealized_pnl. rewrite Hp.
  destruct (Z.eqb_spec (leverage m) 0) as [|_]; [contradiction|].
  cbv beta iota zeta delta [u_roi_pct].
  assert (Hzero : forall s : Side,
             (inject_Z (pos_size p)
              * match s with
                | long => pos_entry_price p - pos_entry_price p
                | short => pos_entry_price p - pos_entry_price p
                end * pos_quanto_multiplier p == 0)%Q)
    by (intros [|]; ring).
  match goal with
  | |- context [Qle_bool take_profit_roi ?roi] =>
      assert (Hroi : Qle_bool take_profit_roi roi = false)
  end.
  { apply Qle_bool_false.
    destruct (Qlt_bool 0 _); [|exact Htp].
    rewrite (Hzero (pos_side p)). unfold Qdiv. now rewrite !Qmult_0_l. }
  rewrite Hroi. simpl. unfold full_exit.
  now rewrite (Qle_bool_false _ _ Hthr).
Qed.

(** X23: a position is not touched by the exit check of the tick that
    opens it.  When the exit threshold lies below the entry threshold, the
    take-profit threshold is positive and the leverage is not 0, a tick
    that opens a position hands the exit check the very spread of the
    signal and the entry price as exit price: the return is 0, so neither
    rule fires; the tick returns no trade, raises nothing, and leaves the
    manager as [open_position] left it, with the one opening order. *)
Theorem fresh_position_survives_its_tick (b : GateIOSpreadBot) (t : Ticker)
    (env : TickEnv) (m : GateIOTradingManager) :
  trading_manager b = Some m ->
  (exit_spread_threshold m < min_threshold (spread_detector b))%Q ->
  leverage m <> 0 ->
  (0 < match take_profit_cfg b with Some r => r | None => 50 end)%Q ->
  opened (snd (on_ticker_update b t env)) = true ->
  exists opp : SpreadOpportunity,
    symbol opp = tk_symbol t /\
    snd (open_position m opp (tick_open env)) = true /\
    trading_manager (fst (on_ticker_update b t env)) =
      Some (fst (open_position m opp (tick_open env))) /\
    exit_spread_used (snd (on_ticker_update b t env)) =
      Some (spread_percent opp) /\
    trade (snd (on_ticker_update b t env)) = None /\
    raised (snd (on_ticker_update b t env)) = false.
Proof.
  intros Hm Hthr Hlev Htp. unfold on_ticker_update.
  destruct (negb (whitelisted _ _)); [intros H; discriminate H|].
  destruct (Qle_bool _ _ || Qle_bool _ _); [intros H; discriminate H|].
  assert (Hquiet : forall b1 : GateIOSpreadBot,
             opened (snd (tick_exit_check b1 t env false)) = true -> False).
  { intros b1 H.
    pose proof (tick_exit_check_accounting b1 t env false)
      as (_ & _ & _ & Hop & _).
    rewrite Hop in H. discriminate H. }
  unfold tick_entry.
  destruct (detect_spread _ _ _ _ _ _) as [d [opp|]] eqn:Hd; simpl;
    [|intros H; now apply Hquiet in H].
  rewrite Hm.
  destruct (trading_enabled b) eqn:Hon; simpl;
    [|intros H; now apply Hquiet in H].
  destruct (open_position m opp (tick_open env)) as [m' ok] eqn:Hopen.
  destruct ok; [|intros H; now apply Hquiet in H].
  intros _. exists opp.
  apply emitted_exit_spread in Hd as (Hsym & Hlast & Hspread & Hmin).
  destruct (open_position_success m m' opp (tick_open env) Hopen)
    as (sz & id & quanto & Hnz & Hid & Hsnap & Hm').
  pose proof (get_real_positions_cached_frame m true
                (open_snapshot (tick_open env)))
    as (_ & Hlev1 & _ & Hthr1 & _).
  set (m1 := fst (get_real_positions_cached m true
                    (open_snapshot (tick_open env)))) in *.
  set (entry :=
         {| pos_side := signal_lower (signal_type opp);
            pos_size := Z.abs sz;
            pos_entry_price := last_price opp;
            pos_entry_time := open_time (tick_open env);
            pos_entry_spread := spread_percent opp;
            pos_order_id := order_no id;
            pos_quanto_multiplier := quanto;
            partial_closed := false;
            stop_loss_order_id := None |}) in *.
  assert (Hentry : open_positions m' !! tk_symbol t = Some entry).
  { rewrite Hm'. simpl. rewrite <- Hsym. apply lookup_insert_eq. }
  assert (Hcheck :
            check_exit_conditions m' (tk_symbol t)
              (exit_spread (signal_lower (signal_type opp))
                 (tk_mark_price t) (tk_last t))
              (tk_last t)
              match take_profit_cfg b with Some r => r | None => 50%Q end
              (tick_exit env) = (m', Returned None)).
  { rewrite <- Hlast at 2.
    change (last_price opp) with (pos_entry_price entry).
    apply check_exit_conditions_at_entry; try assumption.
    - rewrite Hm'. simpl. now rewrite Hlev1.
    - rewrite Hspread. rewrite Hm'. simpl. rewrite Hthr1.
      now apply Qlt_le_trans with (min_threshold (spread_detector b)). }
  unfold tick_exit_check. simpl. rewrite Hon. unfold has_position.
  rewrite Hentry. rewrite bool_decide_eq_true_2 by (now eexists). simpl.
  rewrite Hcheck. simpl. rewrite Hspread, Hopen. now repeat split.
Qed.

(** X23 on the example exchange: the tick at 107 against 100 opens
    BTC_USDT and returns no trade. *)
Lemma fresh_position_survives_its_tick_witness :
  opened
    (snd (on_ticker_update (bot_with example_manager)
            {| tk_symbol := "BTC_USDT"; tk_mark_price := 107;
               tk_last := 100 |} reversal_answers)) = true /\
  trade
    (snd (on_ticker_update (bot_with example_manager)
            {| tk_symbol := "BTC_USDT"; tk_mark_price := 107;
               tk_last := 100 |} reversal_answers)) = None.
Proof.
  assert (Hlev : leverage example_manager <> 0) by discriminate.
  assert (Hopened :
            opened
              (snd (on_ticker_update (bot_with example_manager)
                      {| tk_symbol := "BTC_USDT"; tk_mark_price := 107;
                         tk_last := 100 |} reversal_answers)) = true)
    by (vm_compute; reflexivity).
  destruct (fresh_position_survives_its_tick (bot_with example_manager)
              {| tk_symbol := "BTC_USDT"; tk_mark_price := 107;
                 tk_last := 100 |} reversal_answers example_manager
              eq_refl eq_refl Hlev eq_refl Hopened)
    as (opp & _ & _ & _ & _ & Htrade & _).
  split; [exact Hopened | exact Htrade].
Defined.

(** ** Round trip *)

(** X24: an accepted open followed by a filled close of the same symbol.
    The ledger is back where it was, less any stale entry of the symbol;
    the order history grew by the opening order and a reduce-only closing
    order against it, for the size the exchange reports at close; and the
    one trade logged carries what the open recorded (side of the signal,
    count ordered, last price as entry price, spread of the signal) with
    the exit price and spread of the close and the time held between the
    two clock readings. *)
Theorem open_then_close_round_trip (m m1 : GateIOTradingManager)
    (opp : SpreadOpportunity) (oenv : OpenEnv) (exit_price spread : Q)
    (cenv : CloseEnv) (rp : RealPosition) (id : Z) :
  open_position m opp oenv = (m1, true) ->
  forced_snapshot m1 (close_snapshot cenv) !! symbol opp = Some rp ->
  close_order cenv = Some id ->
  leverage m <> 0 ->
  exists (sz : Z) (t : PnlData),
    snd (close_position m1 (symbol opp) exit_price spread cenv) = Some t /\
    let m2 := fst (close_position m1 (symbol opp) exit_price spread cenv) in
    open_positions m2 = delete (symbol opp) (open_positions m) /\
    submitted m2 =
      submitted m
      ++ [opening_order (symbol opp) (signal_type opp) sz;
          closing_order (symbol opp) (signal_lower (signal_type opp))
            (real_size rp)] /\
    trades (analytics m2) = trades (analytics m) ++ [t] /\
    t_symbol t = symbol opp /\
    t_side t = signal_lower (signal_type opp) /\
    t_size t = Z.abs sz /\
    t_entry_price t = last_price opp /\
    t_entry_spread t = spread_percent opp /\
    t_exit_price t = exit_price /\
    t_exit_spread t = spread /\
    hold_time_seconds t = (close_time cenv - open_time oenv)%Q.
Proof.
  intros Hopen Hrp Hid Hlev.
  destruct (open_position_success m m1 opp oenv Hopen)
    as (sz & oid & quanto & Hnz & _ & _ & Hm1).
  pose proof (get_real_positions_cached_frame m true (open_snapshot oenv))
    as (_ & Hlev0 & _ & _ & Hops0 & Han0 & Hsub0 & _).
  set (m0 := fst (get_real_positions_cached m true (open_snapshot oenv)))
    in *.
  assert (Hentry : open_positions m1 !! symbol opp =
                   Some {| pos_side := signal_lower (signal_type opp);
                           pos_size := Z.abs sz;
                           pos_entry_price := last_price opp;
                           pos_entry_time := open_time oenv;
                           pos_entry_spread := spread_percent opp;
                           pos_order_id := order_no oid;
                           pos_quanto_multiplier := quanto;
                           partial_closed := false;
                           stop_loss_order_id := None |}).
  { rewrite Hm1. simpl. apply lookup_insert_eq. }
  assert (Hlev1 : leverage m1 = leverage m)
    by (rewrite Hm1; simpl; exact Hlev0).
  assert (Hops1 : delete (symbol opp) (open_positions m1) =
                  delete (symbol opp) (open_positions m)).
  { rewrite Hm1. simpl. now rewrite delete_insert_eq, Hops0. }
  assert (Hsub1 : submitted m1 =
                  submitted m
                  ++ [opening_order (symbol opp) (signal_type opp) sz])
    by (rewrite Hm1; simpl; now rewrite Hsub0).
  assert (Han1 : analytics m1 = analytics m)
    by (rewrite Hm1; simpl; exact Han0).
  unfold close_position, forced_snapshot in *. rewrite Hentry.
  snapshot m1 (close_snapshot cenv). simpl in *.
  rewrite Hrp, Hid. unfold log_trade, _calculate_pnl. simpl.
  rewrite Hlev2, Hlev1.
  destruct (Z.eqb_spec (leverage m) 0) as [|_]; [contradiction|].
  exists sz. eexists. split; [reflexivity|]. simpl.
  rewrite Hops, Hops1, Hsub, Hsub1, Han, Han1, <- app_assoc.
  rewrite Z.abs_idemp. repeat split.
Qed.

(** X24 on the example exchange: 4000 contracts bought at 100 and sold,
    held from clock reading 101 to 201. *)
Lemma open_then_close_round_trip_witness :
  exists t : PnlData,
    snd (close_position (fst (open_position example_manager btc_long accepting))
           "BTC_USDT" 110 0 closing) = Some t /\
    t_size t = 4000 /\ hold_time_seconds t = (201 - 101)%Q.
Proof.
  assert (E : open_position example_manager btc_long accepting =
              (fst (open_position example_manager btc_long accepting), true))
    by (vm_compute; reflexivity).
  assert (Hlev : leverage example_manager <> 0) by discriminate.
  destruct (open_then_close_round_trip example_manager _ btc_long accepting
              110 0 closing
              {| real_side := long; real_size := 4000;
                 real_entry_price := 100; real_mark_price := 100;
                 real_unrealised_pnl := 0 |} 43 E
              ltac:(vm_compute; reflexivity) eq_refl Hlev)
    as (sz & t & Ht & _ & Hsub & _ & _ & _ & Hsize & _ & _ & _ & _ & Hhold).
  exists t. split; [exact Ht|]. split; [|exact Hhold].
  rewrite Hsize. vm_compute in Ht. injection Ht as <-.
  simpl in Hsize. lia.
Defined.

(** ** Reconciliation again *)

